(** * Remaining-time prediction pipeline of pm4pypred

    A shallow embedding of the two prediction adapters
    [pm4pypred/algo/prediction/versions/keras_rnn.py] and
    [pm4pypred/algo/prediction/versions/elasticnet.py], with the properties
    of their feature / label construction pipeline.

    Conventions of the embedding:
    - a Python exception is a value of [exn]; a function that may raise
      returns a [result];
    - Python floats are exact numbers: rationals ([Q]) where the code only
      adds and subtracts, reals ([R]) where it takes logarithms and
      exponentials; rounding and overflow of IEEE doubles are not modelled;
    - a Python dict with string keys is a [gmap string _];
    - collaborators that live outside the repository (the builtin [str],
      the business calendar, the tabular representation builder, the
      regressors) are the fields of the class [Collaborators]. *)

From Stdlib Require Import ZArith QArith Qround Reals Qreals Lra Lia.
From stdpp Require Import base option list strings gmap sorting.

Set Default Proof Using "Type".
Set Warnings "-register-all,-notation-incompatible-prefix".

Open Scope Z_scope.

(** ** Exceptions and the error monad *)

Inductive exn : Set :=
| IndexError
| KeyError
| ValueError
| TypeError
| AttributeError
| ZeroDivisionError.

Inductive result (A : Type) : Type :=
| Ok (a : A)
| Err (e : exn).
Arguments Ok {A} a.
Arguments Err {A} e.

Definition rbind {A B} (m : result A) (k : A -> result B) : result B :=
  match m with
  | Ok a => k a
  | Err e => Err e
  end.

Declare Scope result_scope.
Delimit Scope result_scope with result.
Notation "x <- m ;; k" := (rbind m (fun x => k))
  (at level 60, m at next level, right associativity) : result_scope.
Open Scope result_scope.

(** A [for] loop whose body may raise and which collects one value per
    iteration. *)
Fixpoint mapM {A B} (f : A -> result B) (l : list A) : result (list B) :=
  match l with
  | [] => Ok []
  | x :: l' => y <- f x ;; ys <- mapM f l' ;; Ok (y :: ys)
  end.

(** A [for] loop threading an accumulator. *)
Fixpoint foldM {A S} (f : S -> A -> result S) (s : S) (l : list A) : result S :=
  match l with
  | [] => Ok s
  | x :: l' => s' <- f s x ;; foldM f s' l'
  end.

(** ** Python sequences *)

(** [l[i]] for a Python int [i]: a negative index counts from the end,
    and an index outside [-len, len) raises [IndexError]. *)
Definition py_index {A} (l : list A) (i : Z) : result nat :=
  let n := Z.of_nat (length l) in
  if (0 <=? i) && (i <? n) then Ok (Z.to_nat i)
  else if (- n <=? i) && (i <? 0) then Ok (Z.to_nat (n + i))
  else Err IndexError.

Definition py_getitem {A} (l : list A) (i : Z) : result A :=
  k <- py_index l i ;;
  match l !! k with
  | Some x => Ok x
  | None => Err IndexError
  end.

Definition py_setitem {A} (l : list A) (i : Z) (x : A) : result (list A) :=
  k <- py_index l i ;; Ok (<[k := x]> l).

(** ** Floating-point primitives of [math], over the reals *)

Module PyMath.

Definition log (x : R) : result R :=
  if Rle_dec x 0 then Err ValueError else Ok (ln x).

Definition div (a b : R) : result R :=
  if Req_dec_T b 0 then Err ZeroDivisionError else Ok (a / b)%R.

(** The builtin [max] of a list; it raises on an empty one. *)
Definition max_list (l : list R) : result R :=
  match l with
  | [] => Err ValueError
  | x :: l' => Ok (fold_left Rmax l' x)
  end.

End PyMath.

(** ** Label normalisation ([keras_rnn.py], lines 157-202) *)

Definition initial_max_value : R := (-10000000)%R.

(** The first loop of [normalize_remaining_time]. *)
Definition global_max (rem_time_grouped : list (list R)) : result R :=
  foldM (fun max_value lst =>
           max_lst <- PyMath.max_list lst ;;
           Ok (Rmax max_value max_lst))
        initial_max_value rem_time_grouped.

Definition normalize_value (log_max_value val : R) : result R :=
  l <- PyMath.log (val + 1.0)%R ;;
  q <- PyMath.div l log_max_value ;;
  Ok (-1.0 + 2.0 * q)%R.

Definition normalize_remaining_time (rem_time_grouped : list (list R))
  : result (list (list R) * R) :=
  max_value <- global_max rem_time_grouped ;;
  log_max_value <- PyMath.log (1.0 + max_value)%R ;;
  ret <- mapM (mapM (normalize_value log_max_value)) rem_time_grouped ;;
  Ok (ret, log_max_value).

Definition reconstruct_value (y log_max_value : R) : R :=
  let y := if Rlt_dec y (-1) then (-1)%R else y in
  (exp ((y + 1.0) / 2.0 * log_max_value) - 1)%R.

(** ** Python values, events, traces and logs *)

Inductive pyval : Type :=
| PNone
| PBool (b : bool)
| PInt (n : Z)
| PFloat (q : Q)
| PStr (s : string)
| PTime (us : Z)            (* a datetime, in microseconds since the epoch *)
| PList (l : list pyval).

(** Truth value of an object in an [if]. *)
Definition truthy (v : pyval) : bool :=
  match v with
  | PNone => false
  | PBool b => b
  | PInt n => negb (n =? 0)
  | PFloat q => negb (Qeq_bool q 0)
  | PStr s => negb (String.eqb s "")
  | PTime _ => true
  | PList l => match l with [] => false | _ => true end
  end.

(** Iteration over an object: lists give their items, strings their
    characters, anything else is not iterable. *)
Definition py_iter (v : pyval) : result (list pyval) :=
  match v with
  | PList l => Ok l
  | PStr s => Ok (map (fun c => PStr (String c EmptyString)) (String.list_ascii_of_string s))
  | _ => Err TypeError
  end.

(** An event maps attribute names to values; a trace is a sequence of
    events and a log a sequence of traces. *)
Abbreviation event := (gmap string pyval).
Abbreviation trace := (list event).
Abbreviation log := (list trace).
Abbreviation params := (gmap string pyval).

(** [event[key]]: the keys of an event are strings, so no other key is
    found, and a list is not hashable. *)
Definition event_getitem (ev : event) (key : pyval) : result pyval :=
  match key with
  | PStr k => match ev !! k with Some v => Ok v | None => Err KeyError end
  | PList _ => Err TypeError
  | _ => Err KeyError
  end.

(** [parameters[k] if k in parameters else d] *)
Definition param_or (parameters : params) (k : string) (d : pyval) : pyval :=
  match parameters !! k with Some v => v | None => d end.

(** ** Collaborators outside the repository *)

(** The tabular design matrix of the representation builder is opaque. *)
Inductive design_matrix : Type := DesignMatrix (rows : list (list Q)).

(** What [train] asks of Keras: [LSTM(hidden_neurons, return_sequences=False,
    input_shape=input_shape)], [Dense(dense_units)], a linear activation,
    and the arguments of [fit]. *)
Record network : Type := {
  hidden_neurons : Z;
  input_shape : nat * nat;
  dense_units : nat;
  batch_size : nat;
  nb_epoch : pyval;
}.

Class Collaborators : Type := {
  (** [constants.PARAMETER_CONSTANT_ACTIVITY_KEY] *)
  PARAMETER_CONSTANT_ACTIVITY_KEY : string;
  (** [constants.PARAMETER_CONSTANT_TIMESTAMP_KEY] *)
  PARAMETER_CONSTANT_TIMESTAMP_KEY : string;
  (** [xes.DEFAULT_NAME_KEY] *)
  DEFAULT_NAME_KEY : string;
  (** [xes.DEFAULT_TIMESTAMP_KEY] *)
  DEFAULT_TIMESTAMP_KEY : string;
  (** the builtin [str] *)
  py_str : pyval -> string;
  (** [BusinessHours(st, et, worktiming=w, weekends=k).getseconds()] on
      naive datetimes *)
  BusinessHours_getseconds : Z -> Z -> pyval -> pyval -> Q;
  (** [sorting.sort_timestamp(log, timestamp_key)] *)
  sort_timestamp : log -> pyval -> log;
  (** [attributes_filter.select_attributes_from_log_for_tree(log)] *)
  select_attributes_from_log_for_tree :
    log -> list pyval * list pyval * list pyval * list pyval;
  (** [get_log_representation.get_representation(log, str_tr_attr,
      str_ev_attr, num_tr_attr, num_ev_attr, str_evsucc_attr=...,
      feature_names=...)] *)
  get_representation :
    log -> pyval -> pyval -> pyval -> pyval -> pyval -> option (list string) ->
    design_matrix * list string;
  (** a fitted [ElasticNet(max_iter=10000, l1_ratio=0.7)] *)
  elasticnet_regressor : Type;
  ElasticNet_fit : design_matrix -> list pyval -> elasticnet_regressor;
  (** a compiled and fitted Keras [Sequential] model *)
  keras_regressor : Type;
  keras_fit : network -> list (list (list Z)) -> list (list R) -> keras_regressor;
  keras_predict : keras_regressor -> list (list (list Z)) -> list (list R);
}.

(** ** Label extractor ([get_remaining_time_from_log], identical in both
    adapters: [keras_rnn.py] lines 205-245, [elasticnet.py] lines 13-53) *)

(** [timestamp.replace(tzinfo=None)]: only a datetime has that method; a
    string has a [replace] that takes no keyword. *)
Definition replace_tzinfo_none (v : pyval) : result Z :=
  match v with
  | PTime us => Ok us
  | PStr _ => Err TypeError
  | _ => Err AttributeError
  end.

Definition is_number (v : pyval) : bool :=
  match v with PBool _ | PInt _ | PFloat _ => true | _ => false end.

(** [(timestamp_et - timestamp_st).total_seconds()]: the difference of two
    datetimes is a timedelta; the difference of two numbers is a number,
    which has no [total_seconds]; nothing else can be subtracted. *)
Definition total_seconds_between (timestamp_et timestamp_st : pyval) : result Q :=
  match timestamp_et, timestamp_st with
  | PTime et, PTime st => Ok (Qred ((et - st) # 1000000))
  | _, _ =>
      if is_number timestamp_et && is_number timestamp_st
      then Err AttributeError else Err TypeError
  end.

(** [while len(row) < max_len_trace: row.append(row[-1])], by the number
    [n = max_len_trace - len(row)] of iterations left: every iteration
    appends one element. *)
Fixpoint pad_loop {A} (n : nat) (row : list A) : result (list A) :=
  match n with
  | O => Ok row
  | S n' => x <- py_getitem row (-1) ;; pad_loop n' (row ++ [x])
  end.

Definition pad_with_last {A} (max_len_trace : nat) (row : list A) : result (list A) :=
  pad_loop (max_len_trace - length row)%nat row.

Section LabelExtractor.
Context `{Collaborators}.

(** The value appended for the event at [index]. *)
Definition remaining_time_at (timestamp_key business_hours worktiming weekends : pyval)
    (tr : trace) (index : nat) : result Q :=
  ev <- py_getitem tr (Z.of_nat index) ;;
  timestamp_st <- event_getitem ev timestamp_key ;;
  last_ev <- py_getitem tr (-1) ;;
  timestamp_et <- event_getitem last_ev timestamp_key ;;
  if truthy business_hours then
    st <- replace_tzinfo_none timestamp_st ;;
    et <- replace_tzinfo_none timestamp_et ;;
    Ok (BusinessHours_getseconds st et worktiming weekends)
  else
    total_seconds_between timestamp_et timestamp_st.

(** [for index, event in enumerate(trace)] with its [break]; [rest] is
    what is left of the trace from [index] on. *)
Fixpoint remaining_time_loop (timestamp_key business_hours worktiming weekends : pyval)
    (tr : trace) (max_len_trace : nat) (index : nat) (rest : trace) (row : list Q)
    : result (list Q) :=
  match rest with
  | [] => Ok row
  | _ :: rest' =>
      if (Z.of_nat max_len_trace <=? Z.of_nat index) then Ok row
      else
        v <- remaining_time_at timestamp_key business_hours worktiming weekends tr index ;;
        remaining_time_loop timestamp_key business_hours worktiming weekends
          tr max_len_trace (S index) rest' (row ++ [v])
  end.

Definition remaining_time_of_trace (parameters : params) (max_len_trace : nat)
    (tr : trace) : result (list Q) :=
  let timestamp_key :=
    param_or parameters PARAMETER_CONSTANT_TIMESTAMP_KEY (PStr DEFAULT_TIMESTAMP_KEY) in
  let business_hours := param_or parameters "business_hours" (PBool false) in
  let worktiming := param_or parameters "worktiming" (PList [PInt 7; PInt 17]) in
  let weekends := param_or parameters "weekends" (PList [PInt 6; PInt 7]) in
  row <- remaining_time_loop timestamp_key business_hours worktiming weekends
           tr max_len_trace 0 tr [] ;;
  pad_with_last max_len_trace row.

Definition get_remaining_time_from_log (lg : log) (max_len_trace : nat)
    (parameters : option params) : result (list (list Q)) :=
  let parameters := match parameters with None => ∅ | Some p => p end in
  mapM (remaining_time_of_trace parameters max_len_trace) lg.

End LabelExtractor.

(** ** Grouping of the labels by case ([group_remaining_time],
    [keras_rnn.py] lines 120-154) *)

Section Grouping.
Context {A : Type}.

(** The inner loop [for i in range(len(ct))], from [i] on, with [n]
    iterations left. The state of the two nested loops is carried along:
    the list [rem] of the case, the flag [added], the groups appended so
    far and the running position [j] in the flat list. *)
Fixpoint group_case_loop (remaining_time : list A) (max_len_trace : nat) (len_ct : nat)
    (n : nat) (i : nat) (rem : list A) (added : bool)
    (rem_time_grouped : list (list A)) (j : nat)
    : result (list (list A) * nat) :=
  match n with
  | O => Ok (rem_time_grouped, j)
  | S n' =>
      x <- py_getitem remaining_time (Z.of_nat j) ;;
      let rem := rem ++ [x] in
      if (Z.of_nat i =? Z.of_nat max_len_trace - 1) then
        group_case_loop remaining_time max_len_trace len_ct n' (S i) rem true
          (rem_time_grouped ++ [rem]) (S j)
      else if (Z.of_nat i =? Z.of_nat len_ct - 1) && negb added then
        rem <- pad_with_last max_len_trace rem ;;
        group_case_loop remaining_time max_len_trace len_ct n' (S i) rem added
          (rem_time_grouped ++ [rem]) (S j)
      else
        group_case_loop remaining_time max_len_trace len_ct n' (S i) rem added
          rem_time_grouped (S j)
  end.

Definition group_remaining_time (change_indexes : list (list nat))
    (remaining_time : list A) (max_len_trace : nat) : result (list (list A)) :=
  r <- foldM (fun '(rem_time_grouped, j) ct =>
                group_case_loop remaining_time max_len_trace (length ct)
                  (length ct) 0 [] false rem_time_grouped j)
             ([], 0%nat) change_indexes ;;
  Ok r.1.

End Grouping.

(** ** Sequence tensor builder ([keras_rnn.py], lines 17-117) *)

(** [np.transpose(np.asmatrix(X)).tolist()] for a list of rows of one
    width: the columns of [X]. The matrix of an empty list has shape
    (1, 0), so its transpose has no row. *)
Definition np_transpose (X : list (list Z)) : list (list Z) :=
  match X with
  | [] => []
  | r :: _ => map (fun c => map (fun row => nth c row 0) X) (seq 0 (length r))
  end.

(** [if rep in dictionary_features: ev_vector[dictionary_features[rep]] = 1] *)
Definition mark_feature (dictionary_features : gmap string Z) (rep : string)
    (ev_vector : list Z) : result (list Z) :=
  match dictionary_features !! rep with
  | Some idx => py_setitem ev_vector idx 1
  | None => Ok ev_vector
  end.

(** The padding loop [while j < max_len_trace], by the number of
    iterations left. *)
Fixpoint zero_pad_loop (n : nat) (X : list (list Z)) : result (list (list Z)) :=
  match n with
  | O => Ok X
  | S n' =>
      last_row <- py_getitem X (-1) ;;
      zero_pad_loop n' (X ++ [replicate (length last_row) 0])
  end.

Section SequenceTensor.
Context `{Collaborators}.

(** First inner loop: the [event:] descriptors. The name of an
    attribute is a string, which [str] leaves as it is. *)
Definition mark_event_features (dictionary_features : gmap string Z)
    (ev : event) (ev_vector : list Z) : result (list Z) :=
  foldM (fun ev_vector '(attribute_name, attribute_value) =>
           let rep := "event:" +:+ attribute_name +:+ "@" +:+ py_str attribute_value in
           mark_feature dictionary_features rep ev_vector)
        ev_vector (map_to_list ev).

(** Second inner loop: the [succession:] descriptors. *)
Definition mark_succession_features (dictionary_features : gmap string Z)
    (ev next_event : event) (ev_vector : list Z) : result (list Z) :=
  foldM (fun ev_vector '(attribute_name, attribute_value_1) =>
           match next_event !! attribute_name with
           | Some attribute_value_2 =>
               let rep := "succession:" +:+ attribute_name +:+ "@"
                          +:+ py_str attribute_value_1 +:+ "#"
                          +:+ py_str attribute_value_2 in
               mark_feature dictionary_features rep ev_vector
           | None => Ok ev_vector
           end)
        ev_vector (map_to_list ev).

(** Body of the loop over [index]. *)
Definition event_vector (tr : trace) (dictionary_features : gmap string Z)
    (index : nat) : result (list Z) :=
  ev <- py_getitem tr (Z.of_nat index) ;;
  let ev_vector := replicate (size dictionary_features) 0 in
  ev_vector <- mark_event_features dictionary_features ev ev_vector ;;
  if (Z.of_nat index <? Z.of_nat (length tr) - 1) then
    next_event <- py_getitem tr (Z.of_nat index + 1) ;;
    mark_succession_features dictionary_features ev next_event ev_vector
  else Ok ev_vector.

Definition get_trace_rep_rnn (tr : trace) (dictionary_features : gmap string Z)
    (max_len_trace : nat) : result (list (list Z)) :=
  X <- mapM (event_vector tr dictionary_features)
         (seq 0 (Nat.min (length tr) max_len_trace)) ;;
  X <- zero_pad_loop (max_len_trace - length tr)%nat X ;;
  Ok (np_transpose X).

Definition get_log_rep_rnn (lg : log) (dictionary_features : gmap string Z)
    (max_len_trace : nat) : result (list (list (list Z))) :=
  foldM (fun X tr =>
           rep <- get_trace_rep_rnn tr dictionary_features max_len_trace ;;
           match rep with
           | [] => Ok X
           | _ => Ok (X ++ [rep])
           end)
        [] lg.

(** [for index, value in enumerate(feature_names)] *)
Fixpoint enumerate_from {B} (index : nat) (l : list B) : list (nat * B) :=
  match l with
  | [] => []
  | x :: l' => (index, x) :: enumerate_from (S index) l'
  end.

Definition build_dictionary (feature_names : list string) : gmap string Z :=
  fold_left (fun dictionary_features '(index, value) =>
               <[value := Z.of_nat index]> dictionary_features)
            (enumerate_from 0 feature_names) ∅.

Definition get_X_from_log (lg : log) (feature_names : list string)
    (max_len_trace : nat) : result (list (list (list Z))) :=
  get_log_rep_rnn lg (build_dictionary feature_names) max_len_trace.

End SequenceTensor.

(** [X.shape[1]] and [X.shape[2]] of the array of a list of matrices of
    one shape; an array with fewer dimensions has no such entry. *)
Definition np_shape_1 (X : list (list (list Z))) : result nat :=
  match X with
  | m :: _ => Ok (length m)
  | [] => Err IndexError
  end.

Definition np_shape_2 (X : list (list (list Z))) : result nat :=
  match X with
  | (r :: _) :: _ => Ok (length r)
  | _ => Err IndexError
  end.

(** ** Prefix expander *)

(** Modelled from the spec: the prefixes that [get_log_with_log_prefixes]
    emits for one trace. Section 4.2: for every trace of length n, the n
    prefixes of length 1..n. *)
Definition prefixes_of (tr : trace) : list trace :=
  map (fun k => take k tr) (seq 1 (length tr)).

(** Modelled from the spec: the [change_indexes] of
    [get_log_with_log_prefixes]. Section 4.2: one entry per source trace,
    the indices of its prefixes in the expanded log, in prefix-length
    order. *)
Fixpoint change_indexes_from (start : nat) (lg : log) : list (list nat) :=
  match lg with
  | [] => []
  | tr :: lg' => seq start (length tr) :: change_indexes_from (start + length tr) lg'
  end.

(** Modelled from the spec: [get_log_with_log_prefixes] of
    [pm4py.objects.log.util.get_prefixes] is not part of the repository.
    Section 4.2: [expand(log) -> (expanded_log, change_indexes)], the
    order across source traces is preserved. *)
Definition get_log_with_log_prefixes (lg : log) : log * list (list nat) :=
  (concat (map prefixes_of lg), change_indexes_from 0 lg).

(** ** The caller's [parameters] dict *)

(** [train] receives the dict by reference: a computation over it is a
    state transformer that also says whether an exception was raised. *)
Definition dict_comp (A : Type) : Type := params -> result A * params.

Definition sret {A} (a : A) : dict_comp A := fun p => (Ok a, p).

Definition sbind {A B} (m : dict_comp A) (k : A -> dict_comp B) : dict_comp B :=
  fun p => match m p with
           | (Ok a, p') => k a p'
           | (Err e, p') => (Err e, p')
           end.

Notation "x <~ m ;; k" := (sbind m (fun x => k))
  (at level 60, m at next level, right associativity) : result_scope.

(** A computation that does not touch the dict. *)
Definition lift {A} (r : result A) : dict_comp A := fun p => (r, p).

(** [k in parameters] *)
Definition contains (k : string) : dict_comp bool :=
  fun p => (Ok (bool_decide (is_Some (p !! k))), p).

(** [parameters[k]] *)
Definition getitem (k : string) : dict_comp pyval :=
  fun p => (match p !! k with Some v => Ok v | None => Err KeyError end, p).

(** [parameters[k] = v] *)
Definition setitem (k : string) (v : pyval) : dict_comp unit :=
  fun p => (Ok tt, <[k := v]> p).

(** [parameters[k] if k in parameters else d] *)
Definition get_or (k : string) (d : pyval) : dict_comp pyval :=
  b <~ contains k ;; if b then getitem k else sret d.

(** The dict itself, handed to a callee that only reads it. *)
Definition current : dict_comp params := fun p => (Ok p, p).

(** ** Helpers on Python values used by the adapters *)

Definition num_of (v : pyval) : option Q :=
  match v with
  | PBool b => Some (if b then 1 else 0)%Q
  | PInt n => Some (inject_Z n)
  | PFloat q => Some q
  | _ => None
  end.

(** [a == b] *)
Fixpoint pyval_eqb (a b : pyval) {struct a} : bool :=
  match a, b with
  | PList l1, PList l2 =>
      (fix list_eqb (l1 l2 : list pyval) {struct l1} : bool :=
         match l1, l2 with
         | [], [] => true
         | x :: l1', y :: l2' => pyval_eqb x y && list_eqb l1' l2'
         | _, _ => false
         end) l1 l2
  | PStr s1, PStr s2 => String.eqb s1 s2
  | PTime t1, PTime t2 => t1 =? t2
  | PNone, PNone => true
  | _, _ =>
      match num_of a, num_of b with
      | Some x, Some y => Qeq_bool x y
      | _, _ => false
      end
  end.

(** [x in l] for a list [l] *)
Definition py_in (x : pyval) (l : list pyval) : bool :=
  existsb (pyval_eqb x) l.

(** A caller-supplied [y_orig] read as a list of lists of numbers. *)
Definition float_of (v : pyval) : result R :=
  match num_of v with
  | Some q => Ok (Q2R q)
  | None => Err TypeError
  end.

Definition float_matrix (v : pyval) : result (list (list R)) :=
  rows <- py_iter v ;;
  mapM (fun row => vals <- py_iter row ;; mapM float_of vals) rows.

(** [max] of a list of lengths; it raises on an empty list. *)
Definition max_length (l : list nat) : result nat :=
  match l with
  | [] => Err ValueError
  | x :: l' => Ok (fold_left Nat.max l' x)
  end.

(** [int(x)] of a float: truncation towards zero. *)
Definition py_int (x : Q) : Z := Z.quot (Qnum x) (Z.pos (Qden x)).

(** [round(x)] of a float: to the nearest integer, ties to the even one. *)
Definition py_round (x : Q) : Z :=
  let f := Qfloor x in
  match (x - inject_Z f ?= 1 # 2)%Q with
  | Lt => f
  | Gt => f + 1
  | Eq => if Z.even f then f else f + 1
  end.

(** ** The two adapters *)

Section Attributes.
Context `{Collaborators}.

(** The attribute groups, resolved the same way by both [train]s. *)
Definition resolve_attributes (lg : log) (activity_key : pyval)
    : dict_comp (pyval * pyval * pyval * pyval) :=
  b <~ contains "str_ev_attr" ;;
  if b then
    str_tr_attr <~ get_or "str_tr_attr" (PList []) ;;
    str_ev_attr <~ get_or "str_ev_attr" (PList []) ;;
    num_tr_attr <~ get_or "num_tr_attr" (PList []) ;;
    num_ev_attr <~ get_or "num_ev_attr" (PList []) ;;
    sret (str_tr_attr, str_ev_attr, num_tr_attr, num_ev_attr)
  else
    let '(str_tr_attr, str_ev_attr, num_tr_attr, num_ev_attr) :=
      select_attributes_from_log_for_tree lg in
    let str_ev_attr :=
      if py_in activity_key str_ev_attr then str_ev_attr
      else str_ev_attr ++ [activity_key] in
    sret (PList str_tr_attr, PList str_ev_attr, PList num_tr_attr, PList num_ev_attr).

End Attributes.

(** [train(log, parameters=None)]: the second component is the caller's
    dict after the call, when the caller passed one. *)
Definition run_train {Model} (body : dict_comp Model) (parameters : option params)
    : result Model * option params :=
  match parameters with
  | None => ((body ∅).1, None)
  | Some p => let '(r, p') := body p in (r, Some p')
  end.

(** *** Elastic net ([elasticnet.py], lines 56-130) *)

Module elasticnet.
Section Adapter.
Context `{Collaborators}.

Record model : Type := {
  en_str_tr_attr : pyval;
  en_str_ev_attr : pyval;
  en_num_tr_attr : pyval;
  en_num_ev_attr : pyval;
  en_str_evsucc_attr : pyval;
  en_feature_names : list string;
  en_remaining_time : list pyval;
  en_regr : elasticnet_regressor;
}.

(** The label of one trace of the expanded log, lines 108-124. *)
Definition prefix_label (timestamp_key business_hours worktiming weekends : pyval)
    (tr : trace) : result pyval :=
  match tr with
  | [] => Ok (PInt 0)
  | _ =>
      last_ev <- py_getitem tr (-1) ;;
      timestamp_et <- event_getitem last_ev timestamp_key ;;
      first_ev <- py_getitem tr 0 ;;
      timestamp_st <- event_getitem first_ev timestamp_key ;;
      if truthy business_hours then
        st <- replace_tzinfo_none timestamp_st ;;
        et <- replace_tzinfo_none timestamp_et ;;
        Ok (PFloat (BusinessHours_getseconds st et worktiming weekends))
      else
        s <- total_seconds_between timestamp_et timestamp_st ;;
        Ok (PFloat s)
  end.

(** Lines 103-124: the flat label vector. *)
Definition labels (y_orig timestamp_key business_hours worktiming weekends : pyval)
    (ext_log : log) : result (list pyval) :=
  match y_orig with
  | PNone => mapM (prefix_label timestamp_key business_hours worktiming weekends) ext_log
  | _ =>
      rows <- py_iter y_orig ;;
      rows <- mapM py_iter rows ;;
      Ok (concat rows)
  end.

Definition train_body (lg : log) : dict_comp model :=
  _ <~ setitem "enable_sort" (PBool false) ;;
  activity_key <~ get_or PARAMETER_CONSTANT_ACTIVITY_KEY (PStr DEFAULT_NAME_KEY) ;;
  timestamp_key <~ get_or PARAMETER_CONSTANT_TIMESTAMP_KEY (PStr DEFAULT_TIMESTAMP_KEY) ;;
  business_hours <~ get_or "business_hours" (PBool false) ;;
  worktiming <~ get_or "worktiming" (PList [PInt 7; PInt 17]) ;;
  weekends <~ get_or "weekends" (PList [PInt 6; PInt 7]) ;;
  y_orig <~ get_or "y_orig" PNone ;;
  let lg := sort_timestamp lg timestamp_key in
  let str_evsucc_attr := PList [activity_key] in
  attrs <~ resolve_attributes lg activity_key ;;
  let '(str_tr_attr, str_ev_attr, num_tr_attr, num_ev_attr) := attrs in
  let '(ext_log, change_indexes) := get_log_with_log_prefixes lg in
  let '(data, feature_names) :=
    get_representation ext_log str_tr_attr str_ev_attr num_tr_attr num_ev_attr
      str_evsucc_attr None in
  remaining_time <~ lift (labels y_orig timestamp_key business_hours
                            worktiming weekends ext_log) ;;
  let regr := ElasticNet_fit data remaining_time in
  sret {| en_str_tr_attr := str_tr_attr; en_str_ev_attr := str_ev_attr;
          en_num_tr_attr := num_tr_attr; en_num_ev_attr := num_ev_attr;
          en_str_evsucc_attr := str_evsucc_attr; en_feature_names := feature_names;
          en_remaining_time := remaining_time; en_regr := regr |}.

Definition train (lg : log) (parameters : option params)
    : result model * option params :=
  run_train (train_body lg) parameters.

End Adapter.
End elasticnet.

(** *** Sequence model ([keras_rnn.py], lines 248-337) *)

Module keras_rnn.
Section Adapter.
Context `{Collaborators}.

Record model : Type := {
  str_tr_attr : pyval;
  str_ev_attr : pyval;
  num_tr_attr : pyval;
  num_ev_attr : pyval;
  str_evsucc_attr : pyval;
  feature_names : list string;
  regr : keras_regressor;
  max_len_trace : nat;
  log_max_value : R;
}.

(** Everything [train] computes before it hands over to Keras. *)
Record prepared : Type := {
  p_str_tr_attr : pyval;
  p_str_ev_attr : pyval;
  p_num_tr_attr : pyval;
  p_num_ev_attr : pyval;
  p_str_evsucc_attr : pyval;
  p_feature_names : list string;
  p_max_len_trace : nat;
  p_log_max_value : R;
  p_X : list (list (list Z));
  p_y : list (list R);
  p_network : network;
}.

(** Lines 267-269: the raw labels. *)
Definition raw_labels (lg : log) (max_len_trace : nat) : dict_comp (list (list R)) :=
  b <~ contains "y_orig" ;;
  if b then
    v <~ getitem "y_orig" ;; lift (float_matrix v)
  else
    parameters <~ current ;;
    rows <~ lift (get_remaining_time_from_log lg max_len_trace (Some parameters)) ;;
    sret (map (map Q2R) rows).

(** Lines 259-288. *)
Definition prepare (lg : log) : dict_comp prepared :=
  default_epochs <~ get_or "default_epochs" (PInt 50) ;;
  _ <~ setitem "enable_sort" (PBool false) ;;
  activity_key <~ get_or PARAMETER_CONSTANT_ACTIVITY_KEY (PStr DEFAULT_NAME_KEY) ;;
  max_len_trace <~ lift (max_length (map length lg)) ;;
  y_orig <~ raw_labels lg max_len_trace ;;
  normalized <~ lift (normalize_remaining_time y_orig) ;;
  let '(y, log_max_value) := normalized in
  let str_evsucc_attr := PList [activity_key] in
  attrs <~ resolve_attributes lg activity_key ;;
  let '(str_tr_attr, str_ev_attr, num_tr_attr, num_ev_attr) := attrs in
  let '(data, feature_names) :=
    get_representation lg str_tr_attr str_ev_attr num_tr_attr num_ev_attr
      str_evsucc_attr None in
  X <~ lift (get_X_from_log lg feature_names max_len_trace) ;;
  in_out_neurons <~ lift (np_shape_2 X) ;;
  let hidden_neurons := Z.min (py_int (inject_Z (Z.of_nat in_out_neurons) * 7.5)) 50 in
  shape_1 <~ lift (np_shape_1 X) ;;
  sret {| p_str_tr_attr := str_tr_attr; p_str_ev_attr := str_ev_attr;
          p_num_tr_attr := num_tr_attr; p_num_ev_attr := num_ev_attr;
          p_str_evsucc_attr := str_evsucc_attr; p_feature_names := feature_names;
          p_max_len_trace := max_len_trace; p_log_max_value := log_max_value;
          p_X := X; p_y := y;
          p_network := {| hidden_neurons := hidden_neurons;
                          input_shape := (shape_1, in_out_neurons);
                          dense_units := in_out_neurons;
                          batch_size := shape_1;
                          nb_epoch := default_epochs |} |}.

(** Lines 289-298. *)
Definition train_body (lg : log) : dict_comp model :=
  pr <~ prepare lg ;;
  let regr := keras_fit (p_network pr) (p_X pr) (p_y pr) in
  sret {| str_tr_attr := p_str_tr_attr pr; str_ev_attr := p_str_ev_attr pr;
          num_tr_attr := p_num_tr_attr pr; num_ev_attr := p_num_ev_attr pr;
          str_evsucc_attr := p_str_evsucc_attr pr;
          feature_names := p_feature_names pr;
          regr := regr; max_len_trace := p_max_len_trace pr;
          log_max_value := p_log_max_value pr |}.

Definition train (lg : log) (parameters : option params)
    : result model * option params :=
  run_train (train_body lg) parameters.

(** The object handed to [test]: an [EventLog] or a single trace. *)
Inductive test_object : Type :=
| OfLog (lg : log)
| OfTrace (tr : trace).

(** What [test] returns: a single value or a list. *)
Inductive prediction : Type :=
| Single (v : R)
| Many (l : list R).

(** [reconstruct_value(y[index][len(trace) - 1], log_max_value)] *)
Definition predict_at (y : list (list R)) (log_max_value : R)
    (index : nat) (tr : trace) : result R :=
  row <- py_getitem y (Z.of_nat index) ;;
  v <- py_getitem row (Z.of_nat (length tr) - 1) ;;
  Ok (reconstruct_value v log_max_value).

Definition test (m : model) (obj : test_object) : result prediction :=
  let lg := match obj with OfLog lg => lg | OfTrace tr => [tr] end in
  X <- get_X_from_log lg (feature_names m) (max_len_trace m) ;;
  let y := keras_predict (regr m) X in
  if (Z.of_nat (length lg) =? 1) then
    tr0 <- py_getitem lg 0 ;;
    v <- predict_at y (log_max_value m) 0 tr0 ;;
    Ok (Single v)
  else
    ret <- mapM (fun '(index, tr) => predict_at y (log_max_value m) index tr)
             (enumerate_from 0 lg) ;;
    Ok (Many ret).

End Adapter.
End keras_rnn.

(** ** A small instance of the collaborators, for the examples *)

Module Demo.

Definition strings_of (v : pyval) : list string :=
  match v with
  | PList l => omap (fun x => match x with PStr s => Some s | _ => None end) l
  | _ => []
  end.

Definition str (v : pyval) : string :=
  match v with
  | PStr s => s
  | PNone => "None"
  | PBool true => "True"
  | PBool false => "False"
  | _ => "?"
  end.

(** Keeps the first occurrence of every name. *)
Fixpoint dedup_names (seen : list string) (l : list string) : list string :=
  match l with
  | [] => []
  | x :: l' =>
      if bool_decide (x ∈ seen) then dedup_names seen l'
      else x :: dedup_names (x :: seen) l'
  end.

Definition event_descriptors (attrs : list string) (ev : event) : list string :=
  omap (fun a => match ev !! a with
                 | Some v => Some ("event:" +:+ a +:+ "@" +:+ str v)
                 | None => None
                 end) attrs.

Fixpoint succession_descriptors (attrs : list string) (tr : trace) : list string :=
  match tr with
  | ev :: (next_event :: _) as tr' =>
      omap (fun a => match ev !! a, next_event !! a with
                     | Some v1, Some v2 =>
                         Some ("succession:" +:+ a +:+ "@" +:+ str v1 +:+ "#" +:+ str v2)
                     | _, _ => None
                     end) attrs
      ++ succession_descriptors attrs tr'
  | _ => []
  end.

(** The feature names of the string event attributes and of their
    successions, in order of first appearance. *)
Definition representation (lg : log) (str_ev_attr str_evsucc_attr : pyval)
    : design_matrix * list string :=
  (DesignMatrix [],
   dedup_names []
     (flat_map (fun tr =>
                  flat_map (event_descriptors (strings_of str_ev_attr)) tr
                  ++ succession_descriptors (strings_of str_evsucc_attr) tr) lg)).

(** One output per timestep for every encoded trace. *)
Definition predict (X : list (list (list Z))) : list (list R) :=
  map (fun m => map (fun t => (INR t / 10)%R) (seq 0 (length (hd [] m)))) X.

(** Every second counts as a business second, logs are taken to be in
    timestamp order already, and the regressors are trivial. *)
Definition collaborators : Collaborators := {|
  PARAMETER_CONSTANT_ACTIVITY_KEY := "pm4py:param:activity_key";
  PARAMETER_CONSTANT_TIMESTAMP_KEY := "pm4py:param:timestamp_key";
  DEFAULT_NAME_KEY := "concept:name";
  DEFAULT_TIMESTAMP_KEY := "time:timestamp";
  py_str := str;
  BusinessHours_getseconds := fun st et _ _ => Qred ((et - st) # 1000000);
  sort_timestamp := fun lg _ => lg;
  select_attributes_from_log_for_tree := fun _ => ([], [PStr "concept:name"], [], []);
  get_representation := fun lg _ str_ev_attr _ _ str_evsucc_attr _ =>
                          representation lg str_ev_attr str_evsucc_attr;
  elasticnet_regressor := unit;
  ElasticNet_fit := fun _ _ => tt;
  keras_regressor := unit;
  keras_fit := fun _ _ _ => tt;
  keras_predict := fun _ X => predict X;
|}.

(** An event of activity [a] at [s] seconds. *)
Definition ev (a : string) (s : Z) : event :=
  <["concept:name" := PStr a]> (<["time:timestamp" := PTime (s * 1000000)]> ∅).

(** The trace of the scenario of the spec: three events at 0s, 5s, 12s. *)
Definition trace_A : trace := [ev "A" 0; ev "B" 5; ev "C" 12].

(** Five events of one activity, one second apart. *)
Definition trace_5 : trace := [ev "A" 0; ev "A" 1; ev "A" 2; ev "A" 3; ev "A" 4].

End Demo.

(** ** Notions used to state the properties *)

(** What one case contributes: its values cut at [max_len_trace], or
    followed by copies of its last value. *)
Definition case_sequence {A} (max_len_trace : nat) (seg : list A) : list A :=
  if bool_decide (max_len_trace <= length seg)%nat then take max_len_trace seg
  else match last seg with
       | Some x => seg ++ replicate (max_len_trace - length seg) x
       | None => seg
       end.

(** The runs of the flat list that the walk assigns to the cases. *)
Fixpoint segments {A} (lens : list nat) (remaining_time : list A) (j : nat)
    : list (list A) :=
  match lens with
  | [] => []
  | n :: lens' => take n (drop j remaining_time) :: segments lens' remaining_time (j + n)
  end.

(** Every index of the dictionary addresses a column. *)
Definition indices_in_range (dictionary_features : gmap string Z) : Prop :=
  forall rep idx, dictionary_features !! rep = Some idx ->
                  - Z.of_nat (size dictionary_features) <= idx
                  < Z.of_nat (size dictionary_features).

(** A computation that leaves the dict as it found it. *)
Definition preserves {A} (m : dict_comp A) : Prop := forall p, (m p).2 = p.

(** The seconds from a timestamp to the one of the last event, as the
    label extractor computes them. *)
Definition seconds_to_last `{Collaborators}
    (business_hours worktiming weekends : pyval) (t_last t : Z) : Q :=
  if truthy business_hours
  then BusinessHours_getseconds t t_last worktiming weekends
  else Qred ((t_last - t) # 1000000).

(** An entry of a presence / absence encoding. *)
Definition binary (v : Z) : Prop := v = 0 \/ v = 1.

(** * Properties *)

(** ** The error monad *)

Lemma mapM_ok_map {A B} (f : A -> result B) (g : A -> B) (l : list A) :
  Forall (fun x => f x = Ok (g x)) l -> mapM f l = Ok (map g l).
Proof.
  induction 1 as [|x l Hx _ IH]; simpl; [reflexivity|].
  rewrite Hx; simpl. rewrite IH; reflexivity.
Qed.

Lemma mapM_ok_length {A B} (f : A -> result B) (l : list A) (ys : list B) :
  mapM f l = Ok ys -> length ys = length l.
Proof.
  revert ys; induction l as [|x l IH]; simpl; intros ys Hm.
  - injection Hm as <-; reflexivity.
  - destruct (f x) as [y|e]; simpl in Hm; [|discriminate].
    destruct (mapM f l) as [ys'|e]; simpl in Hm; [|discriminate].
    injection Hm as <-; simpl. f_equal. apply IH; reflexivity.
Qed.

Lemma map_fixed {A} (f : A -> A) (l : list A) :
  Forall (fun x => f x = x) l -> map f l = l.
Proof. induction 1 as [|x l Hx _ IH]; simpl; congruence. Qed.

(** ** Normalisation and its inverse *)

Lemma math_log_pos (x : R) : (0 < x)%R -> PyMath.log x = Ok (ln x).
Proof.
  intros Hx. unfold PyMath.log. destruct (Rle_dec x 0); [lra|reflexivity].
Qed.

Lemma ln_pos_of_gt_1 (x : R) : (1 < x)%R -> (0 < ln x)%R.
Proof. intros Hx. rewrite <- ln_1. apply ln_increasing; lra. Qed.

Lemma ln_nonneg_of_ge_1 (x : R) : (1 <= x)%R -> (0 <= ln x)%R.
Proof.
  intros [Hx|<-]; [left; apply ln_pos_of_gt_1; exact Hx|rewrite ln_1; lra].
Qed.

Lemma normalize_value_ok (max_v v : R) :
  (0 < max_v)%R -> (0 <= v)%R ->
  normalize_value (ln (1 + max_v)) v
  = Ok (-1 + 2 * (ln (1 + v) / ln (1 + max_v)))%R.
Proof.
  intros Hmax Hv. unfold normalize_value.
  rewrite math_log_pos by lra; simpl.
  unfold PyMath.div.
  pose proof (ln_pos_of_gt_1 (1 + max_v) ltac:(lra)) as Hl.
  destruct (Req_dec_T (ln (1 + max_v)) 0) as [E|_]; [lra|]; simpl.
  do 2 f_equal; try lra.
  replace (v + 1.0)%R with (1 + v)%R by lra. lra.
Qed.

Lemma reconstruct_normalized (max_v v : R) :
  (0 < max_v)%R -> (0 <= v)%R ->
  reconstruct_value (-1 + 2 * (ln (1 + v) / ln (1 + max_v))) (ln (1 + max_v)) = v.
Proof.
  intros Hmax Hv. unfold reconstruct_value.
  pose proof (ln_pos_of_gt_1 (1 + max_v) ltac:(lra)) as Hl.
  pose proof (ln_nonneg_of_ge_1 (1 + v) ltac:(lra)) as Hn.
  assert (0 <= ln (1 + v) / ln (1 + max_v))%R as Hq.
  { apply Rmult_le_pos; [exact Hn|]. left. apply Rinv_0_lt_compat; exact Hl. }
  destruct (Rlt_dec _ _) as [Hlt|_]; [lra|].
  set (q := (ln (1 + v) / ln (1 + max_v))%R) in *.
  replace ((-1 + 2 * q + 1.0) / 2.0)%R with q by lra.
  replace (q * ln (1 + max_v))%R with (ln (1 + v)) by (unfold q; field; lra).
  rewrite exp_ln by lra. lra.
Qed.

Lemma normalize_remaining_time_ok (g : list (list R)) (max_v : R) :
  global_max g = Ok max_v -> (0 < max_v)%R ->
  Forall (Forall (fun v => 0 <= v)%R) g ->
  normalize_remaining_time g
  = Ok (map (map (fun v => -1 + 2 * (ln (1 + v) / ln (1 + max_v)))%R) g,
        ln (1 + max_v)).
Proof.
  intros Hg Hmax Hpos. unfold normalize_remaining_time. rewrite Hg; simpl.
  replace (1.0 + max_v)%R with (1 + max_v)%R by lra.
  rewrite math_log_pos by lra; simpl.
  erewrite mapM_ok_map; [reflexivity|].
  eapply Forall_impl; [exact Hpos|]. intros lst Hlst; simpl in Hlst.
  apply mapM_ok_map. eapply Forall_impl; [exact Hlst|].
  intros v Hv; simpl in Hv. apply normalize_value_ok; assumption.
Qed.

(** C1. Denormalisation inverts normalisation, exactly over the reals:
    for a maximum raw value [max_v > 0], with [log_max_value = ln (1 + max_v)],
    every [v] in [0, max_v] is normalised to
    [-1 + 2 * ln (1 + v) / ln (1 + max_v)] and [reconstruct_value] maps that
    back to [v]; and on every grouped list of non-negative values whose
    global maximum is [max_v], [normalize_remaining_time] returns the
    normalised list together with that [log_max_value], and reconstructing
    every entry of the normalised list gives the list back. *)
Theorem normalize_reconstruct_roundtrip (max_v : R) :
  (0 < max_v)%R ->
  let log_max_value := ln (1 + max_v) in
  (forall v, (0 <= v <= max_v)%R ->
     normalize_value log_max_value v
       = Ok (-1 + 2 * (ln (1 + v) / log_max_value))%R /\
     reconstruct_value (-1 + 2 * (ln (1 + v) / log_max_value)) log_max_value = v) /\
  (forall g, global_max g = Ok max_v ->
     Forall (Forall (fun v => 0 <= v)%R) g ->
     exists ret,
       normalize_remaining_time g = Ok (ret, log_max_value) /\
       map (map (fun y => reconstruct_value y log_max_value)) ret = g).
Proof.
  intros Hmax log_max_value; subst log_max_value. split.
  - intros v [Hv _]. split.
    + apply normalize_value_ok; assumption.
    + apply reconstruct_normalized; assumption.
  - intros g Hg Hpos.
    exists (map (map (fun v => -1 + 2 * (ln (1 + v) / ln (1 + max_v)))%R) g).
    split.
    + apply normalize_remaining_time_ok; assumption.
    + rewrite map_map. apply map_fixed. eapply Forall_impl; [exact Hpos|].
      intros lst Hlst; simpl in Hlst.
      rewrite map_map. apply map_fixed. eapply Forall_impl; [exact Hlst|].
      intros v Hv; simpl in Hv. apply reconstruct_normalized; assumption.
Qed.

(** Evaluates the [Rmax] of numerals, innermost first. *)
Ltac eval_Rmax :=
  repeat match goal with
         | |- context [Rmax ?a ?b] =>
             first [rewrite (Rmax_left a b) by lra | rewrite (Rmax_right a b) by lra]
         end;
  try reflexivity.

Lemma normalize_reconstruct_roundtrip_witness :
  reconstruct_value (-1 + 2 * (ln (1 + 7) / ln (1 + 100))) (ln (1 + 100)) = 7%R /\
  exists ret,
    normalize_remaining_time [[7; 100]; [0; 3]]%R = Ok (ret, ln (1 + 100)) /\
    map (map (fun y => reconstruct_value y (ln (1 + 100)))) ret = [[7; 100]; [0; 3]]%R.
Proof.
  destruct (normalize_reconstruct_roundtrip 100 ltac:(lra)) as [Hv Hg]. split.
  - apply (Hv 7%R). lra.
  - apply Hg.
    + unfold global_max, initial_max_value; simpl. f_equal. eval_Rmax.
    + repeat constructor; lra.
Defined.

Lemma global_max_zero_case (g : list (list R)) :
  global_max g = Ok 0%R ->
  PyMath.log (1.0 + 0)%R = Ok 0%R /\
  exists e, normalize_remaining_time g = Err e /\
            (Forall (Forall (fun v => -1 < v)%R) g -> e = ZeroDivisionError).
Proof.
  intros Hg.
  assert (PyMath.log (1.0 + 0)%R = Ok 0%R) as Hlog.
  { rewrite math_log_pos by lra. f_equal.
    replace (1.0 + 0)%R with 1%R by lra. apply ln_1. }
  split; [exact Hlog|].
  unfold normalize_remaining_time. rewrite Hg; simpl. rewrite Hlog; simpl.
  destruct g as [|lst g].
  { unfold global_max, initial_max_value in Hg; simpl in Hg.
    injection Hg as Hg. lra. }
  destruct lst as [|x lst].
  { unfold global_max in Hg; simpl in Hg. discriminate. }
  simpl. unfold normalize_value at 1, PyMath.log.
  destruct (Rle_dec (x + 1.0) 0) as [Hle|Hgt]; simpl.
  - exists ValueError. split; [reflexivity|].
    intros Hall. inversion Hall as [|? ? Hlst _]; subst.
    inversion Hlst as [|? ? Hx _]; subst. lra.
  - unfold PyMath.div. destruct (Req_dec_T 0 0) as [_|Hne]; [|lra]. simpl.
    exists ZeroDivisionError. split; reflexivity.
Qed.

Lemma max_list_zeros (lst : list R) (x : R) :
  Forall (fun v => v = 0%R) lst -> PyMath.max_list lst = Ok x -> x = 0%R.
Proof.
  intros Hz. destruct Hz as [|v lst -> Hz]; simpl; [discriminate|].
  intros [= <-]. induction Hz as [|w lst -> _ IH]; simpl; [reflexivity|].
  rewrite (Rmax_left 0 0) by apply Rle_refl. exact IH.
Qed.

(** On values that are all 0 the first loop ends with 0 as soon as it has
    seen one list. *)
Lemma global_max_loop_zeros (g : list (list R)) (m0 m : R) :
  (m0 <= 0)%R -> Forall (Forall (fun v => v = 0%R)) g ->
  foldM (fun max_value lst =>
           max_lst <- PyMath.max_list lst ;; Ok (Rmax max_value max_lst)) m0 g = Ok m ->
  (g = [] /\ m = m0) \/ m = 0%R.
Proof.
  intros Hm0 Hz. revert m0 Hm0. induction Hz as [|lst g Hlst _ IH]; intros m0 Hm0.
  - simpl. intros [= <-]. left. auto.
  - simpl. destruct (PyMath.max_list lst) as [x|?] eqn:Hx; simpl; [|discriminate].
    apply (max_list_zeros _ _ Hlst) in Hx as ->.
    rewrite (Rmax_right m0 0) by exact Hm0.
    intros Hf. right. destruct (IH 0%R ltac:(lra) Hf) as [[_ ->]| ->]; reflexivity.
Qed.

(** C9. [normalize_remaining_time] needs a strictly positive raw value.
    When the global maximum of the grouped values is 0, [log_max_value] is
    [log(1 + 0) = 0] and the call raises instead of returning a normalised
    list; for values above -1 (a remaining time is) the exception is the
    division by zero. And on raw remaining times, which are not negative,
    the call raises whenever no value is strictly positive. *)
Theorem normalize_zero_max_raises (g : list (list R)) :
  (global_max g = Ok 0%R ->
   PyMath.log (1.0 + 0)%R = Ok 0%R /\
   exists e, normalize_remaining_time g = Err e /\
             (Forall (Forall (fun v => -1 < v)%R) g -> e = ZeroDivisionError)) /\
  (Forall (Forall (fun v => 0 <= v)%R) g ->
   ~ Exists (Exists (fun v => 0 < v)%R) g ->
   exists e, normalize_remaining_time g = Err e).
Proof.
  split; [apply global_max_zero_case|].
  intros Hpos Hnone.
  assert (Forall (Forall (fun v => v = 0%R)) g) as Hz.
  { apply Forall_forall. intros lst Hlst. apply Forall_forall. intros v Hv.
    assert (0 <= v)%R as Hge.
    { eapply Forall_forall in Hpos; [|exact Hlst].
      eapply Forall_forall in Hpos; [exact Hpos|exact Hv]. }
    destruct (Rle_lt_or_eq_dec _ _ Hge) as [Hlt|Heq]; [|congruence].
    exfalso. apply Hnone. apply Exists_exists. exists lst. split; [exact Hlst|].
    apply Exists_exists. exists v. split; [exact Hv|exact Hlt]. }
  destruct (global_max g) as [m|e] eqn:Hg.
  - unfold global_max in Hg.
    destruct (global_max_loop_zeros g initial_max_value m
                ltac:(unfold initial_max_value; lra) Hz Hg)
      as [[-> ->]| ->].
    + exists ValueError. unfold normalize_remaining_time, global_max. simpl.
      unfold PyMath.log, initial_max_value.
      destruct (Rle_dec _ _) as [_|Hn]; [reflexivity|lra].
    + destruct (global_max_zero_case g Hg) as (_ & e & He & _). eauto.
  - exists e. unfold normalize_remaining_time. rewrite Hg. reflexivity.
Qed.

Lemma normalize_zero_max_raises_witness :
  PyMath.log (1.0 + 0)%R = Ok 0%R /\
  exists e, normalize_remaining_time [[0; 0]; [0; 0]]%R = Err e /\
            (Forall (Forall (fun v => -1 < v)%R) [[0; 0]; [0; 0]]%R ->
             e = ZeroDivisionError).
Proof.
  apply (proj1 (normalize_zero_max_raises [[0; 0]; [0; 0]]%R)).
  unfold global_max, initial_max_value; simpl. f_equal. eval_Rmax.
Defined.

(** ** Python indexing *)

Lemma py_getitem_nat {A} (l : list A) (i : nat) (x : A) :
  l !! i = Some x -> py_getitem l (Z.of_nat i) = Ok x.
Proof.
  intros Hi. pose proof (lookup_lt_Some _ _ _ Hi) as Hlt.
  unfold py_getitem, py_index.
  destruct (Z.leb_spec 0 (Z.of_nat i)); [|lia].
  destruct (Z.ltb_spec (Z.of_nat i) (Z.of_nat (length l))); [|lia].
  simpl. rewrite Nat2Z.id, Hi. reflexivity.
Qed.

Lemma py_getitem_last {A} (l : list A) (x : A) :
  py_getitem (l ++ [x]) (-1) = Ok x.
Proof.
  unfold py_getitem, py_index. rewrite length_app; simpl.
  destruct (Z.leb_spec 0 (-1)); [lia|]. simpl.
  destruct (Z.leb_spec (- Z.of_nat (length l + 1)) (-1)); [|lia].
  destruct (Z.ltb_spec (-1) 0); [|lia]. simpl.
  replace (Z.to_nat (Z.of_nat (length l + 1) + -1)) with (length l) by lia.
  rewrite lookup_app_r by lia. rewrite Nat.sub_diag. reflexivity.
Qed.

Lemma py_getitem_empty {A} (i : Z) : py_getitem (@nil A) i = Err IndexError.
Proof.
  unfold py_getitem, py_index.
  change (Z.of_nat (length (@nil A))) with 0. change (- 0) with 0.
  destruct (0 <=? i), (i <? 0); reflexivity.
Qed.

Lemma pad_loop_last {A} (n : nat) (row : list A) (x : A) :
  pad_loop n (row ++ [x]) = Ok ((row ++ [x]) ++ replicate n x).
Proof.
  revert row; induction n as [|n IH]; intros row; simpl.
  - rewrite app_nil_r. reflexivity.
  - rewrite py_getitem_last; simpl. rewrite IH.
    rewrite <- (app_assoc _ [x] (replicate n x)). reflexivity.
Qed.

(** ** Grouping *)

Lemma case_sequence_length {A} (L : nat) (seg : list A) :
  seg <> [] -> length (case_sequence L seg) = L.
Proof.
  intros Hne. unfold case_sequence. case_bool_decide as Hle.
  - rewrite length_take. lia.
  - destruct seg as [|a seg _] using rev_ind; [congruence|].
    rewrite last_snoc, length_app, length_replicate, length_app in *. simpl in *. lia.
Qed.

Lemma case_sequence_real {A} (L : nat) (seg : list A) (i : nat) :
  (i < length seg)%nat -> (i < L)%nat -> case_sequence L seg !! i = seg !! i.
Proof.
  intros Hi HL. unfold case_sequence. case_bool_decide as Hle.
  - apply lookup_take_lt; exact HL.
  - destruct (last seg); [|reflexivity]. apply lookup_app_l; exact Hi.
Qed.

Lemma case_sequence_padding {A} (L : nat) (seg : list A) (i : nat) :
  (length seg <= i)%nat -> (i < L)%nat -> seg <> [] ->
  case_sequence L seg !! i = seg !! (length seg - 1)%nat.
Proof.
  intros Hi HL Hne. unfold case_sequence. case_bool_decide as Hle; [lia|].
  destruct seg as [|a seg _] using rev_ind; [congruence|].
  rewrite last_snoc. rewrite lookup_app_r by exact Hi.
  rewrite length_app in *; simpl in *.
  rewrite lookup_replicate_2 by lia.
  rewrite lookup_app_r by lia.
  replace (length seg + 1 - 1 - length seg)%nat with 0%nat by lia. reflexivity.
Qed.

Lemma Ok_pair {A B} (a a' : A) (b b' : B) :
  a = a' -> b = b' -> @Ok (A * B) (a, b) = Ok (a', b').
Proof. intros -> ->; reflexivity. Qed.

Section GroupingProofs.
Context {A : Type}.
Implicit Types (remaining_time rem : list A) (acc : list (list A)).

Lemma group_case_loop_spec remaining_time (L len_ct : nat) :
  (1 <= L)%nat ->
  forall n i rem added acc j,
    (i + n = len_ct)%nat -> length rem = i ->
    added = bool_decide (L <= i)%nat ->
    (j + n <= length remaining_time)%nat ->
    group_case_loop remaining_time L len_ct n i rem added acc j
    = Ok (acc ++ (if bool_decide (L <= i)%nat then []
                  else match n with
                       | O => []
                       | S _ => [case_sequence L (rem ++ take n (drop j remaining_time))]
                       end),
          (j + n)%nat).
Proof.
  intros HL. induction n as [|n IH]; intros i rem added acc j Hlen Hrem Hadded Hj.
  - simpl. rewrite Nat.add_0_r. case_bool_decide; rewrite app_nil_r; reflexivity.
  - destruct (lookup_lt_is_Some_2 remaining_time j ltac:(lia)) as [x Hx].
    assert (take (S n) (drop j remaining_time)
            = x :: take n (drop (S j) remaining_time)) as Htake.
    { rewrite (drop_S _ _ _ Hx). reflexivity. }
    cbn [group_case_loop]. rewrite (py_getitem_nat _ _ _ Hx). cbn [rbind].
    destruct (Z.eqb_spec (Z.of_nat i) (Z.of_nat L - 1)) as [HiL|HiL].
    + rewrite (IH (S i) (rem ++ [x]) true) ; try lia.
      2:{ rewrite length_app; simpl; lia. }
      2:{ symmetry. apply bool_decide_eq_true. lia. }
      rewrite (bool_decide_eq_true_2 (L <= S i)%nat) by lia.
      rewrite (bool_decide_eq_false_2 (L <= i)%nat) by lia.
      rewrite app_nil_r. apply Ok_pair; [|lia]. do 2 f_equal.
      rewrite Htake. unfold case_sequence.
      rewrite (bool_decide_eq_true_2
                 (L <= length (rem ++ x :: take n (drop (S j) remaining_time)))%nat).
      2:{ rewrite length_app; simpl. rewrite length_take, length_drop. lia. }
      replace (rem ++ x :: take n (drop (S j) remaining_time))
        with ((rem ++ [x]) ++ take n (drop (S j) remaining_time))
        by (rewrite <- app_assoc; reflexivity).
      rewrite take_app_length' by (rewrite length_app; simpl; lia). reflexivity.
    + destruct (Z.eqb_spec (Z.of_nat i) (Z.of_nat len_ct - 1)) as [Hlast|Hlast];
        destruct added eqn:Eadded; cbn [andb negb].
      * (* last index, already appended *)
        symmetry in Hadded. apply bool_decide_eq_true in Hadded.
        rewrite (IH (S i) (rem ++ [x]) true); try lia.
        2:{ rewrite length_app; simpl; lia. }
        2:{ symmetry. apply bool_decide_eq_true. lia. }
        rewrite (bool_decide_eq_true_2 (L <= S i)%nat) by lia.
        rewrite (bool_decide_eq_true_2 (L <= i)%nat) by lia.
        apply Ok_pair; [reflexivity|lia].
      * (* last index of a short case: padding *)
        symmetry in Hadded. apply bool_decide_eq_false in Hadded.
        assert (n = 0)%nat as -> by lia.
        unfold pad_with_last. rewrite pad_loop_last. cbn [rbind group_case_loop].
        rewrite (bool_decide_eq_false_2 (L <= i)%nat) by lia.
        apply Ok_pair; [|lia]. do 2 f_equal.
        rewrite Htake. rewrite take_0. unfold case_sequence.
        rewrite (bool_decide_eq_false_2 (L <= length (rem ++ [x]))%nat)
          by (rewrite length_app; simpl; lia).
        rewrite last_snoc. reflexivity.
      * symmetry in Hadded. apply bool_decide_eq_true in Hadded.
        rewrite (IH (S i) (rem ++ [x]) true); try lia.
        2:{ rewrite length_app; simpl; lia. }
        2:{ symmetry. apply bool_decide_eq_true. lia. }
        rewrite (bool_decide_eq_true_2 (L <= S i)%nat) by lia.
        rewrite (bool_decide_eq_true_2 (L <= i)%nat) by lia.
        apply Ok_pair; [reflexivity|lia].
      * symmetry in Hadded. apply bool_decide_eq_false in Hadded.
        rewrite (IH (S i) (rem ++ [x]) false); try lia.
        2:{ rewrite length_app; simpl; lia. }
        2:{ symmetry. apply bool_decide_eq_false. lia. }
        rewrite (bool_decide_eq_false_2 (L <= S i)%nat) by lia.
        rewrite (bool_decide_eq_false_2 (L <= i)%nat) by lia.
        destruct n as [|n]; [lia|].
        apply Ok_pair; [|lia]. do 3 f_equal.
        rewrite Htake. rewrite <- app_assoc. reflexivity.
Qed.

End GroupingProofs.

Lemma sum_list_take_lengths {B} (k : nat) (l : list (list B)) :
  sum_list (take k (map length l)) = sum_list_with length (take k l).
Proof.
  revert k; induction l as [|x l IH]; intros [|k]; simpl; auto.
Qed.

Section GroupingTheorem.
Context {A : Type}.
Implicit Types (remaining_time : list A) (change_indexes : list (list nat)).

Lemma group_fold_spec remaining_time (L : nat) :
  (1 <= L)%nat ->
  forall change_indexes (acc : list (list A)) (j : nat),
    Forall (fun ct => ct <> []) change_indexes ->
    (j + sum_list_with length change_indexes <= length remaining_time)%nat ->
    foldM (fun '(rem_time_grouped, j) ct =>
             group_case_loop remaining_time L (length ct) (length ct) 0 [] false
               rem_time_grouped j)
          (acc, j) change_indexes
    = Ok (acc ++ map (case_sequence L)
                   (segments (map length change_indexes) remaining_time j),
          (j + sum_list_with length change_indexes)%nat).
Proof.
  intros HL. induction change_indexes as [|ct cis IH]; intros acc j Hne Hcover.
  - simpl. rewrite app_nil_r, Nat.add_0_r. reflexivity.
  - inversion Hne as [|? ? Hct Hcis]; subst. cbn [sum_list_with] in Hcover.
    cbn [foldM].
    rewrite (group_case_loop_spec remaining_time L (length ct) HL
               (length ct) 0 [] false acc j); try lia; try reflexivity.
    2:{ symmetry. apply bool_decide_eq_false. lia. }
    rewrite (bool_decide_eq_false_2 (L <= 0)%nat) by lia.
    destruct ct as [|c ct]; [congruence|]. cbn [rbind].
    rewrite IH; [|assumption|lia].
    apply Ok_pair; [|cbn [sum_list_with]; lia].
    rewrite <- app_assoc. reflexivity.
Qed.

Lemma segments_lookup (lens : list nat) remaining_time (j k : nat) (seg : list A) :
  segments lens remaining_time j !! k = Some seg ->
  exists n, lens !! k = Some n /\
            seg = take n (drop (j + sum_list (take k lens)) remaining_time).
Proof.
  revert j k; induction lens as [|n lens IH]; intros j k Hk; [discriminate|].
  destruct k as [|k]; simpl in Hk.
  - injection Hk as <-. exists n. simpl. rewrite Nat.add_0_r. auto.
  - apply IH in Hk as (m & Hm & ->). exists m. split; [exact Hm|].
    simpl. do 2 f_equal. lia.
Qed.

(** C7. For change indexes whose groups are all non-empty, a flat list
    that covers them and [max_len_trace >= 1], [group_remaining_time]
    returns one sequence per case, each of length exactly
    [max_len_trace]; the sequence of case [k] starts with that case's own
    values of the flat list, in order, and when the case is shorter than
    [max_len_trace] every padding entry is the case's own last value. *)
Theorem group_remaining_time_padding change_indexes remaining_time
    (max_len_trace : nat) :
  (1 <= max_len_trace)%nat ->
  Forall (fun ct => ct <> []) change_indexes ->
  (sum_list_with length change_indexes <= length remaining_time)%nat ->
  exists groups,
    group_remaining_time change_indexes remaining_time max_len_trace = Ok groups /\
    length groups = length change_indexes /\
    Forall (fun s => length s = max_len_trace) groups /\
    forall k ct s,
      change_indexes !! k = Some ct -> groups !! k = Some s ->
      let start := sum_list_with length (take k change_indexes) in
      (forall i, (i < length ct)%nat -> (i < max_len_trace)%nat ->
                 s !! i = remaining_time !! (start + i)%nat) /\
      (forall i, (length ct <= i)%nat -> (i < max_len_trace)%nat ->
                 s !! i = remaining_time !! (start + length ct - 1)%nat /\
                 s !! i = s !! (length ct - 1)%nat).
Proof.
  intros HL Hne Hcover.
  exists (map (case_sequence max_len_trace)
            (segments (map length change_indexes) remaining_time 0)).
  assert (forall k seg,
             segments (map length change_indexes) remaining_time 0 !! k = Some seg ->
             exists ct, change_indexes !! k = Some ct /\
                        seg = take (length ct)
                                (drop (sum_list_with length (take k change_indexes))
                                   remaining_time) /\
                        length seg = length ct /\ seg <> []) as Hseg.
  { intros k seg Hk. apply segments_lookup in Hk as (n & Hn & ->).
    rewrite list_lookup_fmap in Hn.
    destruct (change_indexes !! k) as [ct|] eqn:Hct; [|discriminate].
    injection Hn as <-. exists ct. split; [reflexivity|].
    rewrite sum_list_take_lengths, Nat.add_0_l.
    assert (ct <> []) as Hct' by (eapply Forall_lookup_1 in Hne; eauto).
    assert (sum_list_with length (take k change_indexes) + length ct
            <= sum_list_with length change_indexes)%nat as Hle.
    { pose proof (take_drop_middle _ _ _ Hct) as Hsplit.
      apply (f_equal (sum_list_with length)) in Hsplit.
      rewrite sum_list_with_app in Hsplit. cbn [sum_list_with] in Hsplit. lia. }
    assert (length (take (length ct)
                      (drop (sum_list_with length (take k change_indexes))
                         remaining_time)) = length ct) as Hlen.
    { rewrite length_take, length_drop. lia. }
    split; [reflexivity|]. split; [exact Hlen|].
    intros E. rewrite E in Hlen. destruct ct; [congruence|discriminate]. }
  split; [|split; [|split]].
  - unfold group_remaining_time.
    rewrite (group_fold_spec remaining_time max_len_trace HL change_indexes [] 0 Hne)
      by (simpl; lia).
    reflexivity.
  - rewrite length_map.
    clear. generalize 0%nat. induction change_indexes; intros; simpl; auto.
  - apply Forall_forall. intros s Hs. apply list_elem_of_fmap in Hs as (seg & -> & Hin).
    apply list_elem_of_lookup in Hin as [k Hk].
    apply Hseg in Hk as (ct & _ & _ & _ & Hnon).
    apply case_sequence_length; assumption.
  - intros k ct s Hct Hs start.
    rewrite list_lookup_fmap in Hs.
    destruct (segments _ _ _ !! k) as [seg|] eqn:Hk; [|discriminate].
    injection Hs as <-.
    apply Hseg in Hk as (ct' & Hct' & Hdef & Hlen & Hnon).
    rewrite Hct in Hct'. injection Hct' as <-.
    assert (forall i, (i < length ct)%nat ->
                      seg !! i = remaining_time !! (start + i)%nat) as Hreal.
    { intros i Hi. rewrite Hdef. rewrite lookup_take_lt by exact Hi.
      apply lookup_drop. }
    split.
    + intros i Hi HiL. rewrite case_sequence_real by lia. apply Hreal; exact Hi.
    + intros i Hi HiL.
      assert (length ct <> 0)%nat as Hpos
          by (rewrite <- Hlen; destruct seg; [congruence|discriminate]).
      rewrite case_sequence_padding by (try assumption; lia).
      rewrite (case_sequence_real max_len_trace seg (length ct - 1)) by lia.
      rewrite Hlen. split; [|reflexivity].
      rewrite Hreal by lia. f_equal. lia.
Qed.

End GroupingTheorem.

Lemma group_remaining_time_padding_witness :
  exists groups,
    group_remaining_time [[0; 1; 2]; [3]; [4; 5]]%nat [10; 11; 12; 13; 14; 15] 3
    = Ok groups /\
    length groups = 3%nat /\
    Forall (fun s => length s = 3%nat) groups /\
    groups !! 1%nat = Some [13; 13; 13].
Proof.
  destruct (group_remaining_time_padding
              [[0; 1; 2]; [3]; [4; 5]]%nat [10; 11; 12; 13; 14; 15] 3)
    as (groups & Hrun & Hlen & Hall & _).
  - lia.
  - repeat constructor; discriminate.
  - simpl; lia.
  - exists groups. repeat split; try assumption.
    vm_compute in Hrun. injection Hrun as <-. reflexivity.
Defined.

(** ** Label extractor *)

Lemma py_getitem_minus_1 {A} (l : list A) (x : A) :
  last l = Some x -> py_getitem l (-1) = Ok x.
Proof.
  intros Hl. destruct l as [|a l _] using rev_ind; [discriminate|].
  rewrite last_snoc in Hl. injection Hl as ->. apply py_getitem_last.
Qed.

Lemma Forall2_last_r {A B} (P : A -> B -> Prop) (l : list A) (k : list B) (y : B) :
  Forall2 P l k -> last k = Some y -> exists x, last l = Some x /\ P x y.
Proof.
  induction 1 as [|a b l k Hab Hrest IH]; intros Hl; [discriminate|].
  destruct Hrest as [|a2 b2 l2 k2 Hab2 Hrest].
  - simpl in Hl. injection Hl as <-. exists a. split; [reflexivity|exact Hab].
  - destruct (IH Hl) as (x & Hx & HP). exists x. split; [exact Hx|exact HP].
Qed.

Section LabelExtractorProofs.
Context `{Collaborators}.
Variables (key : string) (business_hours worktiming weekends : pyval).
Variables (tr : trace) (ts : list Z) (t_last : Z).
Hypothesis Hts : Forall2 (fun ev t => ev !! key = Some (PTime t)) tr ts.
Hypothesis Hlast : last ts = Some t_last.

Local Abbreviation seconds_to_last :=
  (seconds_to_last business_hours worktiming weekends t_last).

Lemma last_event_timestamp :
  exists last_ev, last tr = Some last_ev /\ last_ev !! key = Some (PTime t_last).
Proof using Hts Hlast. exact (Forall2_last_r _ _ _ _ Hts Hlast). Qed.

Lemma remaining_time_at_ok (i : nat) (t : Z) :
  ts !! i = Some t ->
  remaining_time_at (PStr key) business_hours worktiming weekends tr i
  = Ok (seconds_to_last t).
Proof using Hts Hlast.
  intros Hi.
  destruct (Forall2_lookup_r _ _ _ _ _ Hts Hi) as (ev & Hev & Hkey).
  destruct last_event_timestamp as (last_ev & Hl & Hlkey).
  unfold remaining_time_at, seconds_to_last.
  rewrite (py_getitem_nat _ _ _ Hev); cbn [rbind event_getitem].
  rewrite Hkey; cbn [rbind].
  rewrite (py_getitem_minus_1 _ _ Hl); cbn [rbind event_getitem].
  rewrite Hlkey; cbn [rbind].
  destruct (truthy business_hours); reflexivity.
Qed.

Lemma remaining_time_loop_spec (L : nat) :
  forall (rest : trace) (index : nat) (row : list Q),
    (index + length rest <= length ts)%nat ->
    remaining_time_loop (PStr key) business_hours worktiming weekends
      tr L index rest row
    = Ok (row ++ map seconds_to_last
                   (take (Nat.min (length rest) (L - index)) (drop index ts))).
Proof using Hts Hlast.
  induction rest as [|ev rest IH]; intros index row Hlen.
  - simpl. rewrite app_nil_r. reflexivity.
  - cbn [remaining_time_loop]. simpl in Hlen.
    destruct (Z.leb_spec (Z.of_nat L) (Z.of_nat index)) as [Hge|Hlt].
    + replace (L - index)%nat with 0%nat by lia.
      rewrite Nat.min_0_r. simpl. rewrite app_nil_r. reflexivity.
    + destruct (lookup_lt_is_Some_2 ts index ltac:(lia)) as [t Ht].
      rewrite (remaining_time_at_ok _ _ Ht); cbn [rbind].
      rewrite IH by lia. f_equal.
      rewrite (drop_S _ _ _ Ht).
      replace (Nat.min (length (ev :: rest)) (L - index))
        with (S (Nat.min (length rest) (L - S index))) by (cbn [length]; lia).
      simpl. rewrite <- app_assoc. reflexivity.
Qed.

(** The row of one trace in closed form. *)
Lemma remaining_time_row (parameters : params) (L : nat) :
  param_or parameters PARAMETER_CONSTANT_TIMESTAMP_KEY (PStr DEFAULT_TIMESTAMP_KEY)
    = PStr key ->
  param_or parameters "business_hours" (PBool false) = business_hours ->
  param_or parameters "worktiming" (PList [PInt 7; PInt 17]) = worktiming ->
  param_or parameters "weekends" (PList [PInt 6; PInt 7]) = weekends ->
  remaining_time_of_trace parameters L tr
  = Ok (map seconds_to_last (take L ts)
        ++ replicate (L - length ts) (seconds_to_last t_last)).
Proof using Hts Hlast.
  intros Hk Hb Hw Hd. unfold remaining_time_of_trace. rewrite Hk, Hb, Hw, Hd.
  pose proof (Forall2_length _ _ _ Hts) as Hlen.
  rewrite remaining_time_loop_spec by lia.
  cbn [rbind app]. rewrite Nat.sub_0_r, drop_0, Hlen.
  unfold pad_with_last.
  rewrite length_map, length_take.
  destruct (decide (L <= length ts)%nat) as [Hle|Hgt].
  - replace (Nat.min (length ts) L) with L by lia.
    replace (L - Nat.min L (length ts))%nat with 0%nat by lia.
    replace (L - length ts)%nat with 0%nat by lia.
    simpl. rewrite app_nil_r. reflexivity.
  - replace (Nat.min (length ts) L) with (length ts) by lia.
    rewrite Nat.min_id.
    rewrite !take_ge by lia.
    destruct ts as [|t0 ts0 _] using rev_ind; [discriminate|].
    rewrite last_snoc in Hlast. injection Hlast as ->.
    rewrite map_app. simpl. rewrite pad_loop_last. reflexivity.
Qed.

End LabelExtractorProofs.

(** What [mapM] returns, position by position. *)
Lemma mapM_Forall2_lookup {A B C} (f : A -> result B) (P : A -> C -> B -> Prop)
    (l : list A) (vs : list C) :
  Forall2 (fun x v => exists y, f x = Ok y /\ P x v y) l vs ->
  exists ys,
    mapM f l = Ok ys /\ length ys = length l /\
    forall k x v, l !! k = Some x -> vs !! k = Some v ->
                  exists y, ys !! k = Some y /\ P x v y.
Proof.
  induction 1 as [|x v l vs (y & Hy & HP) _ (ys & Hrun & Hlen & Hys)].
  - exists []. split; [reflexivity|]. split; [reflexivity|].
    intros k x v Hk. discriminate.
  - exists (y :: ys). split; [simpl; rewrite Hy; simpl; rewrite Hrun; reflexivity|].
    split; [simpl; rewrite Hlen; reflexivity|].
    intros [|k] x' v' Hx Hv; simpl in Hx, Hv.
    + injection Hx as <-. injection Hv as <-. exists y. split; [reflexivity|exact HP].
    + exact (Hys k x' v' Hx Hv).
Qed.

(** The list of one trace, entry by entry. *)
Lemma remaining_time_of_trace_labels `{Collaborators} (p : params) (key : string)
    (tr : trace) (ts : list Z) (max_len_trace : nat) :
  let business_hours := param_or p "business_hours" (PBool false) in
  let seconds :=
    seconds_to_last business_hours
      (param_or p "worktiming" (PList [PInt 7; PInt 17]))
      (param_or p "weekends" (PList [PInt 6; PInt 7])) in
  param_or p PARAMETER_CONSTANT_TIMESTAMP_KEY (PStr DEFAULT_TIMESTAMP_KEY) = PStr key ->
  tr <> [] ->
  Forall2 (fun ev t => ev !! key = Some (PTime t)) tr ts ->
  exists row,
    remaining_time_of_trace p max_len_trace tr = Ok row /\
    exists t_last,
      last ts = Some t_last /\
      length row = max_len_trace /\
      (forall i t, (i < max_len_trace)%nat -> ts !! i = Some t ->
                   row !! i = Some (seconds t_last t)) /\
      (forall i, (length tr <= i < max_len_trace)%nat ->
                 row !! i = Some (seconds t_last t_last) /\
                 row !! i = row !! (length tr - 1)%nat) /\
      (truthy business_hours = false ->
       (forall t, seconds t_last t = Qred ((t_last - t) # 1000000)) /\
       ((length tr <= max_len_trace)%nat ->
        row !! (length tr - 1)%nat = Some 0%Q)).
Proof.
  intros business_hours seconds Hkey Hnonempty Hts.
  pose proof (Forall2_length _ _ _ Hts) as Hlen.
  assert (length ts <> 0)%nat as Hne.
  { rewrite <- Hlen. destruct tr; [congruence|simpl; lia]. }
  destruct (last ts) as [t_last|] eqn:Hlast.
  2:{ apply last_None in Hlast. subst ts. simpl in Hne. lia. }
  assert (ts !! (length ts - 1)%nat = Some t_last) as Hlookup.
  { rewrite <- Hlast. symmetry. rewrite last_lookup. f_equal. lia. }
  eexists. split.
  { rewrite (remaining_time_row key business_hours _ _ tr ts t_last Hts Hlast p
               max_len_trace Hkey eq_refl eq_refl eq_refl).
    reflexivity. }
  exists t_last. split; [reflexivity|].
  fold (seconds t_last).
  assert (forall i t, (i < max_len_trace)%nat -> ts !! i = Some t ->
            (map (seconds t_last) (take max_len_trace ts)
             ++ replicate (max_len_trace - length ts) (seconds t_last t_last)) !! i
            = Some (seconds t_last t)) as Hreal.
  { intros i t Hi Ht. pose proof (lookup_lt_Some _ _ _ Ht).
    rewrite lookup_app_l by (rewrite length_map, length_take; lia).
    rewrite list_lookup_fmap, lookup_take_lt by exact Hi. rewrite Ht. reflexivity. }
  assert (forall i, (length tr <= i < max_len_trace)%nat ->
            (map (seconds t_last) (take max_len_trace ts)
             ++ replicate (max_len_trace - length ts) (seconds t_last t_last)) !! i
            = Some (seconds t_last t_last)) as Hpad.
  { intros i Hi.
    rewrite lookup_app_r by (rewrite length_map, length_take; lia).
    rewrite length_map, length_take. apply lookup_replicate_2. lia. }
  split; [|split; [|split]].
  - rewrite length_app, length_map, length_take, length_replicate. lia.
  - exact Hreal.
  - intros i Hi. split; [apply Hpad; exact Hi|].
    rewrite (Hpad i Hi). symmetry. apply Hreal; [lia|].
    rewrite Hlen. exact Hlookup.
  - intros Hwall. split.
    + intros t. unfold seconds, seconds_to_last. rewrite Hwall. reflexivity.
    + intros Hle. rewrite (Hreal (length tr - 1)%nat t_last); [|lia|].
      2:{ rewrite Hlen. exact Hlookup. }
      unfold seconds, seconds_to_last. rewrite Hwall.
      rewrite Z.sub_diag. reflexivity.
Qed.

(** C6, as the code has it. For every log of non-empty traces whose events
    carry a datetime under the timestamp key, [get_remaining_time_from_log]
    returns one list per trace, in the order of the log, and the list of
    each trace has length exactly [max_len_trace]; its entry [i], for
    [i < min(len(trace), max_len_trace)], is the seconds from event [i] of
    that trace to the trace's last event (wall-clock seconds, or what the
    business calendar says when [business_hours] is set); the entries from
    [len(trace)] on repeat that trace's own last computed value; and in
    wall-clock mode the last computed entry is 0 whenever the trace is not
    truncated, that is [len(trace) <= max_len_trace]. In particular the
    trace with timestamps 0s, 5s, 12s gives [12, 7, 0, 0, 0] for
    [max_len_trace = 5]. *)
Theorem remaining_time_labels `{Collaborators} (parameters : option params)
    (key : string) (lg : log) (tss : list (list Z)) (max_len_trace : nat) :
  let p := match parameters with None => ∅ | Some p => p end in
  let business_hours := param_or p "business_hours" (PBool false) in
  let seconds :=
    seconds_to_last business_hours
      (param_or p "worktiming" (PList [PInt 7; PInt 17]))
      (param_or p "weekends" (PList [PInt 6; PInt 7])) in
  param_or p PARAMETER_CONSTANT_TIMESTAMP_KEY (PStr DEFAULT_TIMESTAMP_KEY) = PStr key ->
  Forall2 (fun tr ts =>
             tr <> [] /\ Forall2 (fun ev t => ev !! key = Some (PTime t)) tr ts)
          lg tss ->
  (exists rows,
     get_remaining_time_from_log lg max_len_trace parameters = Ok rows /\
     length rows = length lg /\
     forall k tr ts, lg !! k = Some tr -> tss !! k = Some ts ->
       exists row t_last,
         rows !! k = Some row /\
         last ts = Some t_last /\
         length row = max_len_trace /\
         (forall i t, (i < max_len_trace)%nat -> ts !! i = Some t ->
                      row !! i = Some (seconds t_last t)) /\
         (forall i, (length tr <= i < max_len_trace)%nat ->
                    row !! i = Some (seconds t_last t_last) /\
                    row !! i = row !! (length tr - 1)%nat) /\
         (truthy business_hours = false ->
          (forall t, seconds t_last t = Qred ((t_last - t) # 1000000)) /\
          ((length tr <= max_len_trace)%nat ->
           row !! (length tr - 1)%nat = Some 0%Q))) /\
  get_remaining_time_from_log
    [[ {[DEFAULT_TIMESTAMP_KEY := PTime 0]};
       {[DEFAULT_TIMESTAMP_KEY := PTime 5000000]};
       {[DEFAULT_TIMESTAMP_KEY := PTime 12000000]} ]] 5 None
  = Ok [[12; 7; 0; 0; 0]]%Q.
Proof.
  intros p business_hours seconds Hkey Hlog. split.
  - unfold get_remaining_time_from_log. fold p.
    destruct (mapM_Forall2_lookup (remaining_time_of_trace p max_len_trace)
                (fun tr ts row =>
                   exists t_last,
                     last ts = Some t_last /\
                     length row = max_len_trace /\
                     (forall i t, (i < max_len_trace)%nat -> ts !! i = Some t ->
                                  row !! i = Some (seconds t_last t)) /\
                     (forall i, (length tr <= i < max_len_trace)%nat ->
                                row !! i = Some (seconds t_last t_last) /\
                                row !! i = row !! (length tr - 1)%nat) /\
                     (truthy business_hours = false ->
                      (forall t, seconds t_last t = Qred ((t_last - t) # 1000000)) /\
                      ((length tr <= max_len_trace)%nat ->
                       row !! (length tr - 1)%nat = Some 0%Q)))
                lg tss) as (rows & Hrun & Hlen & Hrows).
    { eapply Forall2_impl; [exact Hlog|].
      intros tr ts [Hnonempty Hts].
      exact (remaining_time_of_trace_labels p key tr ts max_len_trace
               Hkey Hnonempty Hts). }
    exists rows. split; [exact Hrun|]. split; [exact Hlen|].
    intros k tr ts Htr Hts.
    destruct (Hrows k tr ts Htr Hts) as (row & Hrow & t_last & Hspec).
    exists row, t_last. split; [exact Hrow|exact Hspec].
  - unfold get_remaining_time_from_log. cbn [mapM].
    rewrite (remaining_time_row DEFAULT_TIMESTAMP_KEY (PBool false)
               (PList [PInt 7; PInt 17]) (PList [PInt 6; PInt 7]) _
               [0; 5000000; 12000000] 12000000).
    + reflexivity.
    + repeat constructor; apply lookup_singleton_eq.
    + reflexivity.
    + unfold param_or. rewrite lookup_empty. reflexivity.
    + unfold param_or. rewrite lookup_empty. reflexivity.
    + unfold param_or. rewrite lookup_empty. reflexivity.
    + unfold param_or. rewrite lookup_empty. reflexivity.
Qed.

Lemma remaining_time_labels_witness :
  exists rows row_A row_5,
    @get_remaining_time_from_log Demo.collaborators [Demo.trace_A; Demo.trace_5] 5 None
    = Ok rows /\
    length rows = 2%nat /\
    rows !! 0%nat = Some row_A /\ rows !! 1%nat = Some row_5 /\
    length row_A = 5%nat /\
    row_A !! 0%nat = Some 12%Q /\ row_A !! 1%nat = Some 7%Q /\
    row_A !! 2%nat = Some 0%Q /\
    row_A !! 3%nat = row_A !! 2%nat /\ row_A !! 4%nat = row_A !! 2%nat /\
    length row_5 = 5%nat /\
    row_5 !! 0%nat = Some 4%Q /\ row_5 !! 4%nat = Some 0%Q.
Proof.
  destruct (@remaining_time_labels Demo.collaborators None "time:timestamp"
              [Demo.trace_A; Demo.trace_5]
              [[0; 5000000; 12000000]; [0; 1000000; 2000000; 3000000; 4000000]] 5)
    as [(rows & Hrun & Hlen & Hrows) _].
  - reflexivity.
  - repeat constructor; discriminate || reflexivity.
  - destruct (Hrows 0%nat _ _ eq_refl eq_refl)
      as (row_A & t_A & HA & HlastA & HlenA & HrealA & HpadA & _).
    destruct (Hrows 1%nat _ _ eq_refl eq_refl)
      as (row_5 & t_5 & H5 & Hlast5 & Hlen5 & Hreal5 & _).
    injection HlastA as <-. injection Hlast5 as <-.
    exists rows, row_A, row_5.
    split; [exact Hrun|]. split; [exact Hlen|]. split; [exact HA|]. split; [exact H5|].
    split; [exact HlenA|].
    split; [exact (HrealA 0%nat 0 ltac:(lia) eq_refl)|].
    split; [exact (HrealA 1%nat 5000000 ltac:(lia) eq_refl)|].
    split; [exact (HrealA 2%nat 12000000 ltac:(lia) eq_refl)|].
    split; [exact (proj2 (HpadA 3%nat ltac:(simpl; lia)))|].
    split; [exact (proj2 (HpadA 4%nat ltac:(simpl; lia)))|].
    split; [exact Hlen5|].
    split; [exact (Hreal5 0%nat 0 ltac:(lia) eq_refl)|].
    exact (Hreal5 4%nat 4000000 ltac:(lia) eq_refl).
Defined.

(** C6 as stated fails on a truncated trace: with [max_len_trace = 2] the
    trace at 0s, 5s, 12s gives [12, 7], whose last entry is computed, not
    padding, and is 7. *)
Lemma remaining_time_truncated_last_entry :
  Demo.trace_A <> [] /\
  exists row,
    @get_remaining_time_from_log Demo.collaborators [Demo.trace_A] 2 None = Ok [row] /\
    length row = 2%nat /\
    row !! (Nat.min (length Demo.trace_A) 2 - 1)%nat = Some 7%Q /\
    row !! (Nat.min (length Demo.trace_A) 2 - 1)%nat <> Some 0%Q.
Proof.
  split; [discriminate|]. exists [12; 7]%Q.
  split; [vm_compute; reflexivity|]. split; [reflexivity|].
  split; [reflexivity|]. simpl. discriminate.
Qed.

(** ** Sequence tensor builder *)

Lemma foldM_invariant {A S} (P : S -> Prop) (f : S -> A -> result S) (l : list A) :
  (forall s x s', P s -> f s x = Ok s' -> P s') ->
  forall s s', P s -> foldM f s l = Ok s' -> P s'.
Proof.
  intros Hstep. induction l as [|x l IH]; simpl; intros s s' Hs Hf.
  - injection Hf as <-. exact Hs.
  - destruct (f s x) as [s1|e] eqn:Hfx; simpl in Hf; [|discriminate].
    eapply IH; [|exact Hf]. eapply Hstep; eauto.
Qed.

Lemma foldM_total {A S} (P : S -> Prop) (f : S -> A -> result S) (l : list A) :
  (forall s x, P s -> exists s', f s x = Ok s' /\ P s') ->
  forall s, P s -> exists s', foldM f s l = Ok s' /\ P s'.
Proof.
  intros Hstep. induction l as [|x l IH]; simpl; intros s Hs.
  - eauto.
  - destruct (Hstep s x Hs) as (s1 & -> & Hs1). simpl. apply IH; exact Hs1.
Qed.

Lemma py_getitem_elem_of {A} (l : list A) (i : Z) (x : A) :
  py_getitem l i = Ok x -> x ∈ l.
Proof.
  unfold py_getitem. destruct (py_index l i) as [k|e]; simpl; [|discriminate].
  destruct (l !! k) as [y|] eqn:Hk; [|discriminate].
  intros [= <-]. eapply list_elem_of_lookup_2; exact Hk.
Qed.

Lemma py_setitem_length {A} (l l' : list A) (i : Z) (x : A) :
  py_setitem l i x = Ok l' -> length l' = length l.
Proof.
  unfold py_setitem. destruct (py_index l i); simpl; [|discriminate].
  intros [= <-]. apply length_insert.
Qed.

Lemma py_setitem_in_range {A} (l : list A) (i : Z) (x : A) :
  - Z.of_nat (length l) <= i < Z.of_nat (length l) ->
  exists l', py_setitem l i x = Ok l'.
Proof.
  intros Hi. unfold py_setitem, py_index.
  destruct (Z.leb_spec 0 i), (Z.ltb_spec i (Z.of_nat (length l)));
    simpl; eauto; try lia.
  destruct (Z.leb_spec (- Z.of_nat (length l)) i), (Z.ltb_spec i 0);
    simpl; eauto; lia.
Qed.

Lemma mark_feature_length dictionary_features rep ev_vector v' :
  mark_feature dictionary_features rep ev_vector = Ok v' ->
  length v' = length ev_vector.
Proof.
  unfold mark_feature. destruct (dictionary_features !! rep).
  - apply py_setitem_length.
  - intros [= <-]. reflexivity.
Qed.

Lemma mark_feature_total dictionary_features rep ev_vector :
  indices_in_range dictionary_features ->
  length ev_vector = size dictionary_features ->
  exists v', mark_feature dictionary_features rep ev_vector = Ok v' /\
             length v' = size dictionary_features.
Proof.
  intros Hrange Hlen. unfold mark_feature.
  destruct (dictionary_features !! rep) as [idx|] eqn:Hrep; [|eauto].
  destruct (py_setitem_in_range ev_vector idx 1) as [v' Hv'].
  { rewrite Hlen. eapply Hrange; exact Hrep. }
  exists v'. split; [exact Hv'|]. rewrite (py_setitem_length _ _ _ _ Hv'). exact Hlen.
Qed.

Lemma zero_pad_loop_closed (w n : nat) (X : list (list Z)) :
  X <> [] -> Forall (fun r => length r = w) X ->
  zero_pad_loop n X = Ok (X ++ replicate n (replicate w 0)).
Proof.
  revert X; induction n as [|n IH]; intros X Hne Hw; simpl.
  - rewrite app_nil_r. reflexivity.
  - destruct X as [|r X _] using rev_ind; [congruence|].
    rewrite py_getitem_last; simpl.
    assert (length r = w) as ->.
    { apply Forall_app in Hw as [_ Hr]. inversion Hr; assumption. }
    rewrite IH.
    + rewrite <- (app_assoc _ [replicate w 0]). reflexivity.
    + destruct (X ++ [r]); discriminate.
    + apply Forall_app. split; [exact Hw|]. repeat constructor.
      apply length_replicate.
Qed.

Lemma zero_pad_loop_shape (w n : nat) (X X' : list (list Z)) :
  Forall (fun r => length r = w) X ->
  zero_pad_loop n X = Ok X' ->
  length X' = (length X + n)%nat /\ Forall (fun r => length r = w) X'.
Proof.
  revert X; induction n as [|n IH]; intros X Hw Hz; simpl in Hz.
  - injection Hz as <-. split; [lia|exact Hw].
  - destruct (py_getitem X (-1)) as [r|e] eqn:Hr; simpl in Hz; [|discriminate].
    apply IH in Hz as [Hlen Hall].
    + rewrite length_app in Hlen; simpl in Hlen. split; [lia|exact Hall].
    + apply Forall_app. split; [exact Hw|]. repeat constructor.
      rewrite length_replicate.
      apply py_getitem_elem_of in Hr.
      eapply Forall_forall in Hw; [exact Hw|exact Hr].
Qed.

Lemma np_transpose_shape (w : nat) (X : list (list Z)) :
  Forall (fun r => length r = w) X ->
  Forall (fun row => length row = length X) (np_transpose X) /\
  (X <> [] -> length (np_transpose X) = w).
Proof.
  intros Hw. destruct X as [|r X]; simpl.
  - split; [constructor|congruence].
  - split.
    + apply Forall_forall. intros row Hrow.
      apply list_elem_of_fmap in Hrow as (c & -> & _). simpl.
      rewrite length_map. reflexivity.
    + intros _. rewrite length_map, length_seq. inversion Hw; assumption.
Qed.

Lemma np_transpose_lookup (X : list (list Z)) (f t : nat) (row r : list Z) :
  np_transpose X !! f = Some row -> X !! t = Some r -> row !! t = Some (nth f r 0).
Proof.
  destruct X as [|r0 X]; [discriminate|]. unfold np_transpose.
  intros Hrow Ht. rewrite list_lookup_fmap in Hrow.
  destruct (seq 0 (length r0) !! f) as [c|] eqn:Hc; [|discriminate].
  injection Hrow as <-. apply lookup_seq in Hc as [-> _].
  change (map (fun row : list Z => nth (0 + f) row 0) (r0 :: X) !! t
          = Some (nth f r 0)).
  rewrite (list_lookup_fmap (fun row : list Z => nth (0 + f) row 0)), Ht.
  reflexivity.
Qed.

Lemma mapM_ok_Forall {A B} (P : B -> Prop) (f : A -> result B) (l : list A) ys :
  (forall x y, f x = Ok y -> P y) -> mapM f l = Ok ys -> Forall P ys.
Proof.
  intros HP. revert ys; induction l as [|x l IH]; simpl; intros ys Hm.
  - injection Hm as <-. constructor.
  - destruct (f x) as [y|e] eqn:Hx; simpl in Hm; [|discriminate].
    destruct (mapM f l) as [ys'|e]; simpl in Hm; [|discriminate].
    injection Hm as <-. constructor; [eapply HP; exact Hx|apply IH; reflexivity].
Qed.

Lemma mapM_total {A B} (f : A -> result B) (l : list A) :
  Forall (fun x => exists y, f x = Ok y) l -> exists ys, mapM f l = Ok ys.
Proof.
  induction 1 as [|x l [y Hy] _ [ys IH]]; simpl; [eauto|].
  rewrite Hy; simpl. rewrite IH; simpl. eauto.
Qed.

Lemma nth_replicate_same {A} (i n : nat) (x : A) : nth i (replicate n x) x = x.
Proof. revert i; induction n as [|n IH]; intros [|i]; simpl; auto. Qed.

Section SequenceTensorProofs.
Context `{Collaborators}.
Implicit Types (dictionary_features : gmap string Z) (tr : trace).

Lemma mark_event_features_length dictionary_features (e : event) v v' :
  mark_event_features dictionary_features e v = Ok v' -> length v' = length v.
Proof.
  unfold mark_event_features.
  apply (foldM_invariant (fun s => length s = length v)); [|reflexivity].
  intros s [a x] s' Hs Hm. rewrite <- Hs. eapply mark_feature_length; exact Hm.
Qed.

Lemma mark_succession_features_length dictionary_features (e e2 : event) v v' :
  mark_succession_features dictionary_features e e2 v = Ok v' ->
  length v' = length v.
Proof.
  unfold mark_succession_features.
  apply (foldM_invariant (fun s => length s = length v)); [|reflexivity].
  intros s [a x] s' Hs Hm. rewrite <- Hs.
  destruct (e2 !! a); [eapply mark_feature_length; exact Hm|].
  injection Hm as <-. reflexivity.
Qed.

Lemma event_vector_length tr dictionary_features (index : nat) v :
  event_vector tr dictionary_features index = Ok v ->
  length v = size dictionary_features.
Proof.
  unfold event_vector.
  destruct (py_getitem tr (Z.of_nat index)) as [e|?]; simpl; [|discriminate].
  destruct (mark_event_features _ _ _) as [v1|?] eqn:H1; simpl; [|discriminate].
  apply mark_event_features_length in H1. rewrite length_replicate in H1.
  destruct (_ <? _).
  - destruct (py_getitem tr _) as [e2|?]; simpl; [|discriminate].
    intros H2. apply mark_succession_features_length in H2. congruence.
  - intros [= <-]. exact H1.
Qed.

Lemma mark_event_features_total dictionary_features (e : event) v :
  indices_in_range dictionary_features ->
  length v = size dictionary_features ->
  exists v', mark_event_features dictionary_features e v = Ok v' /\
             length v' = size dictionary_features.
Proof.
  intros Hrange Hlen. unfold mark_event_features.
  apply (foldM_total (fun s => length s = size dictionary_features));
    [|exact Hlen].
  intros s [a x] Hs. apply mark_feature_total; assumption.
Qed.

Lemma mark_succession_features_total dictionary_features (e e2 : event) v :
  indices_in_range dictionary_features ->
  length v = size dictionary_features ->
  exists v', mark_succession_features dictionary_features e e2 v = Ok v' /\
             length v' = size dictionary_features.
Proof.
  intros Hrange Hlen. unfold mark_succession_features.
  apply (foldM_total (fun s => length s = size dictionary_features));
    [|exact Hlen].
  intros s [a x] Hs. destruct (e2 !! a); [|eauto].
  apply mark_feature_total; assumption.
Qed.

Lemma event_vector_total tr dictionary_features (index : nat) :
  indices_in_range dictionary_features -> (index < length tr)%nat ->
  exists v, event_vector tr dictionary_features index = Ok v.
Proof.
  intros Hrange Hlt. unfold event_vector.
  destruct (lookup_lt_is_Some_2 tr index Hlt) as [e He].
  rewrite (py_getitem_nat _ _ _ He); cbn [rbind].
  destruct (mark_event_features_total dictionary_features e
              (replicate (size dictionary_features) 0) Hrange
              (length_replicate _ _)) as (v1 & -> & Hlen1).
  cbn [rbind].
  destruct (Z.ltb_spec (Z.of_nat index) (Z.of_nat (length tr) - 1)) as [Hnext|_];
    [|eauto].
  destruct (lookup_lt_is_Some_2 tr (S index) ltac:(lia)) as [e2 He2].
  replace (Z.of_nat index + 1) with (Z.of_nat (S index)) by lia.
  rewrite (py_getitem_nat _ _ _ He2); cbn [rbind].
  destruct (mark_succession_features_total dictionary_features e e2 v1 Hrange Hlen1)
    as (v2 & Hv2 & _).
  exists v2. exact Hv2.
Qed.

(** What a successful call returns: every row has [max_len_trace]
    entries, and there is one row per feature. *)
Lemma get_trace_rep_rnn_rows tr dictionary_features (L : nat) X :
  get_trace_rep_rnn tr dictionary_features L = Ok X ->
  Forall (fun row => length row = L) X /\
  ((1 <= L)%nat -> length X = size dictionary_features).
Proof.
  unfold get_trace_rep_rnn.
  destruct (mapM _ _) as [X0|?] eqn:H0; simpl; [|discriminate].
  destruct (zero_pad_loop _ X0) as [X1|?] eqn:H1; simpl; [|discriminate].
  intros [= <-].
  pose proof (mapM_ok_length _ _ _ H0) as Hlen0. rewrite length_seq in Hlen0.
  pose proof (mapM_ok_Forall (fun v => length v = size dictionary_features)
                _ _ _ (event_vector_length tr dictionary_features) H0) as Hw0.
  destruct (zero_pad_loop_shape _ _ _ _ Hw0 H1) as [Hlen1 Hw1].
  destruct (np_transpose_shape _ _ Hw1) as [Hrows Hcount].
  assert (length X1 = L) as HL by lia.
  split.
  - rewrite HL in Hrows. exact Hrows.
  - intros HL1. apply Hcount. destruct X1; [simpl in HL; lia|discriminate].
Qed.

End SequenceTensorProofs.

(** C2, as the code has it. For every non-empty trace, every feature dictionary whose
    indices address its columns and every [L >= 1], [get_trace_rep_rnn]
    returns the transposed tensor: [|dict|] entries in its first dimension,
    one per feature, each with exactly [L] entries, one per timestep,
    whether [len(trace)] is below, equal to or above [L]; the timesteps
    from [len(trace)] on are zero in every feature. *)
Theorem get_trace_rep_rnn_shape `{Collaborators} (tr : trace)
    (dictionary_features : gmap string Z) (L : nat) :
  tr <> [] -> (1 <= L)%nat -> indices_in_range dictionary_features ->
  exists X,
    get_trace_rep_rnn tr dictionary_features L = Ok X /\
    length X = size dictionary_features /\
    Forall (fun row => length row = L) X /\
    (forall f t row, X !! f = Some row -> (length tr <= t < L)%nat ->
                     row !! t = Some 0).
Proof.
  intros Hne HL Hrange.
  assert (length tr <> 0)%nat as Hlen by (destruct tr; [congruence|discriminate]).
  destruct (mapM_total (event_vector tr dictionary_features)
              (seq 0 (Nat.min (length tr) L))) as [X0 HX0].
  { apply Forall_forall. intros i Hi. apply elem_of_seq in Hi.
    apply event_vector_total; [exact Hrange|lia]. }
  pose proof (mapM_ok_length _ _ _ HX0) as Hlen0. rewrite length_seq in Hlen0.
  pose proof (mapM_ok_Forall (fun v => length v = size dictionary_features)
                _ _ _ (event_vector_length tr dictionary_features) HX0) as Hw0.
  assert (X0 <> []) as Hne0 by (destruct X0; [simpl in Hlen0; lia|discriminate]).
  pose proof (zero_pad_loop_closed _ (L - length tr) _ Hne0 Hw0) as Hpad.
  set (X1 := X0 ++ replicate (L - length tr) (replicate (size dictionary_features) 0))
    in Hpad.
  assert (get_trace_rep_rnn tr dictionary_features L = Ok (np_transpose X1)) as Hrun.
  { unfold get_trace_rep_rnn. rewrite HX0; cbn [rbind]. rewrite Hpad. reflexivity. }
  exists (np_transpose X1). split; [exact Hrun|].
  destruct (get_trace_rep_rnn_rows _ _ _ _ Hrun) as [Hrows Hcount].
  split; [apply Hcount; exact HL|]. split; [exact Hrows|].
  intros f t row Hrow Ht.
  assert (X1 !! t = Some (replicate (size dictionary_features) 0)) as Hzero.
  { unfold X1. rewrite lookup_app_r by lia. apply lookup_replicate_2. lia. }
  rewrite (np_transpose_lookup _ _ _ _ _ Hrow Hzero).
  rewrite nth_replicate_same. reflexivity.
Qed.

Lemma get_trace_rep_rnn_shape_witness :
  exists X,
    @get_trace_rep_rnn Demo.collaborators Demo.trace_A
      (build_dictionary ["event:concept:name@A"; "succession:concept:name@B#C"]) 5
    = Ok X /\
    length X = 2%nat /\ Forall (fun row => length row = 5%nat) X.
Proof.
  destruct (@get_trace_rep_rnn_shape Demo.collaborators Demo.trace_A
              (build_dictionary ["event:concept:name@A"; "succession:concept:name@B#C"])
              5) as (X & Hrun & Hlen & Hrows & _).
  - discriminate.
  - lia.
  - intros rep idx Hidx.
    change (size (build_dictionary
                    ["event:concept:name@A"; "succession:concept:name@B#C"]))
      with 2%nat.
    unfold build_dictionary in Hidx; cbn [enumerate_from fold_left] in Hidx.
    apply lookup_insert_Some in Hidx as [[_ <-]|[_ Hidx]]; [lia|].
    apply lookup_insert_Some in Hidx as [[_ <-]|[_ Hidx]]; [lia|].
    rewrite lookup_empty in Hidx. discriminate.
  - exists X. split; [exact Hrun|]. split; [exact Hlen|exact Hrows].
Defined.

(** C2 as stated fails: for a trace of three events, a dictionary of two
    features and [L = 5] the result has 2 entries in its first dimension,
    not 5, and 5 in its second, not 2. *)
Lemma get_trace_rep_rnn_first_dimension :
  exists X,
    @get_trace_rep_rnn Demo.collaborators Demo.trace_A
      (build_dictionary ["event:concept:name@A"; "succession:concept:name@B#C"]) 5
    = Ok X /\
    X = [[1; 0; 0; 0; 0]; [0; 1; 0; 0; 0]] /\
    length X <> 5%nat /\
    ~ Forall (fun row => length row = 2%nat) X.
Proof.
  exists [[1; 0; 0; 0; 0]; [0; 1; 0; 0; 0]].
  split; [vm_compute; reflexivity|]. split; [reflexivity|].
  split; [discriminate|]. intros Hall. inversion Hall; discriminate.
Qed.

(** C4. The code raises on an empty trace: with [max_len_trace >= 1] the
    padding loop of [get_trace_rep_rnn] reads [X[-1]] of an empty list, so
    the encoding of a log that starts with an empty trace ends in an
    [IndexError] and the guard [if rep:] of [get_log_rep_rnn] is never
    reached. *)
Theorem get_log_rep_rnn_empty_trace `{Collaborators}
    (dictionary_features : gmap string Z) (feature_names : list string)
    (lg : log) (max_len_trace : nat) :
  (1 <= max_len_trace)%nat ->
  get_trace_rep_rnn [] dictionary_features max_len_trace = Err IndexError /\
  get_log_rep_rnn ([] :: lg) dictionary_features max_len_trace = Err IndexError /\
  get_X_from_log ([] :: lg) feature_names max_len_trace = Err IndexError.
Proof.
  intros HL.
  assert (forall d, get_trace_rep_rnn [] d max_len_trace = Err IndexError) as Hrep.
  { intros d. unfold get_trace_rep_rnn. cbn [length Nat.min seq mapM rbind].
    rewrite Nat.sub_0_r. destruct max_len_trace as [|n]; [lia|].
    cbn [zero_pad_loop]. rewrite py_getitem_empty. reflexivity. }
  split; [apply Hrep|].
  unfold get_X_from_log, get_log_rep_rnn. cbn [foldM]. rewrite !Hrep.
  split; reflexivity.
Qed.

Lemma get_log_rep_rnn_empty_trace_witness :
  @get_trace_rep_rnn Demo.collaborators [] ∅ 1 = Err IndexError /\
  @get_log_rep_rnn Demo.collaborators [[]; Demo.trace_A] ∅ 1 = Err IndexError /\
  @get_X_from_log Demo.collaborators [[]; Demo.trace_A] ["event:concept:name@A"] 1
  = Err IndexError.
Proof.
  apply (@get_log_rep_rnn_empty_trace Demo.collaborators ∅ ["event:concept:name@A"]
           [Demo.trace_A] 1).
  lia.
Defined.

(** ** The [parameters] dict across [train] *)

Lemma preserves_sret {A} (a : A) : preserves (sret a).
Proof. intros p; reflexivity. Qed.

Lemma preserves_lift {A} (r : result A) : preserves (lift r).
Proof. intros p; reflexivity. Qed.

Lemma preserves_contains k : preserves (contains k).
Proof. intros p; reflexivity. Qed.

Lemma preserves_getitem k : preserves (getitem k).
Proof. intros p; reflexivity. Qed.

Lemma preserves_current : preserves current.
Proof. intros p; reflexivity. Qed.

Lemma preserves_sbind {A B} (m : dict_comp A) (k : A -> dict_comp B) :
  preserves m -> (forall a, preserves (k a)) -> preserves (sbind m k).
Proof.
  intros Hm Hk p. unfold sbind. specialize (Hm p).
  destruct (m p) as [[a|e] p1]; simpl in Hm; subst p1; [apply Hk|reflexivity].
Qed.

Lemma preserves_get_or k d : preserves (get_or k d).
Proof.
  apply preserves_sbind; [apply preserves_contains|].
  intros [|]; [apply preserves_getitem|apply preserves_sret].
Qed.

Ltac preserves_step :=
  first
    [ apply preserves_sret | apply preserves_lift | apply preserves_contains
    | apply preserves_getitem | apply preserves_current | apply preserves_get_or
    | apply preserves_sbind; [|intros ?]
    | match goal with
      | |- preserves (match ?x with _ => _ end) => destruct x
      end ].

Lemma preserves_resolve_attributes `{Collaborators} (lg : log) (activity_key : pyval) :
  preserves (resolve_attributes lg activity_key).
Proof. unfold resolve_attributes. repeat preserves_step. Qed.

Lemma sbind_setitem_state {B} k v (rest : unit -> dict_comp B) (p : params) :
  preserves (rest tt) -> (sbind (setitem k v) rest p).2 = <[k := v]> p.
Proof. intros Hrest. unfold sbind, setitem. apply Hrest. Qed.

Lemma elasticnet_train_body_state `{Collaborators} (lg : log) (p : params) :
  (elasticnet.train_body lg p).2 = <["enable_sort" := PBool false]> p.
Proof.
  unfold elasticnet.train_body. apply sbind_setitem_state.
  repeat first [apply preserves_resolve_attributes | preserves_step].
Qed.

Lemma keras_prepare_state `{Collaborators} (lg : log) (p : params) :
  (keras_rnn.prepare lg p).2 = <["enable_sort" := PBool false]> p.
Proof.
  unfold keras_rnn.prepare. unfold sbind at 1.
  pose proof (preserves_get_or "default_epochs" (PInt 50) p) as Hfirst.
  destruct (get_or "default_epochs" (PInt 50) p) as [[d|e] p1] eqn:Hd;
    simpl in Hfirst; subst p1.
  - apply sbind_setitem_state. unfold keras_rnn.raw_labels.
    repeat first [apply preserves_resolve_attributes | preserves_step].
  - exfalso. unfold get_or, sbind, contains, getitem, sret in Hd.
    destruct (bool_decide (is_Some (p !! "default_epochs"))) eqn:Hin.
    + apply bool_decide_eq_true in Hin as [v Hv]. rewrite Hv in Hd. discriminate.
    + discriminate.
Qed.

Lemma keras_train_body_state `{Collaborators} (lg : log) (p : params) :
  (keras_rnn.train_body lg p).2 = <["enable_sort" := PBool false]> p.
Proof.
  unfold keras_rnn.train_body, sbind.
  pose proof (keras_prepare_state lg p) as Hp.
  destruct (keras_rnn.prepare lg p) as [[pr|e] p1]; exact Hp.
Qed.

(** C10. Both [train]s write to the dict the caller passed: after the
    call, whether it returned or raised, [parameters["enable_sort"]] is
    [False] and every other entry is as the caller left it. *)
Theorem train_sets_enable_sort `{Collaborators} (lg : log) (p : params) :
  exists p',
    (elasticnet.train lg (Some p)).2 = Some p' /\
    (keras_rnn.train lg (Some p)).2 = Some p' /\
    p' = <["enable_sort" := PBool false]> p /\
    p' !! "enable_sort" = Some (PBool false) /\
    (forall k, k <> "enable_sort" -> p' !! k = p !! k).
Proof.
  exists (<["enable_sort" := PBool false]> p).
  split; [|split; [|split; [reflexivity|split]]].
  - unfold elasticnet.train, run_train.
    pose proof (elasticnet_train_body_state lg p) as Hs.
    destruct (elasticnet.train_body lg p) as [r p1]. simpl in *. congruence.
  - unfold keras_rnn.train, run_train.
    pose proof (keras_train_body_state lg p) as Hs.
    destruct (keras_rnn.train_body lg p) as [r p1]. simpl in *. congruence.
  - apply lookup_insert_eq.
  - intros k Hk. apply lookup_insert_ne. congruence.
Qed.

(** ** Sequence-model [test] *)

Lemma mapM_Forall2 {A B C} (f : A -> result B) (g : C -> B) (l : list A) (vs : list C) :
  Forall2 (fun x v => f x = Ok (g v)) l vs -> mapM f l = Ok (map g vs).
Proof.
  induction 1 as [|x v l vs Hx _ IH]; simpl; [reflexivity|].
  rewrite Hx; simpl. rewrite IH. reflexivity.
Qed.

Lemma enumerate_from_length {B} (start : nat) (l : list B) :
  length (enumerate_from start l) = length l.
Proof. revert start; induction l; intros; simpl; auto. Qed.

(** C8. [test] denormalises, for every trace, the output of the regressor
    at the index given by the trace's own length minus one, whatever
    [max_len_trace] is: when the encoding succeeds and the output row of
    each trace has that component [v], the result is the single value
    [reconstruct_value v] for one trace and the list of these values, in
    the order of the traces, otherwise. *)
Theorem test_reads_own_length `{Collaborators} (m : keras_rnn.model)
    (obj : keras_rnn.test_object) (X : list (list (list Z))) (vs : list R) :
  let lg := match obj with keras_rnn.OfLog lg => lg | keras_rnn.OfTrace tr => [tr] end in
  get_X_from_log lg (keras_rnn.feature_names m) (keras_rnn.max_len_trace m) = Ok X ->
  Forall2 (fun it v =>
             exists row, keras_predict (keras_rnn.regr m) X !! it.1 = Some row /\
                         (1 <= length it.2)%nat /\
                         row !! (length it.2 - 1)%nat = Some v)
          (enumerate_from 0 lg) vs ->
  keras_rnn.test m obj
  = Ok (match vs with
        | [v] => keras_rnn.Single (reconstruct_value v (keras_rnn.log_max_value m))
        | _ => keras_rnn.Many
                 (map (fun v => reconstruct_value v (keras_rnn.log_max_value m)) vs)
        end).
Proof.
  intros lg HX Hvs.
  assert (Forall2 (fun it v =>
                     (let '(index, tr) := it in
                      keras_rnn.predict_at (keras_predict (keras_rnn.regr m) X)
                        (keras_rnn.log_max_value m) index tr)
                     = Ok (reconstruct_value v (keras_rnn.log_max_value m)))
            (enumerate_from 0 lg) vs) as Hat.
  { eapply Forall2_impl; [exact Hvs|].
    intros [index tr] v (row & Hrow & Hlen & Hv); simpl in *.
    unfold keras_rnn.predict_at.
    rewrite (py_getitem_nat _ _ _ Hrow); cbn [rbind].
    replace (Z.of_nat (length tr) - 1) with (Z.of_nat (length tr - 1)) by lia.
    rewrite (py_getitem_nat _ _ _ Hv). reflexivity. }
  pose proof (Forall2_length _ _ _ Hvs) as Hlen.
  rewrite enumerate_from_length in Hlen.
  unfold keras_rnn.test. fold lg. rewrite HX; cbn [rbind].
  destruct (Z.eqb_spec (Z.of_nat (length lg)) 1) as [Hone|Hmany].
  - destruct lg as [|tr0 [|? ?]]; simpl in Hone; try lia.
    destruct vs as [|v [|? ?]]; simpl in Hlen; try lia.
    inversion Hat as [|? ? ? ? Hv _]; subst.
    change (py_getitem [tr0] 0) with (Ok tr0). cbn [rbind].
    rewrite Hv. reflexivity.
  - rewrite (mapM_Forall2 _ _ _ _ Hat); cbn [rbind].
    destruct vs as [|v [|? ?]]; try reflexivity.
    simpl in Hlen. lia.
Qed.

(** The scenario of the spec: a trace of true length 4 with
    [max_len_trace = 10] is read at index 3, not 9. *)
Lemma test_reads_own_length_witness :
  @keras_rnn.test Demo.collaborators
    (@keras_rnn.Build_model Demo.collaborators (PList []) (PList []) (PList [])
       (PList []) (PList []) ["event:concept:name@A"] tt 10 2%R)
    (keras_rnn.OfTrace [Demo.ev "A" 0; Demo.ev "B" 1; Demo.ev "C" 2; Demo.ev "D" 3])
  = Ok (keras_rnn.Single (reconstruct_value (INR 3 / 10) 2)).
Proof.
  eapply (@test_reads_own_length Demo.collaborators
            (@keras_rnn.Build_model Demo.collaborators (PList []) (PList [])
               (PList []) (PList []) (PList []) ["event:concept:name@A"] tt 10 2%R)
            (keras_rnn.OfTrace
               [Demo.ev "A" 0; Demo.ev "B" 1; Demo.ev "C" 2; Demo.ev "D" 3])
            _ [(INR 3 / 10)%R]).
  - vm_compute. reflexivity.
  - repeat constructor. eexists. split; [reflexivity|]. split; [simpl; lia|].
    reflexivity.
Defined.

(** ** Running a computation over the dict *)

Lemma sbind_run {A B} (m : dict_comp A) (k : A -> dict_comp B) p a p1 :
  m p = (Ok a, p1) -> sbind m k p = k a p1.
Proof. intros Hm. unfold sbind. rewrite Hm. reflexivity. Qed.

Lemma get_or_run k d (p : params) : get_or k d p = (Ok (param_or p k d), p).
Proof.
  unfold get_or, sbind, contains, getitem, sret, param_or.
  destruct (p !! k) as [v|] eqn:Hk.
  - rewrite bool_decide_eq_true_2 by eauto. rewrite Hk. reflexivity.
  - rewrite bool_decide_eq_false_2 by (intros [? ?]; discriminate). reflexivity.
Qed.

Lemma resolve_attributes_run `{Collaborators} (lg : log) (activity_key : pyval)
    (p : params) :
  exists attrs, resolve_attributes lg activity_key p = (Ok attrs, p).
Proof.
  unfold resolve_attributes, contains. unfold sbind at 1.
  destruct (bool_decide (is_Some (p !! "str_ev_attr"))).
  - repeat (erewrite sbind_run by apply get_or_run). eexists. reflexivity.
  - destruct (select_attributes_from_log_for_tree lg) as [[[a b] c] d].
    eexists. reflexivity.
Qed.

(** ** Elastic-net labels *)

Lemma prefixes_of_nonempty (tr : trace) : Forall (fun t => t <> []) (prefixes_of tr).
Proof.
  unfold prefixes_of. apply Forall_forall. intros t Ht.
  apply list_elem_of_fmap in Ht as (k & -> & Hk). apply elem_of_seq in Hk.
  destruct tr as [|e tr]; [simpl in Hk; lia|].
  destruct k as [|k]; [lia|]. discriminate.
Qed.

Lemma expanded_log_nonempty (lg : log) :
  Forall (fun t => t <> []) (get_log_with_log_prefixes lg).1.
Proof.
  unfold get_log_with_log_prefixes; simpl.
  induction lg as [|tr lg IH]; simpl; [constructor|].
  apply Forall_app. split; [apply prefixes_of_nonempty|exact IH].
Qed.

Lemma event_getitem_errors (e1 e2 : event) (key : pyval) (x1 x2 : exn) :
  event_getitem e1 key = Err x1 -> event_getitem e2 key = Err x2 -> x1 = x2.
Proof.
  destruct key; simpl; try congruence.
  destruct (e1 !! s), (e2 !! s); congruence.
Qed.

Section ElasticNetLabels.
Context `{Collaborators}.
Variables (timestamp_key business_hours worktiming weekends : pyval).

Local Abbreviation at_index :=
  (remaining_time_at timestamp_key business_hours worktiming weekends).

(** The label of a non-empty prefix is what the label extractor
    computes for its first event. *)
Lemma prefix_label_first_event (tr : trace) :
  tr <> [] ->
  elasticnet.prefix_label timestamp_key business_hours worktiming weekends tr
  = (q <- at_index tr 0 ;; Ok (PFloat q)).
Proof.
  intros Hne. destruct tr as [|e0 tr']; [congruence|].
  destruct (last (e0 :: tr')) as [el|] eqn:Hl.
  2:{ apply last_None in Hl. discriminate. }
  unfold elasticnet.prefix_label, remaining_time_at.
  rewrite (py_getitem_minus_1 _ _ Hl).
  change (py_getitem (e0 :: tr') (Z.of_nat 0)) with (@Ok event e0).
  change (py_getitem (e0 :: tr') 0) with (@Ok event e0).
  cbn [rbind].
  destruct (event_getitem el timestamp_key) as [et|x1] eqn:Het;
    destruct (event_getitem e0 timestamp_key) as [st|x2] eqn:Hst; cbn [rbind];
    try reflexivity.
  - destruct (truthy business_hours).
    + destruct (replace_tzinfo_none st); cbn [rbind]; [|reflexivity].
      destruct (replace_tzinfo_none et); reflexivity.
    + destruct (total_seconds_between et st); reflexivity.
  - rewrite (event_getitem_errors _ _ _ _ _ Het Hst). reflexivity.
Qed.

Lemma remaining_time_loop_prefix (tr : trace) (L : nat) :
  forall (rest : trace) (index : nat) (row row' : list Q),
    remaining_time_loop timestamp_key business_hours worktiming weekends
      tr L index rest row = Ok row' ->
    exists more, row' = row ++ more.
Proof.
  induction rest as [|e rest IH]; intros index row row' Hl; simpl in Hl.
  - injection Hl as <-. exists []. rewrite app_nil_r. reflexivity.
  - destruct (_ <=? _).
    + injection Hl as <-. exists []. rewrite app_nil_r. reflexivity.
    + destruct (at_index tr index) as [v|?]; simpl in Hl; [|discriminate].
      apply IH in Hl as [more ->]. exists (v :: more).
      rewrite <- app_assoc. reflexivity.
Qed.

Lemma pad_loop_prefix {A} (n : nat) (row row' : list A) :
  pad_loop n row = Ok row' -> exists more, row' = row ++ more.
Proof.
  revert row; induction n as [|n IH]; intros row Hp; simpl in Hp.
  - injection Hp as <-. exists []. rewrite app_nil_r. reflexivity.
  - destruct (py_getitem row (-1)) as [x|?]; simpl in Hp; [|discriminate].
    apply IH in Hp as [more ->]. exists (x :: more).
    rewrite <- app_assoc. reflexivity.
Qed.

End ElasticNetLabels.

Section ElasticNetTrain.
Context `{Collaborators}.

Lemma remaining_time_of_trace_first (p : params) (L : nat) (tr : trace) (row : list Q) :
  tr <> [] -> (1 <= L)%nat ->
  remaining_time_of_trace p L tr = Ok row ->
  exists q,
    remaining_time_at
      (param_or p PARAMETER_CONSTANT_TIMESTAMP_KEY (PStr DEFAULT_TIMESTAMP_KEY))
      (param_or p "business_hours" (PBool false))
      (param_or p "worktiming" (PList [PInt 7; PInt 17]))
      (param_or p "weekends" (PList [PInt 6; PInt 7])) tr 0 = Ok q /\
    row !! 0%nat = Some q.
Proof.
  intros Hne HL. unfold remaining_time_of_trace.
  destruct tr as [|e rest]; [congruence|]. cbn [remaining_time_loop].
  destruct (Z.leb_spec (Z.of_nat L) (Z.of_nat 0)) as [Hle|_]; [lia|].
  destruct (remaining_time_at _ _ _ _ (e :: rest) 0) as [q|?]; cbn [rbind];
    [|discriminate].
  destruct (remaining_time_loop _ _ _ _ _ _ _ _ _) as [row0|?] eqn:Hloop;
    cbn [rbind]; [|discriminate].
  intros Hpad. exists q. split; [reflexivity|].
  apply remaining_time_loop_prefix in Hloop as [more ->].
  apply pad_loop_prefix in Hpad as [more' ->]. reflexivity.
Qed.

Lemma remaining_time_of_trace_1 (p : params) (tr : trace) :
  tr <> [] ->
  remaining_time_of_trace p 1 tr
  = (q <- remaining_time_at
            (param_or p PARAMETER_CONSTANT_TIMESTAMP_KEY (PStr DEFAULT_TIMESTAMP_KEY))
            (param_or p "business_hours" (PBool false))
            (param_or p "worktiming" (PList [PInt 7; PInt 17]))
            (param_or p "weekends" (PList [PInt 6; PInt 7])) tr 0 ;;
     Ok [q]).
Proof.
  intros Hne. unfold remaining_time_of_trace.
  destruct tr as [|e rest]; [congruence|]. cbn [remaining_time_loop].
  change (Z.of_nat 1 <=? Z.of_nat 0) with false. cbv iota.
  destruct (remaining_time_at _ _ _ _ (e :: rest) 0) as [q|?]; cbn [rbind];
    [|reflexivity].
  destruct rest as [|e2 rest]; reflexivity.
Qed.

(** What [train] returns in terms of its label vector. *)
Lemma elasticnet_train_result (lg : log) (p : params) :
  let p1 := <["enable_sort" := PBool false]> p in
  let timestamp_key :=
    param_or p1 PARAMETER_CONSTANT_TIMESTAMP_KEY (PStr DEFAULT_TIMESTAMP_KEY) in
  let ext_log := (get_log_with_log_prefixes (sort_timestamp lg timestamp_key)).1 in
  exists build : list pyval -> elasticnet.model,
    (forall rt, elasticnet.en_remaining_time (build rt) = rt) /\
    (elasticnet.train lg (Some p)).1
    = (rt <- elasticnet.labels (param_or p1 "y_orig" PNone) timestamp_key
               (param_or p1 "business_hours" (PBool false))
               (param_or p1 "worktiming" (PList [PInt 7; PInt 17]))
               (param_or p1 "weekends" (PList [PInt 6; PInt 7])) ext_log ;;
       Ok (build rt)).
Proof.
  intros p1 timestamp_key ext_log.
  unfold elasticnet.train, run_train, elasticnet.train_body.
  unfold sbind at 1, setitem. fold p1.
  repeat (erewrite sbind_run by apply get_or_run). fold timestamp_key.
  destruct (resolve_attributes_run (sort_timestamp lg timestamp_key)
              (param_or p1 PARAMETER_CONSTANT_ACTIVITY_KEY (PStr DEFAULT_NAME_KEY)) p1)
    as [[[[a b] c] d] Hattrs].
  erewrite sbind_run by exact Hattrs.
  unfold get_log_with_log_prefixes. cbv iota beta.
  destruct (get_representation _ _ _ _ _ _ _) as [data names].
  eexists (fun rt => elasticnet.Build_model _ _ _ _ _ _ rt _).
  split; [intros rt; reflexivity|].
  unfold sbind, lift, sret. subst ext_log. unfold get_log_with_log_prefixes.
  cbn [fst].
  destruct (elasticnet.labels _ _ _ _ _ _) as [rt|e]; reflexivity.
Qed.

(** C3. Without precomputed labels, [train] of the elastic-net adapter
    labels every prefix of the expanded log with that prefix's own
    remaining time as the label extractor defines it on the expanded log:
    the seconds (wall-clock or business, by [business_hours]) from the
    first event of the prefix to its last one. The labels of a successful
    [train] are exactly the rows the extractor returns for the expanded log
    with one value kept per prefix; and whenever the extractor succeeds on
    the expanded log, for any [max_len_trace >= 1], [train] succeeds and
    its label for a prefix is the first entry of the prefix's row. *)
Theorem elasticnet_train_labels (lg : log) (p : params) :
  let p1 := <["enable_sort" := PBool false]> p in
  let timestamp_key :=
    param_or p1 PARAMETER_CONSTANT_TIMESTAMP_KEY (PStr DEFAULT_TIMESTAMP_KEY) in
  let ext_log := (get_log_with_log_prefixes (sort_timestamp lg timestamp_key)).1 in
  param_or p "y_orig" PNone = PNone ->
  (forall m, (elasticnet.train lg (Some p)).1 = Ok m ->
     exists rows,
       get_remaining_time_from_log ext_log 1 (Some p1) = Ok rows /\
       length rows = length ext_log /\
       elasticnet.en_remaining_time m = map PFloat (concat rows)) /\
  (forall max_len_trace rows,
     (1 <= max_len_trace)%nat ->
     get_remaining_time_from_log ext_log max_len_trace (Some p1) = Ok rows ->
     exists m,
       (elasticnet.train lg (Some p)).1 = Ok m /\
       Forall2 (fun label row => exists q, row !! 0%nat = Some q /\ label = PFloat q)
         (elasticnet.en_remaining_time m) rows).
Proof.
  intros p1 timestamp_key ext_log Hy.
  destruct (elasticnet_train_result lg p) as (build & Hbuild & Hrun).
  fold p1 timestamp_key ext_log in Hrun.
  assert (param_or p1 "y_orig" PNone = PNone) as Hy1.
  { unfold param_or, p1 in *. rewrite lookup_insert_ne by discriminate. exact Hy. }
  rewrite Hy1 in Hrun. cbn [elasticnet.labels] in Hrun.
  pose proof (expanded_log_nonempty (sort_timestamp lg timestamp_key)) as Hne.
  fold ext_log in Hne. unfold get_remaining_time_from_log.
  rewrite Hrun. clear Hrun. split.
  - intros m. induction Hne as [|tr ext Htr Hext IH] in m |- *; cbn [mapM rbind].
    + intros [= <-]. exists []. rewrite Hbuild. repeat split.
    + rewrite (prefix_label_first_event _ _ _ _ tr Htr).
      rewrite (remaining_time_of_trace_1 p1 tr Htr). fold timestamp_key.
      destruct (remaining_time_at _ _ _ _ tr 0) as [q|?]; cbn [rbind];
        [|discriminate].
      destruct (mapM (elasticnet.prefix_label _ _ _ _) ext) as [rt|?] eqn:Hrt;
        cbn [rbind]; [|discriminate].
      intros [= <-]. destruct (IH (build rt) eq_refl) as (rows & -> & Hlen & Hrows).
      exists ([q] :: rows). cbn [rbind]. split; [reflexivity|].
      split; [simpl; lia|]. rewrite Hbuild in *. simpl. f_equal. exact Hrows.
  - intros L rows HL.
    induction Hne as [|tr ext Htr Hext IH] in rows |- *; cbn [mapM rbind].
    + intros [= <-]. exists (build []). rewrite Hbuild. split; constructor.
    + destruct (remaining_time_of_trace p1 L tr) as [row|?] eqn:Hrow; cbn [rbind];
        [|discriminate].
      destruct (mapM (remaining_time_of_trace p1 L) ext) as [rows'|?]; cbn [rbind];
        [|discriminate].
      intros [= <-]. destruct (IH rows' eq_refl) as (m & Hm & Hall).
      destruct (remaining_time_of_trace_first p1 L tr row Htr HL Hrow)
        as (q & Hq & Hrow0).
      rewrite (prefix_label_first_event _ _ _ _ tr Htr). fold timestamp_key in Hq.
      rewrite Hq. cbn [rbind].
      destruct (mapM (elasticnet.prefix_label _ _ _ _) ext) as [rt|?];
        cbn [rbind] in *; [|discriminate].
      injection Hm as <-. rewrite Hbuild in Hall.
      exists (build (PFloat q :: rt)). split; [reflexivity|].
      rewrite Hbuild. constructor; [eauto|exact Hall].
Qed.

End ElasticNetTrain.

Lemma elasticnet_train_labels_witness :
  exists m,
    (@elasticnet.train Demo.collaborators [Demo.trace_A] (Some ∅)).1 = Ok m /\
    Forall2 (fun label row => exists q, row !! 0%nat = Some q /\ label = PFloat q)
      (elasticnet.en_remaining_time m) [[0]; [5]; [12]]%Q.
Proof.
  destruct (@elasticnet_train_labels Demo.collaborators [Demo.trace_A] ∅)
    as [_ Hlabels]; [vm_compute; reflexivity|].
  apply (Hlabels 1%nat [[0]; [5]; [12]]%Q); [lia|].
  vm_compute. reflexivity.
Defined.

(** ** Sequence-model [train] *)

Lemma sbind_ok_inv {A B} (m : dict_comp A) (k : A -> dict_comp B) p b p' :
  sbind m k p = (Ok b, p') ->
  exists a p1, m p = (Ok a, p1) /\ k a p1 = (Ok b, p').
Proof.
  unfold sbind. destruct (m p) as [[a|e] p1]; [eauto|discriminate].
Qed.

Lemma lift_ok_inv {A} (r : result A) (p p1 : params) (a : A) :
  lift r p = (Ok a, p1) -> r = Ok a /\ p1 = p.
Proof. unfold lift. intros [= -> ->]. auto. Qed.

Lemma np_shape_2_timesteps `{Collaborators} (lg : log) (feature_names : list string)
    (L d : nat) (X : list (list (list Z))) :
  get_X_from_log lg feature_names L = Ok X -> np_shape_2 X = Ok d -> d = L.
Proof.
  unfold get_X_from_log, get_log_rep_rnn. intros HX Hd.
  assert (Forall (Forall (fun row => length row = L)) X) as Hrows.
  { revert HX.
    apply (foldM_invariant (fun X => Forall (Forall (fun row => length row = L)) X));
      [|constructor].
    intros X0 tr X1 HX0 Hstep.
    destruct (get_trace_rep_rnn tr _ L) as [rep|?] eqn:Hrep; simpl in Hstep;
      [|discriminate].
    apply get_trace_rep_rnn_rows in Hrep as [Hrep _].
    destruct rep; injection Hstep as <-; [exact HX0|].
    apply Forall_app. split; [exact HX0|]. constructor; [exact Hrep|constructor]. }
  destruct X as [|[|r m] X]; simpl in Hd; try discriminate.
  injection Hd as <-.
  apply Forall_cons in Hrows as [Hm _]. apply Forall_cons in Hm as [Hr _].
  exact Hr.
Qed.

(** C5, as the code has it. In [train] of the sequence model the number of hidden
    units is [min(int(7.5 * d), 50)], with [int] truncating, where
    [d = X.shape[2]] is the last dimension of the encoded log; as the
    tensors are transposed that is the number of timesteps
    [max_len_trace], the length of the longest trace, which is also the
    width of the dense output layer. The network so described is the one
    [train] fits. *)
Theorem train_hidden_neurons `{Collaborators} (lg : log) (p p' : params)
    (pr : keras_rnn.prepared) :
  keras_rnn.prepare lg p = (Ok pr, p') ->
  max_length (map length lg) = Ok (keras_rnn.p_max_len_trace pr) /\
  np_shape_2 (keras_rnn.p_X pr) = Ok (keras_rnn.p_max_len_trace pr) /\
  hidden_neurons (keras_rnn.p_network pr)
  = Z.min (py_int (inject_Z (Z.of_nat (keras_rnn.p_max_len_trace pr)) * 7.5)) 50 /\
  dense_units (keras_rnn.p_network pr) = keras_rnn.p_max_len_trace pr /\
  exists m,
    (keras_rnn.train lg (Some p)).1 = Ok m /\
    keras_rnn.regr m
    = keras_fit (keras_rnn.p_network pr) (keras_rnn.p_X pr) (keras_rnn.p_y pr).
Proof.
  intros Hrun.
  assert (exists m,
             (keras_rnn.train lg (Some p)).1 = Ok m /\
             keras_rnn.regr m
             = keras_fit (keras_rnn.p_network pr) (keras_rnn.p_X pr)
                 (keras_rnn.p_y pr)) as Htrain.
  { unfold keras_rnn.train, run_train, keras_rnn.train_body, sbind.
    rewrite Hrun. eexists. split; reflexivity. }
  unfold keras_rnn.prepare in Hrun.
  apply sbind_ok_inv in Hrun as (default_epochs & p0 & _ & Hrun).
  apply sbind_ok_inv in Hrun as (u & p1 & _ & Hrun).
  apply sbind_ok_inv in Hrun as (activity_key & p2 & _ & Hrun).
  apply sbind_ok_inv in Hrun as (L & p3 & HL & Hrun).
  apply lift_ok_inv in HL as [HL ->].
  apply sbind_ok_inv in Hrun as (y_orig & p4 & _ & Hrun).
  apply sbind_ok_inv in Hrun as ([y lmv] & p5 & _ & Hrun).
  apply sbind_ok_inv in Hrun as ([[[a5 b5] c5] d5] & p6 & _ & Hrun).
  destruct (get_representation _ _ _ _ _ _ _) as [data names].
  apply sbind_ok_inv in Hrun as (X & p7 & HX & Hrun).
  apply lift_ok_inv in HX as [HX ->].
  apply sbind_ok_inv in Hrun as (d & p8 & Hd & Hrun).
  apply lift_ok_inv in Hd as [Hd ->].
  apply sbind_ok_inv in Hrun as (s1 & p9 & Hs & Hrun).
  unfold sret in Hrun. injection Hrun as <- <-. cbn.
  pose proof (np_shape_2_timesteps _ _ _ _ _ HX Hd) as ->.
  repeat split; assumption.
Qed.

Lemma raw_labels_run `{Collaborators} (lg : log) (L : nat) (p : params)
    (rows : list (list Q)) :
  p !! "y_orig" = None ->
  get_remaining_time_from_log lg L (Some p) = Ok rows ->
  keras_rnn.raw_labels lg L p = (Ok (map (map Q2R) rows), p).
Proof.
  intros Hy Hrows. unfold keras_rnn.raw_labels, contains. unfold sbind at 1.
  rewrite bool_decide_eq_false_2 by (rewrite Hy; intros [? ?]; discriminate).
  unfold sbind, current, lift, sret. rewrite Hrows. reflexivity.
Qed.

(** A run of [prepare], stage by stage. *)
Lemma prepare_run `{Collaborators} (lg : log) (p : params) (L d s1 : nat)
    (y_orig y : list (list R)) (lmv : R) (a b c e : pyval)
    (data : design_matrix) (names : list string) (X : list (list (list Z))) :
  let p1 := <["enable_sort" := PBool false]> p in
  let activity_key :=
    param_or p1 PARAMETER_CONSTANT_ACTIVITY_KEY (PStr DEFAULT_NAME_KEY) in
  max_length (map length lg) = Ok L ->
  keras_rnn.raw_labels lg L p1 = (Ok y_orig, p1) ->
  normalize_remaining_time y_orig = Ok (y, lmv) ->
  resolve_attributes lg activity_key p1 = (Ok (a, b, c, e), p1) ->
  get_representation lg a b c e (PList [activity_key]) None = (data, names) ->
  get_X_from_log lg names L = Ok X ->
  np_shape_2 X = Ok d -> np_shape_1 X = Ok s1 ->
  exists pr,
    keras_rnn.prepare lg p = (Ok pr, p1) /\
    keras_rnn.p_feature_names pr = names /\
    keras_rnn.p_max_len_trace pr = L /\
    hidden_neurons (keras_rnn.p_network pr)
    = Z.min (py_int (inject_Z (Z.of_nat d) * 7.5)) 50.
Proof.
  intros p1 activity_key HL Hraw Hnorm Hattrs Hrep HX Hd Hs.
  unfold keras_rnn.prepare.
  erewrite sbind_run by apply get_or_run.
  unfold sbind at 1, setitem. fold p1.
  erewrite sbind_run by apply get_or_run. fold activity_key.
  erewrite sbind_run by (unfold lift; rewrite HL; reflexivity).
  erewrite sbind_run by exact Hraw.
  erewrite sbind_run by (unfold lift; rewrite Hnorm; reflexivity).
  cbv iota beta.
  erewrite sbind_run by exact Hattrs.
  cbv iota beta. rewrite Hrep.
  erewrite sbind_run by (unfold lift; rewrite HX; reflexivity).
  erewrite sbind_run by (unfold lift; rewrite Hd; reflexivity).
  erewrite sbind_run by (unfold lift; rewrite Hs; reflexivity).
  unfold sret. eexists. split; [reflexivity|]. cbn. repeat split.
Qed.

Lemma Q2R_whole (n : Z) : Q2R (n # 1) = IZR n.
Proof. unfold Q2R; simpl. rewrite Rinv_1. apply Rmult_1_r. Qed.

(** The sequence model trained on one trace of five events of one
    activity: two feature names, five timesteps. *)
Lemma demo_prepare_run :
  exists pr p',
    @keras_rnn.prepare Demo.collaborators [Demo.trace_5] ∅ = (Ok pr, p') /\
    keras_rnn.p_feature_names pr
    = ["event:concept:name@A"; "succession:concept:name@A#A"] /\
    keras_rnn.p_max_len_trace pr = 5%nat /\
    hidden_neurons (keras_rnn.p_network pr) = 37.
Proof.
  destruct (@prepare_run Demo.collaborators [Demo.trace_5] ∅ 5 5 2
              (map (map Q2R) [[4; 3; 2; 1; 0]]%Q)
              (map (map (fun v => -1 + 2 * (ln (1 + v) / ln (1 + 4)))%R)
                 (map (map Q2R) [[4; 3; 2; 1; 0]]%Q))
              (ln (1 + 4)) (PList []) (PList [PStr "concept:name"]) (PList [])
              (PList []) (DesignMatrix [])
              ["event:concept:name@A"; "succession:concept:name@A#A"]
              [[[1; 1; 1; 1; 1]; [1; 1; 1; 1; 0]]])
    as (pr & Hrun & Hnames & HL & Hhidden).
  - vm_compute. reflexivity.
  - apply raw_labels_run; vm_compute; reflexivity.
  - apply normalize_remaining_time_ok.
    + unfold global_max, initial_max_value; simpl. rewrite !Q2R_whole.
      f_equal. eval_Rmax.
    + lra.
    + simpl. rewrite !Q2R_whole. repeat constructor; lra.
  - vm_compute. reflexivity.
  - vm_compute. reflexivity.
  - vm_compute. reflexivity.
  - reflexivity.
  - reflexivity.
  - exists pr. eexists. split; [exact Hrun|]. split; [exact Hnames|].
    split; [exact HL|]. rewrite Hhidden. reflexivity.
Qed.

Lemma train_hidden_neurons_witness :
  exists pr p',
    @keras_rnn.prepare Demo.collaborators [Demo.trace_5] ∅ = (Ok pr, p') /\
    np_shape_2 (keras_rnn.p_X pr) = Ok 5%nat /\
    hidden_neurons (keras_rnn.p_network pr) = Z.min (py_int (inject_Z 5 * 7.5)) 50 /\
    dense_units (keras_rnn.p_network pr) = 5%nat.
Proof.
  destruct demo_prepare_run as (pr & p' & Hrun & _ & HL & _).
  destruct (@train_hidden_neurons Demo.collaborators _ _ _ _ Hrun)
    as (_ & Hshape & Hhidden & Hdense & _).
  exists pr, p'. rewrite HL in *. repeat split; assumption.
Defined.

(** C5 as stated fails: on that log the feature width is 2 and the code
    asks for 37 hidden units, which is neither [min(round(7.5 * 2), 50) = 15]
    nor, with the number of timesteps for the width,
    [min(round(7.5 * 5), 50) = 38]. *)
Lemma train_hidden_neurons_not_rounded_feature_width :
  exists pr p',
    @keras_rnn.prepare Demo.collaborators [Demo.trace_5] ∅ = (Ok pr, p') /\
    hidden_neurons (keras_rnn.p_network pr) = 37 /\
    hidden_neurons (keras_rnn.p_network pr)
    <> Z.min (py_round
                (inject_Z (Z.of_nat (length (keras_rnn.p_feature_names pr))) * 7.5)) 50 /\
    hidden_neurons (keras_rnn.p_network pr)
    <> Z.min (py_round
                (inject_Z (Z.of_nat (keras_rnn.p_max_len_trace pr)) * 7.5)) 50.
Proof.
  destruct demo_prepare_run as (pr & p' & Hrun & Hnames & HL & Hhidden).
  exists pr, p'. rewrite Hnames, HL, Hhidden.
  split; [exact Hrun|]. split; [reflexivity|]. split; vm_compute; discriminate.
Qed.

(** * Further properties of the code *)

(** ** Label normalisation *)

Lemma exp_le_mono (x y : R) : (x <= y)%R -> (exp x <= exp y)%R.
Proof.
  intros [Hlt| ->]; [left; apply exp_increasing; exact Hlt|apply Rle_refl].
Qed.

(** X1. [reconstruct_value] never returns a negative prediction for a
    non-negative [log_max_value]: an output of the regressor at or below
    -1 is mapped to 0, and an output up to 1 to at most
    [exp(log_max_value) - 1], the maximum raw value of the training
    labels. *)
Theorem reconstruct_value_range (y log_max_value : R) :
  (0 <= log_max_value)%R ->
  (0 <= reconstruct_value y log_max_value)%R /\
  ((y <= -1)%R -> reconstruct_value y log_max_value = 0%R) /\
  ((y <= 1)%R -> (reconstruct_value y log_max_value <= exp log_max_value - 1)%R).
Proof.
  intros Hl. unfold reconstruct_value.
  destruct (Rlt_dec y (-1)) as [Hlt|Hge].
  - replace ((-1 + 1.0) / 2.0 * log_max_value)%R with 0%R by lra.
    rewrite exp_0. repeat split; intros; try lra.
    pose proof (exp_le_mono 0 log_max_value Hl) as He. rewrite exp_0 in He. lra.
  - assert (0 <= (y + 1.0) / 2.0)%R as Hhalf by lra.
    assert (0 <= (y + 1.0) / 2.0 * log_max_value)%R as Hpos
        by (apply Rmult_le_pos; assumption).
    pose proof (exp_le_mono _ _ Hpos) as He. rewrite exp_0 in He.
    split; [lra|]. split.
    + intros Hy. assert (y = (-1)%R) as -> by lra.
      replace ((-1 + 1.0) / 2.0 * log_max_value)%R with 0%R by lra.
      rewrite exp_0. lra.
    + intros Hy.
      assert ((y + 1.0) / 2.0 * log_max_value <= log_max_value)%R as Hle.
      { assert ((y + 1.0) / 2.0 <= 1)%R as Hh by lra.
        pose proof (Rmult_le_compat_r log_max_value _ _ Hl Hh). lra. }
      pose proof (exp_le_mono _ _ Hle). lra.
Qed.

Lemma reconstruct_value_range_witness :
  (0 <= reconstruct_value (-3) 2)%R /\
  reconstruct_value (-3) 2 = 0%R /\
  (reconstruct_value (1 / 2) 2 <= exp 2 - 1)%R.
Proof.
  destruct (reconstruct_value_range (-3) 2 ltac:(lra)) as (H1 & H2 & _).
  destruct (reconstruct_value_range (1 / 2) 2 ltac:(lra)) as (_ & _ & H3).
  split; [exact H1|]. split; [apply H2; lra|apply H3; lra].
Defined.

Lemma fold_left_Rmax_ge (l : list R) (x : R) :
  (x <= fold_left Rmax l x)%R /\ Forall (fun v => v <= fold_left Rmax l x)%R l.
Proof.
  revert x; induction l as [|a l IH]; intros x; simpl.
  - split; [apply Rle_refl|constructor].
  - destruct (IH (Rmax x a)) as [Hacc Hall].
    pose proof (Rmax_l x a). pose proof (Rmax_r x a).
    split; [lra|]. constructor; [lra|exact Hall].
Qed.

Lemma max_list_upper_bound (lst : list R) (m : R) :
  PyMath.max_list lst = Ok m -> Forall (fun v => v <= m)%R lst.
Proof.
  destruct lst as [|x lst]; simpl; [discriminate|]. intros [= <-].
  destruct (fold_left_Rmax_ge lst x) as [Hx Hall]. constructor; assumption.
Qed.

(** The global maximum bounds the accumulator it started from and every
    value of every list. *)
Lemma global_max_loop_upper_bound (g : list (list R)) (m0 m : R) :
  foldM (fun max_value lst =>
           max_lst <- PyMath.max_list lst ;; Ok (Rmax max_value max_lst)) m0 g = Ok m ->
  (m0 <= m)%R /\ Forall (Forall (fun v => v <= m)%R) g.
Proof.
  revert m0; induction g as [|lst g IH]; simpl; intros m0 Hf.
  - injection Hf as <-. split; [apply Rle_refl|constructor].
  - destruct (PyMath.max_list lst) as [x|e] eqn:Hx; simpl in Hf; [|discriminate].
    destruct (IH _ Hf) as [Hacc Hall].
    pose proof (Rmax_l m0 x). pose proof (Rmax_r m0 x).
    split; [lra|]. constructor; [|exact Hall].
    eapply Forall_impl; [exact (max_list_upper_bound _ _ Hx)|].
    intros v Hv; simpl in Hv. lra.
Qed.

Lemma normalized_in_range (max_v v : R) :
  (0 < max_v)%R -> (0 <= v <= max_v)%R ->
  (-1 <= -1 + 2 * (ln (1 + v) / ln (1 + max_v)) <= 1)%R.
Proof.
  intros Hmax [Hv Hle].
  pose proof (ln_pos_of_gt_1 (1 + max_v) ltac:(lra)) as Hl.
  pose proof (ln_nonneg_of_ge_1 (1 + v) ltac:(lra)) as Hn.
  assert (ln (1 + v) <= ln (1 + max_v))%R as Hmono.
  { destruct Hle as [Hlt| ->]; [left; apply ln_increasing; lra|apply Rle_refl]. }
  set (a := ln (1 + v)) in *. set (b := ln (1 + max_v)) in *.
  assert (0 <= a / b)%R as Hq0.
  { apply Rmult_le_pos; [exact Hn|]. left. apply Rinv_0_lt_compat. exact Hl. }
  assert (a / b <= 1)%R as Hq1.
  { apply (Rmult_le_reg_r b); [exact Hl|].
    replace (a / b * b)%R with a by (field; lra). lra. }
  lra.
Qed.

(** X2. On non-negative raw values whose global maximum is at least 1
    (one second), [normalize_remaining_time] returns, and returns only
    values between -1 and 1; the raw value 0 is normalised to -1 and the
    maximum to 1. The bound keeps [1.0 + max_value] away from 1, where the
    floating-point sum of a tiny maximum rounds to 1.0 and the division
    raises. *)
Theorem normalize_remaining_time_range (g : list (list R)) (max_v : R) :
  global_max g = Ok max_v -> (1 <= max_v)%R ->
  Forall (Forall (fun v => 0 <= v)%R) g ->
  exists ret,
    normalize_remaining_time g = Ok (ret, ln (1 + max_v)) /\
    Forall (Forall (fun y => -1 <= y <= 1)%R) ret /\
    normalize_value (ln (1 + max_v)) 0 = Ok (-1)%R /\
    normalize_value (ln (1 + max_v)) max_v = Ok 1%R.
Proof.
  intros Hg Hone Hpos.
  assert (0 < max_v)%R as Hmax by lra.
  pose proof (ln_pos_of_gt_1 (1 + max_v) ltac:(lra)) as Hl.
  eexists. split; [apply normalize_remaining_time_ok; eassumption|].
  split; [|split].
  - destruct (global_max_loop_upper_bound _ _ _ Hg) as [_ Hub].
    apply Forall_fmap. apply Forall_forall. intros lst Hlst.
    apply Forall_fmap. apply Forall_forall. intros v Hv. simpl.
    apply normalized_in_range; [exact Hmax|]. split.
    + eapply Forall_forall in Hpos; [|exact Hlst].
      eapply Forall_forall in Hpos; [exact Hpos|exact Hv].
    + eapply Forall_forall in Hub; [|exact Hlst].
      eapply Forall_forall in Hub; [exact Hub|exact Hv].
  - rewrite normalize_value_ok by lra. f_equal.
    replace (1 + 0)%R with 1%R by lra. rewrite ln_1. lra.
  - rewrite normalize_value_ok by lra. f_equal. field. lra.
Qed.

Lemma normalize_remaining_time_range_witness :
  exists ret,
    normalize_remaining_time [[7; 100]; [0; 3]]%R = Ok (ret, ln (1 + 100)) /\
    Forall (Forall (fun y => -1 <= y <= 1)%R) ret.
Proof.
  destruct (normalize_remaining_time_range [[7; 100]; [0; 3]]%R 100)
    as (ret & Hrun & Hrange & _).
  - unfold global_max, initial_max_value; simpl. f_equal. eval_Rmax.
  - lra.
  - repeat constructor; lra.
  - exists ret. split; assumption.
Defined.

Lemma mapM_first_error {A B} (f : A -> result B) (e : exn) (l : list A) :
  Forall (fun x => (exists y, f x = Ok y) \/ f x = Err e) l ->
  Exists (fun x => f x = Err e) l ->
  mapM f l = Err e.
Proof.
  intros Hall Hex. induction Hall as [|x l Hx Hall IH]; [inversion Hex|].
  simpl. destruct Hx as [[y Hy]|Hx]; [|rewrite Hx; reflexivity].
  rewrite Hy; simpl. rewrite IH; [reflexivity|].
  inversion Hex as [? ? Hbad|? ? Hrest]; subst; [congruence|exact Hrest].
Qed.

Lemma global_max_loop_empty_list (g : list (list R)) (m0 : R) :
  [] ∈ g ->
  foldM (fun max_value lst =>
           max_lst <- PyMath.max_list lst ;; Ok (Rmax max_value max_lst)) m0 g
  = Err ValueError.
Proof.
  revert m0; induction g as [|lst g IH]; intros m0 Hin.
  - apply elem_of_nil in Hin. contradiction.
  - simpl. destruct lst as [|x lst]; [reflexivity|]. simpl.
    apply IH. apply elem_of_cons in Hin as [Heq|Hin]; [discriminate|exact Hin].
Qed.

(** X3. [normalize_remaining_time] raises [ValueError] when there is
    nothing to take a maximum of: on an empty list of cases (the logarithm
    of [1 - 10000000], the initial maximum) and whenever the list of some
    case is empty ([max] of an empty list). *)
Theorem normalize_remaining_time_empty (g : list (list R)) :
  g = [] \/ [] ∈ g -> normalize_remaining_time g = Err ValueError.
Proof.
  intros [-> |Hin]; unfold normalize_remaining_time, global_max.
  - simpl. unfold PyMath.log, initial_max_value.
    destruct (Rle_dec _ _) as [_|Hn]; [reflexivity|lra].
  - rewrite global_max_loop_empty_list by exact Hin. reflexivity.
Qed.

Lemma normalize_remaining_time_empty_witness :
  normalize_remaining_time [] = Err ValueError /\
  normalize_remaining_time [[3; 1]; []; [2]]%R = Err ValueError.
Proof.
  split.
  - apply normalize_remaining_time_empty. left. reflexivity.
  - apply normalize_remaining_time_empty. right.
    apply elem_of_cons. right. apply elem_of_cons. left. reflexivity.
Defined.

Lemma normalize_value_ok_or_value_error (lmv v : R) :
  lmv <> 0%R ->
  (exists y, normalize_value lmv v = Ok y) \/ normalize_value lmv v = Err ValueError.
Proof.
  intros Hl. unfold normalize_value, PyMath.log, PyMath.div.
  destruct (Rle_dec (v + 1.0) 0); simpl; [right; reflexivity|].
  destruct (Req_dec_T lmv 0); [contradiction|]. simpl. left. eauto.
Qed.

Lemma mapM_some_error {A B} (f : A -> result B) (l : list A) :
  Exists (fun x => exists e, f x = Err e) l -> exists e, mapM f l = Err e.
Proof.
  induction 1 as [x l [e He]|x l _ [e IH]]; simpl.
  - exists e. rewrite He. reflexivity.
  - destruct (f x) as [y|e']; simpl; [|eauto]. rewrite IH. simpl. eauto.
Qed.

(** X4. A raw value at or below -1 (an event that lies a second or more
    after the last event of its trace gives one) keeps
    [normalize_remaining_time] from returning, whatever the other values
    are; and when the global maximum is at least 1 the exception is
    [ValueError], from the logarithm of a number that is not positive. *)
Theorem normalize_remaining_time_negative (g : list (list R)) :
  Exists (Exists (fun v => v <= -1)%R) g ->
  (exists e, normalize_remaining_time g = Err e) /\
  (forall max_v, global_max g = Ok max_v -> (1 <= max_v)%R ->
                 normalize_remaining_time g = Err ValueError).
Proof.
  intros Hbad.
  assert (forall lmv v, (v <= -1)%R -> normalize_value lmv v = Err ValueError)
    as Hvalue.
  { intros lmv v Hv. unfold normalize_value, PyMath.log.
    destruct (Rle_dec (v + 1.0) 0) as [_|Hn]; [reflexivity|lra]. }
  split.
  - unfold normalize_remaining_time.
    destruct (global_max g) as [max_v|e]; simpl; [|eauto].
    destruct (PyMath.log (1.0 + max_v)) as [lmv|e]; simpl; [|eauto].
    destruct (mapM_some_error (mapM (normalize_value lmv)) g) as [e He].
    { eapply Exists_impl; [exact Hbad|]. intros lst Hlst; simpl in Hlst.
      apply mapM_some_error. eapply Exists_impl; [exact Hlst|].
      intros v Hv; simpl in Hv. exists ValueError. apply Hvalue. exact Hv. }
    rewrite He. simpl. eauto.
  - intros max_v Hg Hone.
    pose proof (ln_pos_of_gt_1 (1 + max_v) ltac:(lra)) as Hl.
    unfold normalize_remaining_time. rewrite Hg; simpl.
    replace (1.0 + max_v)%R with (1 + max_v)%R by lra.
    rewrite math_log_pos by lra; simpl.
    rewrite (mapM_first_error _ ValueError); [reflexivity| |].
    + apply Forall_forall. intros lst _.
      destruct (mapM (normalize_value (ln (1 + max_v))) lst) as [ys|e] eqn:Hm; [eauto|].
      right. f_equal.
      assert (forall l e', mapM (normalize_value (ln (1 + max_v))) l = Err e' ->
                           e' = ValueError) as Honly.
      { induction l as [|v l IH]; simpl; intros e' He; [discriminate|].
        destruct (normalize_value_ok_or_value_error (ln (1 + max_v)) v ltac:(lra))
          as [[y Hy]|Hv]; rewrite ?Hy, ?Hv in He; simpl in He.
        - destruct (mapM _ l) as [ys|e2]; simpl in He; [discriminate|].
          injection He as <-. apply IH. reflexivity.
        - injection He as <-. reflexivity. }
      apply (Honly _ _ Hm).
    + eapply Exists_impl; [exact Hbad|]. intros lst Hlst; simpl in Hlst.
      apply mapM_first_error.
      * apply Forall_forall. intros v _.
        apply normalize_value_ok_or_value_error. lra.
      * eapply Exists_impl; [exact Hlst|]. intros v Hv; simpl in Hv.
        apply Hvalue. exact Hv.
Qed.

Lemma normalize_remaining_time_negative_witness :
  normalize_remaining_time [[7; -5; 0]; [3; 0]]%R = Err ValueError.
Proof.
  apply (proj2 (normalize_remaining_time_negative [[7; -5; 0]; [3; 0]]%R
                  ltac:(constructor; apply Exists_cons_tl; constructor; lra)) 7%R).
  - unfold global_max, initial_max_value; simpl. f_equal. eval_Rmax.
  - lra.
Defined.

(** ** Grouping *)

Lemma py_getitem_nat_ge {A} (l : list A) (i : nat) :
  (length l <= i)%nat -> py_getitem l (Z.of_nat i) = Err IndexError.
Proof.
  intros Hi. unfold py_getitem, py_index.
  destruct (Z.leb_spec 0 (Z.of_nat i)); [|lia].
  destruct (Z.ltb_spec (Z.of_nat i) (Z.of_nat (length l))); [lia|].
  destruct (Z.ltb_spec (Z.of_nat i) 0); [lia|].
  cbn [andb]. rewrite andb_false_r. reflexivity.
Qed.

Section GroupingEdges.
Context {A : Type}.
Implicit Types (remaining_time rem : list A) (acc : list (list A)).

Lemma group_case_loop_total remaining_time (L len_ct : nat) :
  forall n i rem added acc j,
    (j + n <= length remaining_time)%nat ->
    exists acc',
      group_case_loop remaining_time L len_ct n i rem added acc j
      = Ok (acc', (j + n)%nat).
Proof.
  induction n as [|n IH]; intros i rem added acc j Hj.
  - exists acc. simpl. rewrite Nat.add_0_r. reflexivity.
  - destruct (lookup_lt_is_Some_2 remaining_time j ltac:(lia)) as [x Hx].
    cbn [group_case_loop]. rewrite (py_getitem_nat _ _ _ Hx). cbn [rbind].
    replace (j + S n)%nat with (S j + n)%nat by lia.
    destruct (_ =? _); [apply IH; lia|].
    destruct (_ && _); [|apply IH; lia].
    unfold pad_with_last. rewrite pad_loop_last. cbn [rbind]. apply IH. lia.
Qed.

Lemma group_case_loop_short remaining_time (L len_ct : nat) :
  forall n i rem added acc j,
    (j <= length remaining_time < j + n)%nat ->
    group_case_loop remaining_time L len_ct n i rem added acc j = Err IndexError.
Proof.
  induction n as [|n IH]; intros i rem added acc j Hj; [lia|].
  cbn [group_case_loop].
  destruct (decide (j < length remaining_time)%nat) as [Hlt|Hge].
  - destruct (lookup_lt_is_Some_2 remaining_time j Hlt) as [x Hx].
    rewrite (py_getitem_nat _ _ _ Hx). cbn [rbind].
    destruct (_ =? _); [apply IH; lia|].
    destruct (_ && _); [|apply IH; lia].
    unfold pad_with_last. rewrite pad_loop_last. cbn [rbind]. apply IH. lia.
  - rewrite py_getitem_nat_ge by lia. reflexivity.
Qed.

Lemma group_fold_total_or_short remaining_time (L : nat) :
  forall (change_indexes : list (list nat)) acc (j : nat),
    (j <= length remaining_time)%nat ->
    let r := foldM (fun '(rem_time_grouped, j) ct =>
                      group_case_loop remaining_time L (length ct) (length ct) 0 []
                        false rem_time_grouped j)
                   (acc, j) change_indexes in
    ((j + sum_list_with length change_indexes <= length remaining_time)%nat ->
     exists out, r = Ok out) /\
    ((length remaining_time < j + sum_list_with length change_indexes)%nat ->
     r = Err IndexError).
Proof.
  induction change_indexes as [|ct cis IH]; intros acc j Hj; cbn [foldM sum_list_with].
  - split; [eauto|lia].
  - destruct (decide (j + length ct <= length remaining_time)%nat) as [Hfit|Hshort].
    + destruct (group_case_loop_total remaining_time L (length ct) (length ct) 0 []
                  false acc j Hfit) as [acc' ->].
      cbn [rbind]. destruct (IH acc' (j + length ct)%nat Hfit) as [Hok Herr].
      split; intros Hsum; [apply Hok|apply Herr]; lia.
    + rewrite group_case_loop_short by lia. cbn [rbind]. split; [lia|reflexivity].
Qed.

(** X5. [group_remaining_time] walks the flat list by a running position:
    whatever the index values and [max_len_trace] are, it returns when the
    flat list has at least as many values as the groups have indices, and
    raises [IndexError] when it has fewer. *)
Theorem group_remaining_time_bounds (change_indexes : list (list nat))
    remaining_time (max_len_trace : nat) :
  ((sum_list_with length change_indexes <= length remaining_time)%nat ->
   exists groups,
     group_remaining_time change_indexes remaining_time max_len_trace = Ok groups) /\
  ((length remaining_time < sum_list_with length change_indexes)%nat ->
   group_remaining_time change_indexes remaining_time max_len_trace = Err IndexError).
Proof.
  unfold group_remaining_time.
  destruct (group_fold_total_or_short remaining_time max_len_trace change_indexes
              [] 0 ltac:(lia)) as [Hok Herr].
  split; intros Hsum.
  - destruct (Hok Hsum) as [[groups j] ->]. cbn [rbind]. eauto.
  - rewrite (Herr Hsum). reflexivity.
Qed.

Lemma group_fold_count remaining_time (L : nat) :
  (1 <= L)%nat ->
  forall (change_indexes : list (list nat)) acc (j : nat),
    (j + sum_list_with length change_indexes <= length remaining_time)%nat ->
    exists out,
      foldM (fun '(rem_time_grouped, j) ct =>
               group_case_loop remaining_time L (length ct) (length ct) 0 [] false
                 rem_time_grouped j)
            (acc, j) change_indexes
      = Ok (acc ++ out, (j + sum_list_with length change_indexes)%nat) /\
      length out = length (filter (fun ct => ct <> []) change_indexes) /\
      Forall (fun s => length s = L) out.
Proof.
  intros HL. induction change_indexes as [|ct cis IH]; intros acc j Hcover;
    cbn [foldM sum_list_with] in *.
  - exists []. rewrite app_nil_r, Nat.add_0_r. repeat split. constructor.
  - destruct ct as [|c ct].
    + cbn [length group_case_loop rbind].
      destruct (IH acc j ltac:(simpl in Hcover; lia)) as (out & Hrun & Hlen & Hall).
      exists out. rewrite Hrun. split; [f_equal|].
      rewrite filter_cons_False by (intros Hne; apply Hne; reflexivity).
      split; assumption.
    + rewrite (group_case_loop_spec remaining_time L (length (c :: ct)) HL
                 (length (c :: ct)) 0 [] false acc j); try lia; try reflexivity.
      2:{ symmetry. apply bool_decide_eq_false. lia. }
      rewrite (bool_decide_eq_false_2 (L <= 0)%nat) by lia.
      cbn [length rbind app].
      set (s := case_sequence L (take (S (length ct)) (drop j remaining_time))).
      destruct (IH (acc ++ [s]) (j + S (length ct))%nat
                  ltac:(cbn [length] in Hcover; lia)) as (out & Hrun & Hlen & Hall).
      exists (s :: out). rewrite Hrun. split.
      { apply Ok_pair; [rewrite <- app_assoc; reflexivity|cbn [length]; lia]. }
      rewrite filter_cons_True by discriminate. split; [simpl; lia|].
      constructor; [|exact Hall]. apply case_sequence_length.
      intros Hnil. apply (f_equal length) in Hnil.
      rewrite length_take, length_drop in Hnil. cbn [length] in Hnil, Hcover. lia.
Qed.

(** X6. An empty group of change indexes yields no sequence: for
    [max_len_trace >= 1] and a flat list that is long enough,
    [group_remaining_time] returns one sequence per non-empty group, each
    of length [max_len_trace], so the sequences after an empty group no
    longer stand at the position of their case. *)
Theorem group_remaining_time_skips_empty_groups (change_indexes : list (list nat))
    remaining_time (max_len_trace : nat) :
  (1 <= max_len_trace)%nat ->
  (sum_list_with length change_indexes <= length remaining_time)%nat ->
  exists groups,
    group_remaining_time change_indexes remaining_time max_len_trace = Ok groups /\
    length groups = length (filter (fun ct => ct <> []) change_indexes) /\
    Forall (fun s => length s = max_len_trace) groups.
Proof.
  intros HL Hcover. unfold group_remaining_time.
  destruct (group_fold_count remaining_time max_len_trace HL change_indexes [] 0
              ltac:(simpl; lia)) as (out & -> & Hlen & Hall).
  exists out. cbn [rbind fst app]. repeat split; assumption.
Qed.

End GroupingEdges.

Lemma group_remaining_time_bounds_witness :
  (exists groups,
     group_remaining_time [[0; 1; 2]; [3]]%nat [10; 11; 12; 13] 2 = Ok groups) /\
  group_remaining_time [[0; 1; 2]; [3]]%nat [10; 11; 12] 2 = Err IndexError.
Proof.
  split.
  - apply (proj1 (group_remaining_time_bounds [[0; 1; 2]; [3]]%nat [10; 11; 12; 13] 2)).
    simpl; lia.
  - apply (proj2 (group_remaining_time_bounds [[0; 1; 2]; [3]]%nat [10; 11; 12] 2)).
    simpl; lia.
Defined.

Lemma group_remaining_time_skips_empty_groups_witness :
  exists groups,
    group_remaining_time [[0; 1; 2]; []; [3; 4]]%nat [10; 11; 12; 13; 14] 3
    = Ok groups /\
    length groups = 2%nat /\
    Forall (fun s => length s = 3%nat) groups.
Proof.
  destruct (group_remaining_time_skips_empty_groups
              [[0; 1; 2]; []; [3; 4]]%nat [10; 11; 12; 13; 14] 3)
    as (groups & Hrun & Hlen & Hall).
  - lia.
  - simpl; lia.
  - exists groups. split; [exact Hrun|]. split; [exact Hlen|exact Hall].
Defined.

Section GroupingZero.
Context {A : Type}.
Implicit Types (remaining_time rem : list A) (acc : list (list A)).

Lemma group_case_loop_zero remaining_time (len_ct : nat) :
  forall n i rem acc j,
    (i + n = len_ct)%nat -> (j + n <= length remaining_time)%nat ->
    group_case_loop remaining_time 0 len_ct n i rem false acc j
    = Ok (acc ++ match n with
                 | O => []
                 | S _ => [rem ++ take n (drop j remaining_time)]
                 end,
          (j + n)%nat).
Proof.
  induction n as [|n IH]; intros i rem acc j Hlen Hj.
  - simpl. rewrite app_nil_r, Nat.add_0_r. reflexivity.
  - destruct (lookup_lt_is_Some_2 remaining_time j ltac:(lia)) as [x Hx].
    cbn [group_case_loop]. rewrite (py_getitem_nat _ _ _ Hx). cbn [rbind].
    rewrite (drop_S _ _ _ Hx). cbn [take].
    destruct (Z.eqb_spec (Z.of_nat i) (Z.of_nat 0 - 1)) as [Hneg|_]; [lia|].
    destruct (Z.eqb_spec (Z.of_nat i) (Z.of_nat len_ct - 1)) as [Hlast|Hmore];
      cbn [andb negb].
    + assert (n = 0)%nat as -> by lia.
      unfold pad_with_last.
      replace (0 - length (rem ++ [x]))%nat with 0%nat by lia.
      cbn [pad_loop rbind group_case_loop]. rewrite take_0.
      apply Ok_pair; [reflexivity|lia].
    + rewrite IH by lia. destruct n as [|n]; [lia|].
      apply Ok_pair; [|lia]. rewrite <- app_assoc. reflexivity.
Qed.

(** X7. With [max_len_trace = 0] nothing is cut or padded: for non-empty
    groups and a flat list that is long enough, [group_remaining_time]
    returns every case with all its values, the runs of the flat list in
    order, so the sequences are not of length [max_len_trace]. *)
Theorem group_remaining_time_zero (change_indexes : list (list nat)) remaining_time :
  Forall (fun ct => ct <> []) change_indexes ->
  (sum_list_with length change_indexes <= length remaining_time)%nat ->
  group_remaining_time change_indexes remaining_time 0
  = Ok (segments (map length change_indexes) remaining_time 0).
Proof.
  intros Hne Hcover. unfold group_remaining_time.
  assert (forall cis acc j,
             Forall (fun ct => ct <> []) cis ->
             (j + sum_list_with length cis <= length remaining_time)%nat ->
             foldM (fun '(rem_time_grouped, j) (ct : list nat) =>
                      group_case_loop remaining_time 0 (length ct) (length ct) 0 []
                        false rem_time_grouped j)
                   (acc, j) cis
             = Ok (acc ++ segments (map length cis) remaining_time j,
                   (j + sum_list_with length cis)%nat)) as Hfold.
  { induction cis as [|ct cis IH]; intros acc j Hall Hsum; cbn [foldM sum_list_with] in *.
    - simpl. rewrite app_nil_r, Nat.add_0_r. reflexivity.
    - apply Forall_cons in Hall as [Hct Hall].
      rewrite group_case_loop_zero by lia. cbn [rbind].
      destruct ct as [|c ct]; [congruence|]. cbn [length app].
      rewrite IH by (try assumption; cbn [length] in Hsum; lia).
      apply Ok_pair; [|cbn [length]; lia].
      rewrite <- app_assoc. reflexivity. }
  rewrite Hfold by (try assumption; simpl; lia). reflexivity.
Qed.

End GroupingZero.

Lemma group_remaining_time_zero_witness :
  group_remaining_time [[0; 1; 2]; [3]; [4; 5]]%nat [10; 11; 12; 13; 14; 15] 0
  = Ok [[10; 11; 12]; [13]; [14; 15]].
Proof.
  apply (group_remaining_time_zero [[0; 1; 2]; [3]; [4; 5]]%nat
           [10; 11; 12; 13; 14; 15]).
  - repeat constructor; discriminate.
  - simpl; lia.
Defined.

(** ** Label extractor *)

Lemma pad_loop_length {A} (n : nat) (row row' : list A) :
  pad_loop n row = Ok row' -> length row' = (length row + n)%nat.
Proof.
  revert row; induction n as [|n IH]; intros row Hp; simpl in Hp.
  - injection Hp as <-. lia.
  - destruct (py_getitem row (-1)) as [x|?]; simpl in Hp; [|discriminate].
    apply IH in Hp. rewrite length_app in Hp. simpl in Hp. lia.
Qed.

Section LabelExtractorEdges.
Context `{Collaborators}.
Implicit Types (tr : trace) (lg : log) (p : option params).

Lemma remaining_time_loop_length (k b w d : pyval) tr (L : nat) :
  forall (rest : trace) (index : nat) (row row' : list Q),
    remaining_time_loop k b w d tr L index rest row = Ok row' ->
    length row' = (length row + Nat.min (length rest) (L - index))%nat.
Proof.
  induction rest as [|e rest IH]; intros index row row' Hl; simpl in Hl.
  - injection Hl as <-. simpl. lia.
  - destruct (Z.leb_spec (Z.of_nat L) (Z.of_nat index)) as [Hge|Hlt].
    + injection Hl as <-. replace (L - index)%nat with 0%nat by lia.
      rewrite Nat.min_0_r. lia.
    + destruct (remaining_time_at k b w d tr index) as [v|?]; simpl in Hl;
        [|discriminate].
      apply IH in Hl. rewrite length_app in Hl. cbn [length] in *. lia.
Qed.

(** X8. Whatever the events hold, a call of
    [get_remaining_time_from_log] that returns gives one list per trace, in
    the order of the log, and each list has exactly [max_len_trace]
    entries. *)
Theorem get_remaining_time_from_log_shape lg (max_len_trace : nat) p
    (rows : list (list Q)) :
  get_remaining_time_from_log lg max_len_trace p = Ok rows ->
  length rows = length lg /\
  Forall (fun row => length row = max_len_trace) rows.
Proof.
  unfold get_remaining_time_from_log. intros Hrows.
  split; [eapply mapM_ok_length; exact Hrows|].
  eapply mapM_ok_Forall; [|exact Hrows].
  intros tr row. unfold remaining_time_of_trace.
  destruct (remaining_time_loop _ _ _ _ _ _ _ _ _) as [row0|?] eqn:Hloop;
    cbn [rbind]; [|discriminate].
  intros Hpad. apply remaining_time_loop_length in Hloop.
  apply pad_loop_length in Hpad. simpl in Hloop. lia.
Qed.

(** X9. [get_remaining_time_from_log] raises on an empty trace when
    [max_len_trace >= 1]: the padding loop reads the last element of an
    empty list, an [IndexError]; so a log that holds an empty trace
    cannot be labelled. *)
Theorem get_remaining_time_from_log_empty_trace lg (max_len_trace : nat) p :
  (1 <= max_len_trace)%nat ->
  get_remaining_time_from_log ([] :: lg) max_len_trace p = Err IndexError /\
  ([] ∈ lg -> exists e, get_remaining_time_from_log lg max_len_trace p = Err e).
Proof.
  intros HL.
  assert (forall q, remaining_time_of_trace q max_len_trace [] = Err IndexError)
    as Hempty.
  { intros q. unfold remaining_time_of_trace. cbn [remaining_time_loop rbind].
    unfold pad_with_last. cbn [length]. rewrite Nat.sub_0_r.
    destruct max_len_trace as [|n]; [lia|]. cbn [pad_loop].
    rewrite py_getitem_empty. reflexivity. }
  unfold get_remaining_time_from_log. split.
  - cbn [mapM]. rewrite Hempty. reflexivity.
  - intros Hin. induction lg as [|tr lg IH].
    + apply elem_of_nil in Hin. contradiction.
    + cbn [mapM].
      destruct (remaining_time_of_trace _ max_len_trace tr) as [row|e] eqn:Hrow;
        cbn [rbind]; [|eauto].
      apply elem_of_cons in Hin as [<-|Hin]; [rewrite Hempty in Hrow; discriminate|].
      destruct (IH Hin) as [e ->]. cbn [rbind]. eauto.
Qed.

(** X10. With [max_len_trace = 0] no event is read: every trace, empty
    or not, with or without timestamps, gets the empty list. *)
Theorem get_remaining_time_from_log_zero lg p :
  get_remaining_time_from_log lg 0 p = Ok (map (fun _ => []) lg).
Proof.
  unfold get_remaining_time_from_log. apply mapM_ok_map.
  apply Forall_forall. intros tr _. unfold remaining_time_of_trace.
  destruct tr as [|e tr]; reflexivity.
Qed.

(** X11. When the last event of a non-empty trace has no entry under the
    timestamp key, [get_remaining_time_from_log] raises [KeyError] at the
    first event already, for [max_len_trace >= 1]: every entry is measured
    against the last event. *)
Theorem get_remaining_time_from_log_no_timestamp lg tr (last_ev : event)
    (key : string) (max_len_trace : nat) p :
  let parameters := match p with None => ∅ | Some q => q end in
  (1 <= max_len_trace)%nat ->
  param_or parameters PARAMETER_CONSTANT_TIMESTAMP_KEY (PStr DEFAULT_TIMESTAMP_KEY)
    = PStr key ->
  last tr = Some last_ev -> last_ev !! key = None ->
  get_remaining_time_from_log (tr :: lg) max_len_trace p = Err KeyError.
Proof.
  intros parameters HL Hkey Hlast Hmissing.
  unfold get_remaining_time_from_log. fold parameters. cbn [mapM].
  unfold remaining_time_of_trace. rewrite Hkey.
  destruct tr as [|e0 tr']; [discriminate|]. cbn [remaining_time_loop].
  destruct (Z.leb_spec (Z.of_nat max_len_trace) (Z.of_nat 0)) as [Hle|_]; [lia|].
  unfold remaining_time_at.
  change (py_getitem (e0 :: tr') (Z.of_nat 0)) with (@Ok event e0). cbn [rbind].
  rewrite (py_getitem_minus_1 _ _ Hlast).
  unfold event_getitem.
  destruct (e0 !! key); cbn [rbind]; [|reflexivity].
  rewrite Hmissing. reflexivity.
Qed.

End LabelExtractorEdges.

Lemma get_remaining_time_from_log_shape_witness :
  length [[12; 7; 0; 0; 0]; [3; 0; 0; 0; 0]]%Q = 2%nat /\
  Forall (fun row => length row = 5%nat) [[12; 7; 0; 0; 0]; [3; 0; 0; 0; 0]]%Q.
Proof.
  apply (@get_remaining_time_from_log_shape Demo.collaborators
           [Demo.trace_A; [Demo.ev "A" 1; Demo.ev "B" 4]] 5 None).
  vm_compute. reflexivity.
Defined.

Lemma get_remaining_time_from_log_empty_trace_witness :
  @get_remaining_time_from_log Demo.collaborators [[]; Demo.trace_A] 1 None
  = Err IndexError /\
  exists e,
    @get_remaining_time_from_log Demo.collaborators [Demo.trace_A; []] 1 None = Err e.
Proof.
  split.
  - apply (@get_remaining_time_from_log_empty_trace Demo.collaborators
             [Demo.trace_A] 1 None). lia.
  - apply (@get_remaining_time_from_log_empty_trace Demo.collaborators
             [Demo.trace_A; []] 1 None); [lia|].
    apply elem_of_cons. right. apply elem_of_cons. left. reflexivity.
Defined.

Lemma get_remaining_time_from_log_no_timestamp_witness :
  @get_remaining_time_from_log Demo.collaborators
    [[Demo.ev "A" 0; {["concept:name" := PStr "B"]}]; Demo.trace_A] 3 None
  = Err KeyError.
Proof.
  apply (@get_remaining_time_from_log_no_timestamp Demo.collaborators
           [Demo.trace_A] [Demo.ev "A" 0; {["concept:name" := PStr "B"]}]
           {["concept:name" := PStr "B"]} "time:timestamp" 3 None).
  - lia.
  - vm_compute. reflexivity.
  - reflexivity.
  - vm_compute. reflexivity.
Defined.

Lemma StronglySorted_lookup_le (l : list Z) (i j : nat) (a b : Z) :
  StronglySorted Z.le l -> (i <= j)%nat ->
  l !! i = Some a -> l !! j = Some b -> a <= b.
Proof.
  intros Hs. revert i j. induction Hs as [|x l Hs IH Hx]; intros i j Hij Hi Hj.
  - discriminate.
  - destruct i as [|i], j as [|j]; simpl in Hi, Hj; try lia.
    + injection Hi as <-. injection Hj as <-. lia.
    + injection Hi as <-. eapply Forall_forall in Hx; [exact Hx|].
      eapply list_elem_of_lookup_2; exact Hj.
    + eapply IH; [|exact Hi|exact Hj]. lia.
Qed.

Lemma wall_clock_seconds_antitone (t_last t t' : Z) :
  t <= t' ->
  (Qred ((t_last - t') # 1000000) <= Qred ((t_last - t) # 1000000))%Q.
Proof.
  intros Hle. rewrite !Qred_correct. unfold Qle; simpl. lia.
Qed.

Lemma mapM_Forall2_Forall {A B C} (f : A -> result B) (P : B -> Prop)
    (l : list A) (vs : list C) (R : A -> C -> Prop) :
  (forall x v, R x v -> exists y, f x = Ok y /\ P y) ->
  Forall2 R l vs ->
  exists ys, mapM f l = Ok ys /\ length ys = length l /\ Forall P ys.
Proof.
  intros Hf. induction 1 as [|x v l vs Hxv _ (ys & Hrun & Hlen & Hys)].
  - exists []. repeat split. constructor.
  - destruct (Hf x v Hxv) as (y & Hy & HP).
    exists (y :: ys). split; [simpl; rewrite Hy; simpl; rewrite Hrun; reflexivity|].
    split; [simpl; rewrite Hlen; reflexivity|]. constructor; assumption.
Qed.

(** The list of one trace in timestamp order. *)
Lemma remaining_time_of_sorted_trace `{Collaborators} (p : params) (key : string)
    (tr : trace) (ts : list Z) (max_len_trace : nat) :
  param_or p PARAMETER_CONSTANT_TIMESTAMP_KEY (PStr DEFAULT_TIMESTAMP_KEY) = PStr key ->
  truthy (param_or p "business_hours" (PBool false)) = false ->
  tr <> [] ->
  Forall2 (fun ev t => ev !! key = Some (PTime t)) tr ts ->
  StronglySorted Z.le ts ->
  exists row,
    remaining_time_of_trace p max_len_trace tr = Ok row /\
    Forall (fun q => 0 <= q)%Q row /\
    (forall i j qi qj, (i <= j)%nat -> row !! i = Some qi -> row !! j = Some qj ->
                       (qj <= qi)%Q).
Proof.
  intros Hkey Hwall Hnonempty Hts Hsorted.
  pose proof (Forall2_length _ _ _ Hts) as Hlength.
  destruct (last ts) as [t_last|] eqn:Hlast.
  2:{ apply last_None in Hlast. subst ts. destruct tr; [congruence|discriminate]. }
  set (f := fun t => Qred ((t_last - t) # 1000000)).
  assert (ts !! (length ts - 1)%nat = Some t_last) as Hl.
  { rewrite <- Hlast. symmetry. rewrite last_lookup. f_equal. lia. }
  pose proof (lookup_lt_Some _ _ _ Hl) as Hlen.
  assert (forall i t, ts !! i = Some t -> t <= t_last) as Hmax.
  { intros i t Hi. pose proof (lookup_lt_Some _ _ _ Hi).
    eapply (StronglySorted_lookup_le ts i (length ts - 1)); eauto. lia. }
  assert (f t_last = 0%Q) as Hzero.
  { unfold f. rewrite Z.sub_diag. reflexivity. }
  (* entry [i] of the row, by the timestamp it is computed from *)
  assert (forall i q,
             (map f (take max_len_trace ts)
              ++ replicate (max_len_trace - length ts) (f t_last)) !! i = Some q ->
             exists t, q = f t /\ t <= t_last /\
                       ((ts !! i = Some t) \/ (t = t_last /\ (length ts <= i)%nat)))
    as Hentry.
  { intros i q Hq. apply lookup_app_Some in Hq as [Hq|[Hge Hq]].
    - rewrite list_lookup_fmap in Hq.
      destruct (take max_len_trace ts !! i) as [t|] eqn:Ht; [|discriminate].
      injection Hq as <-. apply lookup_take_Some in Ht as [Ht _].
      exists t. split; [reflexivity|]. split; [eapply Hmax; exact Ht|]. left. exact Ht.
    - apply lookup_replicate in Hq as [-> Hi].
      rewrite length_map, length_take in Hge.
      exists t_last. split; [reflexivity|]. split; [lia|]. right. split; [reflexivity|].
      lia. }
  eexists. split.
  { rewrite (remaining_time_row key _ _ _ tr ts t_last Hts Hlast p max_len_trace
               Hkey eq_refl eq_refl eq_refl).
    reflexivity. }
  assert (seconds_to_last (param_or p "business_hours" (PBool false))
            (param_or p "worktiming" (PList [PInt 7; PInt 17]))
            (param_or p "weekends" (PList [PInt 6; PInt 7])) t_last = f) as ->.
  { unfold seconds_to_last. rewrite Hwall. reflexivity. }
  split.
  - apply Forall_forall. intros q Hq. apply list_elem_of_lookup in Hq as [i Hq].
    destruct (Hentry i q Hq) as (t & -> & Ht & _).
    rewrite <- Hzero. apply wall_clock_seconds_antitone. exact Ht.
  - intros i j qi qj Hij Hi Hj.
    destruct (Hentry i qi Hi) as (ti & -> & Hti & Hci).
    destruct (Hentry j qj Hj) as (tj & -> & Htj & Hcj).
    apply wall_clock_seconds_antitone.
    destruct Hcj as [Hcj|[-> _]]; [|exact Hti].
    destruct Hci as [Hci|[-> Hge]].
    + eapply StronglySorted_lookup_le; eauto.
    + pose proof (lookup_lt_Some _ _ _ Hcj). lia.
Qed.

(** X12. In wall-clock mode, on a log of non-empty traces whose events
    all carry a datetime under the timestamp key and whose timestamps do
    not decrease along each trace, [get_remaining_time_from_log] returns
    one list per trace, and in every list the labels are never negative
    and never increase, padding included. *)
Theorem remaining_time_sorted_trace `{Collaborators} (parameters : option params)
    (key : string) (lg : log) (tss : list (list Z)) (max_len_trace : nat) :
  let p := match parameters with None => ∅ | Some p => p end in
  param_or p PARAMETER_CONSTANT_TIMESTAMP_KEY (PStr DEFAULT_TIMESTAMP_KEY) = PStr key ->
  truthy (param_or p "business_hours" (PBool false)) = false ->
  Forall2 (fun tr ts =>
             tr <> [] /\
             Forall2 (fun ev t => ev !! key = Some (PTime t)) tr ts /\
             StronglySorted Z.le ts) lg tss ->
  exists rows,
    get_remaining_time_from_log lg max_len_trace parameters = Ok rows /\
    length rows = length lg /\
    Forall (fun row =>
              Forall (fun q => 0 <= q)%Q row /\
              (forall i j qi qj, (i <= j)%nat ->
                                 row !! i = Some qi -> row !! j = Some qj ->
                                 (qj <= qi)%Q)) rows.
Proof.
  intros p Hkey Hwall Hlog.
  unfold get_remaining_time_from_log. fold p.
  eapply mapM_Forall2_Forall; [|exact Hlog].
  intros tr ts (Hnonempty & Hts & Hsorted).
  exact (remaining_time_of_sorted_trace p key tr ts max_len_trace
           Hkey Hwall Hnonempty Hts Hsorted).
Qed.

Lemma remaining_time_sorted_trace_witness :
  exists rows,
    @get_remaining_time_from_log Demo.collaborators [Demo.trace_A; Demo.trace_5] 6 None
    = Ok rows /\
    length rows = 2%nat /\
    Forall (Forall (fun q => 0 <= q)%Q) rows.
Proof.
  destruct (@remaining_time_sorted_trace Demo.collaborators None "time:timestamp"
              [Demo.trace_A; Demo.trace_5]
              [[0; 5000000; 12000000]; [0; 1000000; 2000000; 3000000; 4000000]] 6)
    as (rows & Hrun & Hlen & Hrows).
  - reflexivity.
  - vm_compute. reflexivity.
  - repeat constructor; discriminate || reflexivity || lia.
  - exists rows. split; [exact Hrun|]. split; [exact Hlen|].
    eapply Forall_impl; [exact Hrows|]. intros row [Hpos _]. exact Hpos.
Defined.

(** ** Sequence tensor builder *)

Lemma mark_feature_binary dictionary_features rep ev_vector v' :
  Forall binary ev_vector ->
  mark_feature dictionary_features rep ev_vector = Ok v' -> Forall binary v'.
Proof.
  intros Hb. unfold mark_feature, py_setitem.
  destruct (dictionary_features !! rep) as [idx|]; [|intros [= <-]; exact Hb].
  destruct (py_index ev_vector idx) as [k|?]; simpl; [|discriminate].
  intros [= <-]. apply Forall_insert; [exact Hb|right; reflexivity].
Qed.

Lemma zero_pad_loop_Forall (P : list Z -> Prop) (n : nat) (X X' : list (list Z)) :
  (forall w, P (replicate w 0)) -> Forall P X ->
  zero_pad_loop n X = Ok X' -> Forall P X'.
Proof.
  intros Hzero. revert X; induction n as [|n IH]; intros X HX Hz; simpl in Hz.
  - injection Hz as <-. exact HX.
  - destruct (py_getitem X (-1)) as [r|?]; simpl in Hz; [|discriminate].
    eapply IH; [|exact Hz]. apply Forall_app. split; [exact HX|].
    repeat constructor. apply Hzero.
Qed.

Lemma np_transpose_binary (X : list (list Z)) :
  Forall (Forall binary) X -> Forall (Forall binary) (np_transpose X).
Proof.
  intros HX. destruct X as [|r X]; [constructor|]. unfold np_transpose.
  apply Forall_forall. intros row Hrow.
  apply list_elem_of_fmap in Hrow as (c & -> & _).
  apply Forall_forall. intros v Hv.
  apply list_elem_of_fmap in Hv as (r' & -> & Hr').
  eapply Forall_forall in HX; [|exact Hr'].
  destruct (nth_in_or_default c r' 0) as [Hin| ->]; [|left; reflexivity].
  eapply Forall_forall in HX; [exact HX|]. apply list_elem_of_In. exact Hin.
Qed.

Lemma mapM_ext_in {A B} (f g : A -> result B) (l : list A) :
  Forall (fun x => f x = g x) l -> mapM f l = mapM g l.
Proof.
  induction 1 as [|x l Hx _ IH]; simpl; [reflexivity|]. rewrite Hx, IH. reflexivity.
Qed.

Section SequenceTensorEdges.
Context `{Collaborators}.
Implicit Types (dictionary_features : gmap string Z) (tr : trace) (lg : log).

Lemma event_vector_binary tr dictionary_features (index : nat) v :
  event_vector tr dictionary_features index = Ok v -> Forall binary v.
Proof.
  unfold event_vector.
  destruct (py_getitem tr (Z.of_nat index)) as [e|?]; simpl; [|discriminate].
  destruct (mark_event_features _ _ _) as [v1|?] eqn:H1; simpl; [|discriminate].
  assert (Forall binary v1) as Hv1.
  { revert H1. unfold mark_event_features.
    apply (foldM_invariant (Forall binary)).
    - intros s [a x] s' Hs Hm. eapply mark_feature_binary; eauto.
    - apply Forall_replicate. left. reflexivity. }
  destruct (_ <? _); [|intros [= <-]; exact Hv1].
  destruct (py_getitem tr _) as [e2|?]; simpl; [|discriminate].
  unfold mark_succession_features.
  apply (foldM_invariant (Forall binary)); [|exact Hv1].
  intros s [a x] s' Hs Hm. destruct (e2 !! a).
  - eapply mark_feature_binary; eauto.
  - injection Hm as <-. exact Hs.
Qed.

(** X13. The encoding is binary: every entry of a tensor that
    [get_trace_rep_rnn] returns is 0 or 1, however often a descriptor
    occurs in the trace. *)
Theorem get_trace_rep_rnn_binary tr dictionary_features (max_len_trace : nat) X :
  get_trace_rep_rnn tr dictionary_features max_len_trace = Ok X ->
  Forall (Forall (fun v => v = 0 \/ v = 1)) X.
Proof.
  unfold get_trace_rep_rnn.
  destruct (mapM _ _) as [X0|?] eqn:H0; simpl; [|discriminate].
  destruct (zero_pad_loop _ X0) as [X1|?] eqn:H1; simpl; [|discriminate].
  intros [= <-]. apply np_transpose_binary.
  eapply (zero_pad_loop_Forall (Forall binary)); [| |exact H1].
  - intros w. apply Forall_replicate. left. reflexivity.
  - eapply mapM_ok_Forall; [|exact H0]. intros i v. apply event_vector_binary.
Qed.

Lemma py_getitem_take {A} (l : list A) (n i : nat) :
  (i < n)%nat -> py_getitem (take n l) (Z.of_nat i) = py_getitem l (Z.of_nat i).
Proof.
  intros Hi. destruct (l !! i) as [x|] eqn:Hx.
  - rewrite (py_getitem_nat _ _ _ Hx).
    apply py_getitem_nat. rewrite lookup_take_lt by exact Hi. exact Hx.
  - apply lookup_ge_None in Hx.
    rewrite !py_getitem_nat_ge; [reflexivity|exact Hx|].
    rewrite length_take. lia.
Qed.

(** X14. Cutting at [max_len_trace] looks one event further: the tensor
    of a trace is the tensor of its first [max_len_trace + 1] events, the
    last kept timestep still carrying the succession to the event after
    it; nothing beyond that event is read. *)
Theorem get_trace_rep_rnn_reads_prefix tr dictionary_features (max_len_trace : nat) :
  get_trace_rep_rnn tr dictionary_features max_len_trace
  = get_trace_rep_rnn (take (S max_len_trace) tr) dictionary_features max_len_trace.
Proof.
  destruct (decide (length tr <= S max_len_trace)%nat) as [Hshort|Hlong].
  { rewrite take_ge by exact Hshort. reflexivity. }
  unfold get_trace_rep_rnn. rewrite length_take.
  replace (Nat.min (Nat.min (S max_len_trace) (length tr)) max_len_trace)
    with (Nat.min (length tr) max_len_trace) by lia.
  replace (max_len_trace - Nat.min (S max_len_trace) (length tr))%nat
    with (max_len_trace - length tr)%nat by lia.
  erewrite (mapM_ext_in (event_vector tr dictionary_features)); [reflexivity|].
  apply Forall_forall. intros i Hi. apply elem_of_seq in Hi.
  unfold event_vector. rewrite length_take.
  rewrite py_getitem_take by lia.
  destruct (py_getitem tr (Z.of_nat i)) as [e|?]; cbn [rbind]; [|reflexivity].
  destruct (mark_event_features _ _ _) as [v|?]; cbn [rbind]; [|reflexivity].
  destruct (Z.ltb_spec (Z.of_nat i) (Z.of_nat (length tr) - 1)) as [_|Hn]; [|lia].
  destruct (Z.ltb_spec (Z.of_nat i)
              (Z.of_nat (Nat.min (S max_len_trace) (length tr)) - 1)) as [_|Hn];
    [|lia].
  replace (Z.of_nat i + 1) with (Z.of_nat (S i)) by lia.
  rewrite py_getitem_take by lia. reflexivity.
Qed.

End SequenceTensorEdges.

Lemma get_trace_rep_rnn_binary_witness :
  Forall (Forall (fun v => v = 0 \/ v = 1)) [[1; 1; 1; 0; 0]; [1; 1; 0; 0; 0]].
Proof.
  apply (@get_trace_rep_rnn_binary Demo.collaborators
           [Demo.ev "A" 0; Demo.ev "A" 1; Demo.ev "A" 2]
           (build_dictionary ["event:concept:name@A"; "succession:concept:name@A#A"]) 5).
  vm_compute. reflexivity.
Defined.

Section SequenceTensorLogs.
Context `{Collaborators}.
Implicit Types (dictionary_features : gmap string Z) (tr : trace) (lg : log).

Lemma get_trace_rep_rnn_total tr dictionary_features (L : nat) :
  tr <> [] -> (1 <= L)%nat -> indices_in_range dictionary_features ->
  exists X, get_trace_rep_rnn tr dictionary_features L = Ok X.
Proof.
  intros Hne HL Hrange.
  assert (length tr <> 0)%nat as Hlen by (destruct tr; [congruence|discriminate]).
  destruct (mapM_total (event_vector tr dictionary_features)
              (seq 0 (Nat.min (length tr) L))) as [X0 HX0].
  { apply Forall_forall. intros i Hi. apply elem_of_seq in Hi.
    apply event_vector_total; [exact Hrange|lia]. }
  pose proof (mapM_ok_length _ _ _ HX0) as Hlen0. rewrite length_seq in Hlen0.
  pose proof (mapM_ok_Forall (fun v => length v = size dictionary_features)
                _ _ _ (event_vector_length tr dictionary_features) HX0) as Hw0.
  assert (X0 <> []) as Hne0 by (destruct X0; [simpl in Hlen0; lia|discriminate]).
  unfold get_trace_rep_rnn. rewrite HX0; cbn [rbind].
  rewrite (zero_pad_loop_closed _ (L - length tr) _ Hne0 Hw0). cbn [rbind]. eauto.
Qed.

Lemma get_trace_rep_rnn_zero tr dictionary_features :
  get_trace_rep_rnn tr dictionary_features 0 = Ok [].
Proof.
  unfold get_trace_rep_rnn. rewrite Nat.min_0_r. reflexivity.
Qed.

(** X15. With an empty feature dictionary every non-empty trace has an
    empty representation, and [get_log_rep_rnn] drops it without raising:
    the encoded log is the empty list however many traces the log holds,
    and so is [get_X_from_log] when there are no feature names. *)
Theorem get_log_rep_rnn_empty_dictionary lg (max_len_trace : nat) :
  Forall (fun tr => tr <> []) lg ->
  get_log_rep_rnn lg ∅ max_len_trace = Ok [] /\
  get_X_from_log lg [] max_len_trace = Ok [].
Proof.
  intros Hne.
  assert (forall tr, tr <> [] -> get_trace_rep_rnn tr ∅ max_len_trace = Ok []) as Hrep.
  { intros tr Htr. destruct max_len_trace as [|n]; [apply get_trace_rep_rnn_zero|].
    destruct (get_trace_rep_rnn_total tr ∅ (S n) Htr ltac:(lia)) as [X HX].
    { intros rep idx Hidx. rewrite lookup_empty in Hidx. discriminate. }
    rewrite HX. f_equal.
    apply get_trace_rep_rnn_rows in HX as [_ Hcount].
    specialize (Hcount ltac:(lia)). rewrite map_size_empty in Hcount.
    destruct X; [reflexivity|discriminate]. }
  assert (get_log_rep_rnn lg ∅ max_len_trace = Ok []) as Hlog.
  { unfold get_log_rep_rnn. induction Hne as [|tr lg Htr _ IH]; [reflexivity|].
    cbn [foldM]. rewrite (Hrep tr Htr). cbn [rbind]. exact IH. }
  split; [exact Hlog|]. exact Hlog.
Qed.

End SequenceTensorLogs.

Lemma get_log_rep_rnn_empty_dictionary_witness :
  @get_log_rep_rnn Demo.collaborators [Demo.trace_A; Demo.trace_5] ∅ 5 = Ok [] /\
  @get_X_from_log Demo.collaborators [Demo.trace_A; Demo.trace_5] [] 5 = Ok [].
Proof.
  apply (@get_log_rep_rnn_empty_dictionary Demo.collaborators
           [Demo.trace_A; Demo.trace_5] 5).
  repeat constructor; discriminate.
Defined.

(** ** Feature dictionary *)

Section Dictionary.
Implicit Types (d : gmap string Z) (l : list string).

Local Abbreviation fill d l k :=
  (fold_left (fun dictionary_features '(index, value) =>
                <[value := Z.of_nat index]> dictionary_features)
             (enumerate_from k l) d).

Lemma fill_lookup_other d l (k : nat) (name : string) :
  name ∉ l -> fill d l k !! name = d !! name.
Proof.
  revert d k; induction l as [|x l IH]; intros d k Hnot; [reflexivity|].
  cbn [enumerate_from fold_left]. apply not_elem_of_cons in Hnot as [Hne Hnot].
  rewrite IH by exact Hnot. apply lookup_insert_ne. congruence.
Qed.

Lemma fill_lookup_index d l (k i : nat) (name : string) :
  NoDup l -> l !! i = Some name -> fill d l k !! name = Some (Z.of_nat (k + i)).
Proof.
  intros Hnd. revert d k i. induction Hnd as [|x l Hx Hnd IH]; intros d k i Hi.
  - discriminate.
  - cbn [enumerate_from fold_left]. destruct i as [|i]; simpl in Hi.
    + injection Hi as ->. rewrite fill_lookup_other by exact Hx.
      rewrite lookup_insert_eq, Nat.add_0_r. reflexivity.
    + rewrite (IH _ _ _ Hi). do 2 f_equal. lia.
Qed.

Lemma fill_lookup_inv d l (k : nat) (name : string) (idx : Z) :
  fill d l k !! name = Some idx ->
  (name ∈ l /\ Z.of_nat k <= idx < Z.of_nat (k + length l)) \/ d !! name = Some idx.
Proof.
  revert d k; induction l as [|x l IH]; intros d k Hl; [right; exact Hl|].
  cbn [enumerate_from fold_left] in Hl. apply IH in Hl as [[Hin Hr]|Hl].
  - left. split; [apply elem_of_cons; right; exact Hin|]. cbn [length]. lia.
  - apply lookup_insert_Some in Hl as [[<- <-]|[_ Hl]]; [|right; exact Hl].
    left. split; [apply elem_of_cons; left; reflexivity|]. cbn [length]. lia.
Qed.

Lemma fill_size d l (k : nat) :
  NoDup l -> (forall name, name ∈ l -> d !! name = None) ->
  size (fill d l k) = (size d + length l)%nat.
Proof.
  intros Hnd. revert d k. induction Hnd as [|x l Hx Hnd IH]; intros d k Hfresh.
  - simpl. lia.
  - cbn [enumerate_from fold_left]. rewrite IH.
    + rewrite map_size_insert_None by (apply Hfresh; apply elem_of_cons; left; reflexivity).
      cbn [length]. lia.
    + intros name Hin. rewrite lookup_insert_ne by (intros ->; contradiction).
      apply Hfresh. apply elem_of_cons. right. exact Hin.
Qed.

Lemma build_dictionary_shape (feature_names : list string) :
  NoDup feature_names ->
  size (build_dictionary feature_names) = length feature_names /\
  indices_in_range (build_dictionary feature_names).
Proof.
  intros Hnd. unfold build_dictionary.
  assert (size (fill (∅ : gmap string Z) feature_names 0) = length feature_names)
    as Hsize.
  { rewrite fill_size; [rewrite map_size_empty; lia|exact Hnd|].
    intros name _. apply lookup_empty. }
  split; [exact Hsize|].
  intros rep idx Hidx. rewrite Hsize.
  apply fill_lookup_inv in Hidx as [[_ Hr]|Hidx]; [lia|].
  rewrite lookup_empty in Hidx. discriminate.
Qed.

(** X16. For feature names without repetition the dictionary of
    [get_X_from_log] sends the name at position [i] to [i] and knows no
    other name; it has as many entries as there are names, so each of its
    indices is a column of the event vectors. *)
Theorem build_dictionary_no_duplicates (feature_names : list string) :
  NoDup feature_names ->
  size (build_dictionary feature_names) = length feature_names /\
  indices_in_range (build_dictionary feature_names) /\
  (forall i name, feature_names !! i = Some name ->
                  build_dictionary feature_names !! name = Some (Z.of_nat i)) /\
  (forall name, name ∉ feature_names ->
                build_dictionary feature_names !! name = None).
Proof.
  intros Hnd. destruct (build_dictionary_shape feature_names Hnd) as [Hsize Hrange].
  split; [exact Hsize|]. split; [exact Hrange|]. unfold build_dictionary. split.
  - intros i name Hi. rewrite (fill_lookup_index _ _ _ _ _ Hnd Hi). reflexivity.
  - intros name Hnot. rewrite fill_lookup_other by exact Hnot. apply lookup_empty.
Qed.

End Dictionary.

Lemma build_dictionary_no_duplicates_witness :
  size (build_dictionary ["a"; "b"; "c"]) = 3%nat /\
  build_dictionary ["a"; "b"; "c"] !! "c" = Some 2.
Proof.
  destruct (build_dictionary_no_duplicates ["a"; "b"; "c"]) as (Hsize & _ & Hat & _).
  - apply (bool_decide_unpack _). vm_compute. exact I.
  - split; [exact Hsize|]. apply (Hat 2%nat). reflexivity.
Defined.

Section EncodedLog.
Context `{Collaborators}.

Lemma get_log_rep_rnn_keeps_all (dictionary_features : gmap string Z) (L : nat) :
  (1 <= L)%nat -> (1 <= size dictionary_features)%nat ->
  indices_in_range dictionary_features ->
  forall (lg : log) (acc : list (list (list Z))),
    Forall (fun tr => tr <> []) lg ->
    exists X,
      foldM (fun X tr =>
               rep <- get_trace_rep_rnn tr dictionary_features L ;;
               match rep with
               | [] => Ok X
               | _ => Ok (X ++ [rep])
               end) acc lg = Ok (acc ++ X) /\
      length X = length lg /\
      Forall (fun rep => length rep = size dictionary_features /\
                         Forall (fun row => length row = L) rep) X.
Proof.
  intros HL Hsize Hrange. induction lg as [|tr lg IH]; intros acc Hne.
  - exists []. simpl. rewrite app_nil_r. repeat split. constructor.
  - apply Forall_cons in Hne as [Htr Hne]. cbn [foldM].
    destruct (get_trace_rep_rnn_total tr dictionary_features L Htr HL Hrange)
      as [rep Hrep].
    rewrite Hrep. cbn [rbind].
    destruct (get_trace_rep_rnn_rows _ _ _ _ Hrep) as [Hrows Hcount].
    specialize (Hcount HL).
    destruct rep as [|r rep]; [simpl in Hcount; lia|]. cbv iota. cbn [rbind].
    destruct (IH (acc ++ [r :: rep]) Hne) as (X & HX & Hlen & Hall).
    exists ((r :: rep) :: X). rewrite HX. split; [rewrite <- app_assoc; reflexivity|].
    split; [simpl; lia|]. constructor; [split; assumption|exact Hall].
Qed.

(** X17. For feature names without repetition, at least one of them, a
    log of non-empty traces and [max_len_trace >= 1], [get_X_from_log]
    drops no trace: it returns one tensor per trace, in the order of the
    log, each with one row per feature name and [max_len_trace] entries
    per row, the shape (traces, features, timesteps). *)
Theorem get_X_from_log_shape (lg : log) (feature_names : list string)
    (max_len_trace : nat) :
  NoDup feature_names -> feature_names <> [] ->
  Forall (fun tr => tr <> []) lg -> (1 <= max_len_trace)%nat ->
  exists X,
    get_X_from_log lg feature_names max_len_trace = Ok X /\
    length X = length lg /\
    Forall (fun rep => length rep = length feature_names /\
                       Forall (fun row => length row = max_len_trace) rep) X.
Proof.
  intros Hnd Hnames Hne HL.
  destruct (build_dictionary_shape feature_names Hnd) as (Hsize & Hrange).
  unfold get_X_from_log, get_log_rep_rnn.
  destruct (get_log_rep_rnn_keeps_all (build_dictionary feature_names) max_len_trace
              HL) with (lg := lg) (acc := @nil (list (list Z)))
    as (X & HX & Hlen & Hall); try assumption.
  { rewrite Hsize. destruct feature_names; [congruence|simpl; lia]. }
  exists X. rewrite HX. split; [reflexivity|]. split; [exact Hlen|].
  rewrite <- Hsize. exact Hall.
Qed.

End EncodedLog.

Lemma get_X_from_log_shape_witness :
  exists X,
    @get_X_from_log Demo.collaborators [Demo.trace_A; Demo.trace_5]
      ["event:concept:name@A"; "succession:concept:name@A#A"] 4 = Ok X /\
    length X = 2%nat /\
    Forall (fun rep => length rep = 2%nat /\ Forall (fun row => length row = 4%nat) rep) X.
Proof.
  apply (@get_X_from_log_shape Demo.collaborators [Demo.trace_A; Demo.trace_5]
           ["event:concept:name@A"; "succession:concept:name@A#A"] 4).
  - apply (bool_decide_unpack _). vm_compute. exact I.
  - discriminate.
  - repeat constructor; discriminate.
  - lia.
Defined.

(** ** Sequence-model [test] and [train] at their edges *)

(** X18. [test] cuts a long trace for the encoding but reads the output
    of the regressor at the trace's own length: when the output row is
    shorter than the trace (a model trained by [train] gives
    [max_len_trace] outputs), the call raises [IndexError]. *)
Theorem test_trace_longer_than_output `{Collaborators} (m : keras_rnn.model)
    (tr : trace) (X : list (list (list Z))) (row : list R) :
  get_X_from_log [tr] (keras_rnn.feature_names m) (keras_rnn.max_len_trace m) = Ok X ->
  keras_predict (keras_rnn.regr m) X !! 0%nat = Some row ->
  (length row < length tr)%nat ->
  keras_rnn.test m (keras_rnn.OfTrace tr) = Err IndexError.
Proof.
  intros HX Hrow Hlong. unfold keras_rnn.test. rewrite HX. cbn [rbind length].
  change (Z.of_nat 1 =? 1) with true. cbv iota.
  change (py_getitem [tr] 0) with (@Ok trace tr). cbn [rbind].
  unfold keras_rnn.predict_at.
  rewrite (py_getitem_nat _ 0 _ Hrow). cbn [rbind].
  replace (Z.of_nat (length tr) - 1) with (Z.of_nat (length tr - 1)) by lia.
  rewrite py_getitem_nat_ge by lia. reflexivity.
Qed.

Lemma test_trace_longer_than_output_witness :
  @keras_rnn.test Demo.collaborators
    (@keras_rnn.Build_model Demo.collaborators (PList []) (PList []) (PList [])
       (PList []) (PList []) ["event:concept:name@A"] tt 2 2%R)
    (keras_rnn.OfTrace Demo.trace_A)
  = Err IndexError.
Proof.
  eapply (@test_trace_longer_than_output Demo.collaborators
            (@keras_rnn.Build_model Demo.collaborators (PList []) (PList [])
               (PList []) (PList []) (PList []) ["event:concept:name@A"] tt 2 2%R)
            Demo.trace_A).
  - vm_compute. reflexivity.
  - reflexivity.
  - simpl. lia.
Defined.

Lemma sbind_fail {A B} (m : dict_comp A) (k : A -> dict_comp B) p e p1 :
  m p = (Err e, p1) -> sbind m k p = (Err e, p1).
Proof. intros Hm. unfold sbind. rewrite Hm. reflexivity. Qed.

Lemma run_train_result {Model} (body : dict_comp Model) (parameters : option params) :
  (run_train body parameters).1
  = (body (match parameters with None => ∅ | Some p => p end)).1.
Proof.
  unfold run_train. destruct parameters as [p|]; [|reflexivity].
  destruct (body p); reflexivity.
Qed.

(** X19. [train] of the sequence model raises [ValueError] on a log
    without traces: the maximum trace length is the [max] of an empty
    list. *)
Theorem keras_train_empty_log `{Collaborators} (parameters : option params) :
  (keras_rnn.train [] parameters).1 = Err ValueError.
Proof.
  unfold keras_rnn.train. rewrite run_train_result.
  unfold keras_rnn.train_body, keras_rnn.prepare.
  set (p := match parameters with None => ∅ | Some p => p end).
  erewrite (sbind_fail _ _ p ValueError); [reflexivity|].
  erewrite sbind_run by apply get_or_run.
  unfold sbind at 1, setitem.
  erewrite sbind_run by apply get_or_run.
  erewrite sbind_fail; reflexivity.
Qed.

Lemma max_length_ok (l : list nat) (x : nat) :
  x ∈ l -> exists L, max_length l = Ok L /\ (x <= L)%nat.
Proof.
  intros Hin. destruct l as [|a l]; [apply elem_of_nil in Hin; contradiction|].
  simpl. eexists. split; [reflexivity|].
  assert (forall l acc, (acc <= fold_left Nat.max l acc)%nat /\
                        Forall (fun v => (v <= fold_left Nat.max l acc)%nat) l)
    as Hfold.
  { clear. induction l as [|b l IH]; intros acc; simpl.
    - split; [lia|constructor].
    - destruct (IH (Nat.max acc b)) as [Hacc Hall].
      split; [lia|]. constructor; [lia|exact Hall]. }
  destruct (Hfold l a) as [Ha Hl].
  apply elem_of_cons in Hin as [->|Hin]; [exact Ha|].
  eapply Forall_forall in Hl; [exact Hl|exact Hin].
Qed.

Lemma Q2R_zero : Q2R 0 = 0%R.
Proof. unfold Q2R; simpl. apply Rmult_0_l. Qed.

Lemma global_max_nonempty_lists (g : list (list R)) :
  Forall (fun lst => lst <> []) g -> exists m, global_max g = Ok m.
Proof.
  unfold global_max. generalize initial_max_value. intros m0 Hg. revert m0.
  induction Hg as [|lst g Hlst _ IH]; intros m0; simpl; [eauto|].
  destruct lst as [|x lst]; [congruence|]. simpl. apply IH.
Qed.

Section ConstantTimestamps.
Context `{Collaborators}.

(** A trace whose events all carry one timestamp has only zeros as
    wall-clock labels. *)
Lemma remaining_time_of_constant_trace (p : params) (key : string) (tr : trace)
    (t : Z) (L : nat) :
  param_or p PARAMETER_CONSTANT_TIMESTAMP_KEY (PStr DEFAULT_TIMESTAMP_KEY) = PStr key ->
  truthy (param_or p "business_hours" (PBool false)) = false ->
  tr <> [] -> Forall (fun ev => ev !! key = Some (PTime t)) tr ->
  remaining_time_of_trace p L tr = Ok (replicate L 0%Q).
Proof.
  intros Hkey Hwall Hne Hall.
  assert (Forall2 (fun ev t' => ev !! key = Some (PTime t')) tr
            (replicate (length tr) t)) as Hts.
  { clear Hne. induction Hall as [|e tr He _ IH]; simpl; constructor; assumption. }
  assert (last (replicate (length tr) t) = Some t) as Hlast.
  { destruct tr as [|e tr]; [congruence|]. cbn [length].
    rewrite replicate_S_end. apply last_snoc. }
  rewrite (remaining_time_row key _ _ _ tr _ t Hts Hlast p L Hkey
             eq_refl eq_refl eq_refl).
  f_equal.
  set (f := seconds_to_last (param_or p "business_hours" (PBool false))
              (param_or p "worktiming" (PList [PInt 7; PInt 17]))
              (param_or p "weekends" (PList [PInt 6; PInt 7])) t).
  assert (f t = 0%Q) as Hzero.
  { unfold f, seconds_to_last. rewrite Hwall, Z.sub_diag. reflexivity. }
  assert (forall k, map f (replicate k t) = replicate k 0%Q) as Hmap.
  { induction k as [|k IH]; simpl; [reflexivity|]. rewrite Hzero, IH. reflexivity. }
  rewrite take_replicate, Hmap, Hzero, length_replicate, <- replicate_add.
  f_equal. lia.
Qed.

(** X20. [train] of the sequence model cannot be run on a log whose
    traces each have all their events at one timestamp (a log of
    one-event traces is one): without precomputed labels and in wall-clock
    mode every label is 0, the logarithm of the maximum is 0, and the call
    raises [ZeroDivisionError]. *)
Theorem keras_train_constant_timestamps (lg : log) (parameters : option params)
    (key : string) :
  let p := match parameters with None => ∅ | Some p => p end in
  let p1 := <["enable_sort" := PBool false]> p in
  p !! "y_orig" = None ->
  param_or p1 PARAMETER_CONSTANT_TIMESTAMP_KEY (PStr DEFAULT_TIMESTAMP_KEY) = PStr key ->
  truthy (param_or p "business_hours" (PBool false)) = false ->
  lg <> [] ->
  Forall (fun tr => tr <> [] /\
                    exists t, Forall (fun ev => ev !! key = Some (PTime t)) tr) lg ->
  (keras_rnn.train lg parameters).1 = Err ZeroDivisionError.
Proof.
  intros p p1 Hy Hkey Hwall Hlog Hall.
  assert (truthy (param_or p1 "business_hours" (PBool false)) = false) as Hwall1.
  { unfold param_or, p1 in *. rewrite lookup_insert_ne by discriminate. exact Hwall. }
  assert (p1 !! "y_orig" = None) as Hy1.
  { unfold p1. rewrite lookup_insert_ne by discriminate. exact Hy. }
  (* the longest trace has at least one event *)
  destruct lg as [|tr0 lg']; [congruence|]. set (lg := tr0 :: lg') in *.
  destruct (max_length_ok (map length lg) (length tr0)) as (L & HL & Hge).
  { apply elem_of_cons. left. reflexivity. }
  assert (1 <= L)%nat as HL1.
  { apply Forall_cons in Hall as [[Hne _] _].
    destruct tr0; [congruence|simpl in Hge; lia]. }
  (* every label is zero *)
  assert (get_remaining_time_from_log lg L (Some p1)
          = Ok (map (fun _ => replicate L 0%Q) lg)) as Hrows.
  { unfold get_remaining_time_from_log. apply mapM_ok_map.
    eapply Forall_impl; [exact Hall|]. intros tr [Hne [t Ht]].
    eapply remaining_time_of_constant_trace; eassumption. }
  set (g := map (map Q2R) (map (fun _ : trace => replicate L 0%Q) lg)).
  assert (Forall (Forall (fun v => v = 0%R)) g) as Hzeros.
  { unfold g. apply Forall_fmap, Forall_fmap, Forall_forall. intros tr _. simpl.
    apply Forall_fmap, Forall_replicate. simpl. apply Q2R_zero. }
  assert (Forall (fun lst => lst <> []) g) as Hnonempty.
  { unfold g. apply Forall_fmap, Forall_fmap, Forall_forall. intros tr _. simpl.
    destruct L; [lia|discriminate]. }
  destruct (global_max_nonempty_lists g Hnonempty) as [mx Hmax].
  assert (mx = 0%R) as ->.
  { pose proof Hmax as Hm. unfold global_max in Hm.
    destruct (global_max_loop_zeros g initial_max_value mx
                ltac:(unfold initial_max_value; lra) Hzeros Hm) as [[Hnil _]|Hm0];
      [discriminate|exact Hm0]. }
  destruct (global_max_zero_case g Hmax) as (_ & e & Hnorm & He).
  assert (e = ZeroDivisionError) as ->.
  { apply He. eapply Forall_impl; [exact Hzeros|]. intros lst Hlst.
    eapply Forall_impl; [exact Hlst|]. intros v ->. lra. }
  (* the run of [train] up to the normalisation *)
  unfold keras_rnn.train. rewrite run_train_result. fold p.
  unfold keras_rnn.train_body.
  erewrite (sbind_fail _ _ p ZeroDivisionError); [reflexivity|].
  unfold keras_rnn.prepare.
  erewrite sbind_run by apply get_or_run.
  unfold sbind at 1, setitem. fold p1.
  erewrite sbind_run by apply get_or_run.
  erewrite sbind_run by (unfold lift; rewrite HL; reflexivity).
  erewrite sbind_run by (apply raw_labels_run; [exact Hy1|exact Hrows]).
  erewrite sbind_fail; [reflexivity|]. unfold lift. fold g. rewrite Hnorm. reflexivity.
Qed.

End ConstantTimestamps.

Lemma keras_train_constant_timestamps_witness :
  (@keras_rnn.train Demo.collaborators
     [[Demo.ev "A" 3]; [Demo.ev "A" 7; Demo.ev "B" 7]] None).1
  = Err ZeroDivisionError.
Proof.
  apply (@keras_train_constant_timestamps Demo.collaborators
           [[Demo.ev "A" 3]; [Demo.ev "A" 7; Demo.ev "B" 7]] None "time:timestamp").
  - reflexivity.
  - vm_compute. reflexivity.
  - vm_compute. reflexivity.
  - discriminate.
  - repeat constructor; try discriminate.
    + exists 3000000. repeat constructor.
    + exists 7000000. repeat constructor.
Defined.

Section NetworkShape.
Context `{Collaborators}.

Lemma get_X_from_log_tensors (lg : log) (feature_names : list string) (L : nat)
    (X : list (list (list Z))) :
  get_X_from_log lg feature_names L = Ok X ->
  Forall (fun rep => rep <> [] /\
                     length rep = size (build_dictionary feature_names) /\
                     (1 <= L)%nat) X.
Proof.
  unfold get_X_from_log, get_log_rep_rnn.
  apply (foldM_invariant
           (Forall (fun rep => rep <> [] /\
                               length rep = size (build_dictionary feature_names) /\
                               (1 <= L)%nat))); [|constructor].
  intros X0 tr X1 HX0 Hstep.
  destruct (get_trace_rep_rnn tr _ L) as [rep|?] eqn:Hrep; simpl in Hstep;
    [|discriminate].
  destruct rep as [|r rep]; injection Hstep as <-; [exact HX0|].
  apply Forall_app. split; [exact HX0|]. repeat constructor; [discriminate| |].
  - destruct L as [|n].
    + rewrite get_trace_rep_rnn_zero in Hrep. discriminate.
    + apply get_trace_rep_rnn_rows in Hrep as [_ Hcount]. apply Hcount. lia.
  - destruct L as [|n]; [|lia].
    rewrite get_trace_rep_rnn_zero in Hrep. discriminate.
Qed.

(** X21. The network that [train] of the sequence model builds takes its
    input as (features, timesteps): [input_shape] is the size of the
    feature dictionary and [max_len_trace], in that order, and the batch
    size passed to [fit] is the size of the feature dictionary, not the
    number of timesteps; both are at least 1 when [train] gets that far. *)
Theorem train_input_shape (lg : log) (p p' : params) (pr : keras_rnn.prepared) :
  keras_rnn.prepare lg p = (Ok pr, p') ->
  let features := size (build_dictionary (keras_rnn.p_feature_names pr)) in
  input_shape (keras_rnn.p_network pr) = (features, keras_rnn.p_max_len_trace pr) /\
  batch_size (keras_rnn.p_network pr) = features /\
  (1 <= features)%nat /\ (1 <= keras_rnn.p_max_len_trace pr)%nat.
Proof.
  intros Hrun.
  unfold keras_rnn.prepare in Hrun.
  apply sbind_ok_inv in Hrun as (default_epochs & p0 & _ & Hrun).
  apply sbind_ok_inv in Hrun as (u & p1 & _ & Hrun).
  apply sbind_ok_inv in Hrun as (activity_key & p2 & _ & Hrun).
  apply sbind_ok_inv in Hrun as (L & p3 & HL & Hrun).
  apply sbind_ok_inv in Hrun as (y_orig & p4 & _ & Hrun).
  apply sbind_ok_inv in Hrun as ([y lmv] & p5 & _ & Hrun).
  apply sbind_ok_inv in Hrun as ([[[a5 b5] c5] d5] & p6 & _ & Hrun).
  destruct (get_representation _ _ _ _ _ _ _) as [data names].
  apply sbind_ok_inv in Hrun as (X & p7 & HX & Hrun).
  apply lift_ok_inv in HX as [HX ->].
  apply sbind_ok_inv in Hrun as (d & p8 & Hd & Hrun).
  apply lift_ok_inv in Hd as [Hd ->].
  apply sbind_ok_inv in Hrun as (s1 & p9 & Hs & Hrun).
  apply lift_ok_inv in Hs as [Hs ->].
  unfold sret in Hrun. injection Hrun as <- <-.
  cbn [keras_rnn.p_network keras_rnn.p_feature_names keras_rnn.p_max_len_trace
       input_shape batch_size].
  pose proof (np_shape_2_timesteps _ _ _ _ _ HX Hd) as ->.
  pose proof (get_X_from_log_tensors _ _ _ _ HX) as Hreps.
  destruct X as [|rep X]; simpl in Hs; [discriminate|]. injection Hs as <-.
  apply Forall_cons in Hreps as [(Hne & Hlen & HL1) _].
  rewrite Hlen. repeat split; try assumption.
  rewrite <- Hlen. destruct rep; [congruence|simpl; lia].
Qed.

End NetworkShape.

Lemma train_input_shape_witness :
  exists pr p',
    @keras_rnn.prepare Demo.collaborators [Demo.trace_5] ∅ = (Ok pr, p') /\
    input_shape (keras_rnn.p_network pr) = (2%nat, 5%nat) /\
    batch_size (keras_rnn.p_network pr) = 2%nat.
Proof.
  destruct demo_prepare_run as (pr & p' & Hrun & Hnames & HL & _).
  destruct (@train_input_shape Demo.collaborators _ _ _ _ Hrun)
    as (Hshape & Hbatch & _).
  exists pr, p'. rewrite Hnames, HL in *. repeat split; assumption.
Defined.

(** ** Elastic-net [train] with precomputed labels *)

(** X22. When the caller supplies [y_orig] as a list of lists, the
    label vector of a model that [train] of the elastic-net adapter
    returns is the lists of [y_orig] one after the other, in order: the
    labels are taken as given, none is computed from the log. *)
Theorem elasticnet_train_precomputed_labels `{Collaborators} (lg : log) (p : params)
    (cases : list (list pyval)) (m : elasticnet.model) :
  p !! "y_orig" = Some (PList (map PList cases)) ->
  (elasticnet.train lg (Some p)).1 = Ok m ->
  elasticnet.en_remaining_time m = concat cases.
Proof.
  intros Hy.
  destruct (elasticnet_train_result lg p) as (build & Hbuild & Hrun).
  rewrite Hrun. clear Hrun.
  assert (param_or (<["enable_sort" := PBool false]> p) "y_orig" PNone
          = PList (map PList cases)) as ->.
  { unfold param_or. rewrite lookup_insert_ne by discriminate. rewrite Hy. reflexivity. }
  cbn [elasticnet.labels py_iter rbind].
  assert (forall cs, mapM py_iter (map PList cs) = Ok cs) as Hiter.
  { induction cs as [|c cs IH]; simpl; [reflexivity|]. rewrite IH. reflexivity. }
  rewrite Hiter. cbn [rbind]. intros [= <-]. apply Hbuild.
Qed.

Lemma elasticnet_train_precomputed_labels_witness :
  exists m,
    (@elasticnet.train Demo.collaborators [Demo.trace_A]
       (Some {["y_orig" := PList [PList [PInt 12; PInt 7; PInt 0]]]})).1 = Ok m /\
    elasticnet.en_remaining_time m = [PInt 12; PInt 7; PInt 0].
Proof.
  destruct (@elasticnet.train Demo.collaborators [Demo.trace_A]
              (Some {["y_orig" := PList [PList [PInt 12; PInt 7; PInt 0]]]})).1
    as [m|e] eqn:Hrun.
  - exists m. split; [reflexivity|].
    apply (@elasticnet_train_precomputed_labels Demo.collaborators [Demo.trace_A]
             {["y_orig" := PList [PList [PInt 12; PInt 7; PInt 0]]]}
             [[PInt 12; PInt 7; PInt 0]] m).
    + apply lookup_singleton_eq.
    + exact Hrun.
  - exfalso. vm_compute in Hrun. discriminate.
Defined.
